(** * lwc-dev-mobile-core: version ordering, simulator discovery, launchers
      and requirement checks

    A shallow embedding of the TypeScript sources

      - [src/common/Common.ts]           ([Version], [IOSLauncher],
                                          [IOSSimulatorDevice])
      - [src/common/AndroidLauncher.ts]  ([AndroidLauncher])
      - [test/unit/common/AndroidMockData.ts] ([WrappedPromise], [BaseSetup])

    and the properties of them that the specification states.

    Conventions.
      - A JavaScript string is a [string]: one [ascii] stands for one code
        unit, so the development covers strings whose code units are below
        256.
      - A JavaScript number that holds an integer is a [Z].  Doubles are exact
        on integers of absolute value below 2^53; the development reads the
        numbers of the program in that range.
      - A function that may throw returns a [completion].
      - [JSON.parse], [new RegExp] and the collator of [localeCompare] are
        the platform's: the functions that use them take them as
        arguments. *)

From Stdlib Require Import ZArith List Bool Ascii String Lia.
From Stdlib Require Import Decimal DecimalString DecimalZ.
From Stdlib Require Import Sorting.Sorted Sorting.Permutation.
From Stdlib Require QArith.
Import ListNotations.

Local Open Scope string_scope.
Local Open Scope Z_scope.

(** ** Completions: a value returned or an error thrown *)

Inductive completion (A : Type) : Type :=
| Return (v : A)
| Throw (message : string).
Arguments Return {A} v.
Arguments Throw {A} message.

(** ** Strings of the platform *)

Module JSString.

Definition isDigit (c : ascii) : bool :=
  ((48 <=? nat_of_ascii c) && (nat_of_ascii c <=? 57))%nat.

Definition isNonZeroDigit (c : ascii) : bool :=
  ((49 <=? nat_of_ascii c) && (nat_of_ascii c <=? 57))%nat.

(** White space and line terminators of ECMAScript among the code units
    below 256: TAB, LF, VT, FF, CR, SP, NBSP. *)
Definition isWhiteSpace (c : ascii) : bool :=
  let n := nat_of_ascii c in
  ((9 <=? n) && (n <=? 13) || (n =? 32) || (n =? 160))%nat.

Fixpoint trimStart (s : string) : string :=
  match s with
  | String c r => if isWhiteSpace c then trimStart r else s
  | EmptyString => EmptyString
  end.

Fixpoint trimEnd (s : string) : string :=
  match s with
  | String c r =>
      match trimEnd r with
      | EmptyString => if isWhiteSpace c then EmptyString else String c EmptyString
      | r' => String c r'
      end
  | EmptyString => EmptyString
  end.

(** [String.prototype.trim] *)
Definition trim (s : string) : string := trimEnd (trimStart s).

(** The decimal digits a string starts with, as a [Decimal.uint]. *)
Fixpoint digitPrefix (s : string) : uint :=
  match s with
  | String c r =>
      match c with
      | "0"%char => D0 (digitPrefix r)
      | "1"%char => D1 (digitPrefix r)
      | "2"%char => D2 (digitPrefix r)
      | "3"%char => D3 (digitPrefix r)
      | "4"%char => D4 (digitPrefix r)
      | "5"%char => D5 (digitPrefix r)
      | "6"%char => D6 (digitPrefix r)
      | "7"%char => D7 (digitPrefix r)
      | "8"%char => D8 (digitPrefix r)
      | "9"%char => D9 (digitPrefix r)
      | _ => Nil
      end
  | EmptyString => Nil
  end.

(** [Number.parseInt(s, 10)] on a string that starts with a digit: the
    value of the longest prefix of decimal digits.  (On a string with no
    leading digit the platform yields NaN; the program calls [parseInt]
    only on the digit groups of a successful match.) *)
Definition parseInt10 (s : string) : Z := Z.of_uint (digitPrefix s).

(** [Number.prototype.toString] / template-literal conversion of an integer
    (below 10^21 in absolute value, where the platform prints all
    digits). *)
Definition numberToString (z : Z) : string :=
  NilZero.string_of_int (Z.to_int z).

(** A decimal numeral without a leading zero: [0|[1-9]\d*]. *)
Fixpoint allDigits (s : string) : bool :=
  match s with
  | String c r => isDigit c && allDigits r
  | EmptyString => true
  end.

Definition isNumeral (s : string) : bool :=
  match s with
  | String c r =>
      if Ascii.eqb c "0" then String.eqb r "" else isNonZeroDigit c && allDigits r
  | EmptyString => false
  end.

Definition startsWithDigit (s : string) : bool :=
  match s with
  | String c _ => isDigit c
  | EmptyString => false
  end.

Fixpoint noWhiteSpace (s : string) : bool :=
  match s with
  | String c r => negb (isWhiteSpace c) && noWhiteSpace r
  | EmptyString => true
  end.

(** [Number.isSafeInteger]: the integers every double represents
    exactly. *)
Definition isSafeInteger (z : Z) : bool := Z.abs z <=? 9007199254740991.

(** [String.prototype.toLowerCase] on the letters A-Z. *)
Definition toLowerAscii (c : ascii) : ascii :=
  let n := nat_of_ascii c in
  if ((65 <=? n) && (n <=? 90))%nat then ascii_of_nat (n + 32) else c.

Fixpoint toLowerCase (s : string) : string :=
  match s with
  | String c r => String (toLowerAscii c) (toLowerCase r)
  | EmptyString => EmptyString
  end.

End JSString.

(** ** [Version] ([src/common/Common.ts]) *)

Module Version.
Import JSString.

Record Version : Type := mkVersion
  { major : Z; minor : Z; patch : Z }.

(** The named groups of [versionRegex]; [None] is a group that did not
    participate in the match ([undefined]). *)
Record Groups : Type := mkGroups
  { Major : string;
    Separator : option ascii;
    Minor : option string;
    Patch : option string }.

Definition isSeparator (c : ascii) : bool :=
  Ascii.eqb c "-" || Ascii.eqb c ".".

Section Matcher.
Context {R : Type}.

(** Greedy [\d*]: the continuation receives the digits matched and the
    rest of the input; when it fails the matcher gives the last digit
    back and tries again. *)
Fixpoint digitsStar (s : string) (k : string -> string -> option R)
  : option R :=
  match s with
  | String c r =>
      if isDigit c then
        match digitsStar r (fun m rest => k (String c m) rest) with
        | Some x => Some x
        | None => k "" s
        end
      else k "" s
  | EmptyString => k "" ""
  end.

(** [0|[1-9]\d*]: the alternatives are tried from left to right. *)
Definition number (s : string) (k : string -> string -> option R)
  : option R :=
  let zero :=
    match s with
    | String c r => if Ascii.eqb c "0" then k "0" r else None
    | EmptyString => None
    end in
  match zero with
  | Some x => Some x
  | None =>
      match s with
      | String c r =>
          if isNonZeroDigit c
          then digitsStar r (fun m rest => k (String c m) rest)
          else None
      | EmptyString => None
      end
  end.

(** [\k<Separator>]: a back reference to a group that did not
    participate matches the empty string (ECMAScript
    BackreferenceMatcher); otherwise it matches the captured text. *)
Definition backreference (sep : option ascii) (s : string)
           (k : string -> option R) : option R :=
  match sep with
  | None => k s
  | Some c =>
      match s with
      | String c' r => if Ascii.eqb c c' then k r else None
      | EmptyString => None
      end
  end.
End Matcher.

(** [versionRegex.exec].  With N for the numeral pattern 0|[1-9]\d* the
    expression reads

      ^ (?<Major>N) ( (?<Separator>[-.]) (?<Minor>N) )? ( \k<Separator> (?<Patch>N) )? $

    and is run as the backtracking matcher of the platform runs it,
    anchored at both ends.  Each optional group is greedy: it is tried
    first and skipped only when the rest of the pattern fails after it. *)
Definition versionRegex_exec (s : string) : option Groups :=
  number s (fun major s1 =>
    let atEnd sep minor patch (s3 : string) :=
      match s3 with
      | EmptyString => Some (mkGroups major sep minor patch)
      | String _ _ => None
      end in
    let patchGroup sep minor (s2 : string) :=
      match backreference sep s2
              (fun s2' => number s2' (fun p s3 => atEnd sep minor (Some p) s3))
      with
      | Some g => Some g
      | None => atEnd sep minor None s2
      end in
    let minorGroup :=
      match s1 with
      | String c r =>
          if isSeparator c
          then number r (fun m s2 => patchGroup (Some c) (Some m) s2)
          else None
      | EmptyString => None
      end in
    match minorGroup with
    | Some g => Some g
    | None => patchGroup None None s1
    end).

(** [Version.from] (the warning it logs on a failed match is not
    modelled). *)
Definition from (input : string) : option Version :=
  let trimmedInput := trim input in
  match versionRegex_exec trimmedInput with
  | None => None
  | Some versionMatch =>
      let major := parseInt10 (Major versionMatch) in
      let minor :=
        match Minor versionMatch with
        | Some m => parseInt10 m
        | None => 0
        end in
      let patch :=
        match Patch versionMatch with
        | Some p => parseInt10 p
        | None => 0
        end in
      Some (mkVersion major minor patch)
  end.

(** [Version.prototype.toString] *)
Definition toString (v : Version) : string :=
  numberToString (major v) ++ "." ++ numberToString (minor v) ++ "."
    ++ numberToString (patch v).

(** An argument of [compare]: [Version | string]. *)
Inductive VersionOrString : Type :=
| OfVersion (v : Version)
| OfString (s : string).

Definition codenameError : string :=
  "Comparing 2 codename versions is not supported.".

Section Compare.
(** [a.localeCompare(b, undefined, { sensitivity: 'accent' })] of the
    platform's collator in the default locale. *)
Variable localeCompareAccent : string -> string -> Z.

(** [v.toString()] of a [Version | string]. *)
Definition argToString (v : VersionOrString) : string :=
  match v with
  | OfVersion v => toString v
  | OfString s => s
  end.

(** [Version.compare] *)
Definition compare (v1 v2 : VersionOrString) : completion Z :=
  let version1 :=
    match v1 with OfString s => from s | OfVersion v => Some v end in
  let version2 :=
    match v2 with OfString s => from s | OfVersion v => Some v end in
  match version1, version2 with
  | None, None =>
      if localeCompareAccent (argToString v1) (argToString v2) =? 0
      then Return 0
      else Throw codenameError
  | None, Some _ => Return 1
  | Some _, None => Return (-1)
  | Some version1, Some version2 =>
      let num1 :=
        major version1 * 100 + minor version1 * 10 + patch version1 in
      let num2 :=
        major version2 * 100 + minor version2 * 10 + patch version2 in
      if num1 =? num2 then Return 0
      else if num1 <? num2 then Return (-1)
      else Return 1
  end.

(** [Version.same] and [Version.sameOrNewer] *)
Definition same (v1 v2 : VersionOrString) : completion bool :=
  match compare v1 v2 with
  | Return n => Return (n =? 0)
  | Throw e => Throw e
  end.

Definition sameOrNewer (v1 v2 : VersionOrString) : completion bool :=
  match compare v1 v2 with
  | Return n => Return (0 <=? n)
  | Throw e => Throw e
  end.
End Compare.

(** The order the specification describes: major first, then minor, then
    patch, each compared as a number. *)
Definition compareLexicographic (a b : Version) : Z :=
  match (major a ?= major b) with
  | Lt => -1
  | Gt => 1
  | Eq =>
      match (minor a ?= minor b) with
      | Lt => -1
      | Gt => 1
      | Eq =>
          match (patch a ?= patch b) with
          | Lt => -1
          | Gt => 1
          | Eq => 0
          end
      end
  end.

(** A collator for the worked examples.  It ignores the case of the
    letters A-Z and tells every other difference of code units apart, a
    difference of accents included; on the strings of the examples this is
    the answer of the platform's collator at sensitivity 'accent' (ECMA-402:
    strings that differ in base letters or accents are unequal, strings that
    differ in case only are equal). *)
Definition sampleCollator (a b : string) : Z :=
match String.compare (toLowerCase a) (toLowerCase b) with
| Lt => -1
| Eq => 0
| Gt => 1
end.

(** The comparison the specification words name, "case/accent-insensitive":
    two strings are equal once the accents of the Latin-1 letters are removed
    and the letter case is folded. *)
Definition removeAccent (c : ascii) : ascii :=
let n := nat_of_ascii c in
let within lo hi := ((lo <=? n) && (n <=? hi))%nat in
if within 192%nat 197%nat then "A"%char
else if within 199%nat 199%nat then "C"%char
else if within 200%nat 203%nat then "E"%char
else if within 204%nat 207%nat then "I"%char
else if within 209%nat 209%nat then "N"%char
else if within 210%nat 214%nat || within 216%nat 216%nat then "O"%char
else if within 217%nat 220%nat then "U"%char
else if within 221%nat 221%nat then "Y"%char
else if within 224%nat 229%nat then "a"%char
else if within 231%nat 231%nat then "c"%char
else if within 232%nat 235%nat then "e"%char
else if within 236%nat 239%nat then "i"%char
else if within 241%nat 241%nat then "n"%char
else if within 242%nat 246%nat || within 248%nat 248%nat then "o"%char
else if within 249%nat 252%nat then "u"%char
else if within 253%nat 253%nat || within 255%nat 255%nat then "y"%char
else c.

Fixpoint foldCaseAndAccents (s : string) : string :=
match s with
| String c r => String (toLowerAscii (removeAccent c)) (foldCaseAndAccents r)
| EmptyString => EmptyString
end.

Definition equalIgnoringCaseAndAccents (a b : string) : bool :=
String.eqb (foldCaseAndAccents a) (foldCaseAndAccents b).

(** "Tiramisu" with an acute accent on the last letter (code unit 250). *)
Definition tiramisuAccented : string := "Tiramis" ++ String "250"%char "".

End Version.

(** ** JSON values of the platform *)

Module JSON.

(** The value [JSON.parse] returns.  An object lists its own properties in
    property order, each key once. *)
#[warnings="-register-all"] Inductive json : Type :=
| JNull
| JBool (b : bool)
| JNumber (q : QArith_base.Q)
| JString (s : string)
| JArray (elements : list json)
| JObject (properties : list (string * json)).

(** A JavaScript value read from a parsed payload: [None] is
    [undefined]. *)
Definition jsvalue : Type := option json.

Fixpoint lookup (key : string) (properties : list (string * json))
  : option json :=
  match properties with
  | (k, v) :: rest => if String.eqb k key then Some v else lookup key rest
  | [] => None
  end.

Definition typeError : string := "TypeError".

(** [v[key]] for a key that no prototype of a parsed value defines (the
    program reads 'devices', 'name', 'udid', 'state' and 'isAvailable'
    this way): reading from [null] throws, an object yields its own
    property, every other value yields [undefined]. *)
Definition getField (v : json) (key : string) : completion jsvalue :=
  match v with
  | JNull => Throw typeError
  | JObject properties => Return (lookup key properties)
  | _ => Return None
  end.

(** Truthiness, as [||] tests it. *)
Definition truthy (v : jsvalue) : bool :=
  match v with
  | None => false
  | Some JNull => false
  | Some (JBool b) => b
  | Some (JNumber q) => negb (QArith_base.Qnum q =? 0)
  | Some (JString s) => negb (String.eqb s "")
  | Some (JArray _) => true
  | Some (JObject _) => true
  end.

(** The index keys "0", "1", ... of an array or string of length [n]. *)
Definition indexKeys (n : nat) : list string :=
  map (fun i => JSString.numberToString (Z.of_nat i)) (seq 0 n).

Fixpoint characters (s : string) : list json :=
  match s with
  | String c r => JString (String c EmptyString) :: characters r
  | EmptyString => []
  end.

(** [Object.keys(v)] of a truthy value. *)
Definition objectKeys (v : json) : list string :=
  match v with
  | JObject properties => map fst properties
  | JArray elements => indexKeys (List.length elements)
  | JString s => indexKeys (String.length s)
  | _ => []
  end.

(** [v[key]] for [key] among [Object.keys(v)]. *)
Definition getOwn (v : json) (key : string) : jsvalue :=
  match v with
  | JObject properties => lookup key properties
  | JArray elements =>
      lookup key (combine (indexKeys (List.length elements)) elements)
  | JString s =>
      lookup key (combine (indexKeys (String.length s)) (characters s))
  | _ => None
  end.

(** The values a [for ... of] loop visits; a value that is not iterable
    throws. *)
Definition iterate (v : jsvalue) : completion (list json) :=
  match v with
  | Some (JArray elements) => Return elements
  | Some (JString s) => Return (characters s)
  | _ => Throw typeError
  end.

End JSON.

(** ** [IOSSimulatorDevice] ([src/common/Common.ts]) *)

Module IOSSimulatorDevice.
Import JSON.

Record IOSSimulatorDevice : Type := mkDevice
  { name : jsvalue;
    udid : jsvalue;
    state : jsvalue;
    runtimeId : string;
    isAvailable : jsvalue }.

(** [s.replace(pattern, replacement)] with a string pattern: the first
    occurrence is replaced (the replacements of the program contain no
    dollar sign). *)
Fixpoint replaceFirst (pattern replacement s : string) : string :=
  if String.prefix pattern s
  then replacement ++ String.substring (String.length pattern)
                        (String.length s - String.length pattern) s
  else match s with
       | String c r => String c (replaceFirst pattern replacement r)
       | EmptyString => EmptyString
       end.

(** [s.replace(/-/gi, '.')]: every dash becomes a dot. *)
Fixpoint replaceDashes (s : string) : string :=
  match s with
  | String c r =>
      String (if Ascii.eqb c "-" then "."%char else c) (replaceDashes r)
  | EmptyString => EmptyString
  end.

Definition runtimePrefix : string := "com.apple.CoreSimulator.SimRuntime.".

(** The constructor. *)
Definition new (name udid state : jsvalue) (runtimeId : string)
           (isAvailable : jsvalue) : IOSSimulatorDevice :=
  let runtime :=
    replaceDashes (replaceFirst "-" " " (replaceFirst runtimePrefix "" runtimeId)) in
  mkDevice name udid state runtime isAvailable.

(** [toString] of a device whose name is a string. *)
Definition toString (name : string) (d : IOSSimulatorDevice) : string :=
  name ++ ", " ++ runtimeId d.

(** *** The runtime filter

    [runtimeMatchRegex] is built by [new RegExp] from the template
    [\.SimRuntime\.(<runtimes joined by |>)]; inside a template literal the
    escape [\.] is a plain dot, so the pattern text handed to the
    constructor starts with a dot.  The entries of the allow-list are pasted
    into the pattern text as they are: the constructor reads them as pattern
    text, and it throws a SyntaxError when the whole is not a pattern. *)

(** What the program asks of a compiled pattern: whether [key.match] finds
    a match in the key (the pattern has no flag). *)
Definition RegExp : Type := string -> bool.

(** The pattern text: the template with [supportedRuntimes.join('|')]
    filled in. *)
Definition runtimePattern (supportedRuntimes : list string) : string :=
  ".SimRuntime.(" ++ String.concat "|" supportedRuntimes ++ ")".

(** The callback of [filter]: [key && key.match(runtimeMatchRegex)]. *)
Definition isSupportedKey (runtimeMatchRegex : RegExp) (key : string) : bool :=
  negb (String.eqb key "") && runtimeMatchRegex key.

(** *** [Array.prototype.sort] without a comparator

    Strings are ordered by code units.  Two strings that compare equal are
    the same string, so every sorting algorithm returns this list. *)
Fixpoint insertSorted (x : string) (l : list string) : list string :=
  match l with
  | y :: r => if String.leb x y then x :: l else y :: insertSorted x r
  | [] => [x]
  end.

Fixpoint sort (l : list string) : list string :=
  match l with
  | x :: r => insertSorted x (sort r)
  | [] => []
  end.

Definition bind {A B : Type} (c : completion A) (k : A -> completion B)
  : completion B :=
  match c with
  | Return v => k v
  | Throw e => Throw e
  end.

(** One turn of the inner loop: read the four fields, build the
    device. *)
Definition deviceOf (runtimeIdentifier : string) (device : json)
  : completion IOSSimulatorDevice :=
  bind (getField device "name") (fun n =>
  bind (getField device "udid") (fun u =>
  bind (getField device "state") (fun s =>
  bind (getField device "isAvailable") (fun a =>
  Return (new n u s runtimeIdentifier a))))).

(** The inner loop over the devices of one runtime, pushing onto
    [simDevices]. *)
Fixpoint pushDevices (runtimeIdentifier : string) (devices : list json)
         (simDevices : list IOSSimulatorDevice)
  : completion (list IOSSimulatorDevice) :=
  match devices with
  | device :: rest =>
      bind (deviceOf runtimeIdentifier device) (fun sim =>
      pushDevices runtimeIdentifier rest (simDevices ++ [sim]))
  | [] => Return simDevices
  end.

(** The outer loop over the runtimes. *)
Fixpoint pushRuntimes (runtimeDevices : json) (runtimes : list string)
         (simDevices : list IOSSimulatorDevice)
  : completion (list IOSSimulatorDevice) :=
  match runtimes with
  | runtimeIdentifier :: rest =>
      bind (iterate (getOwn runtimeDevices runtimeIdentifier)) (fun devices =>
      bind (pushDevices runtimeIdentifier devices simDevices) (fun simDevices' =>
      pushRuntimes runtimeDevices rest simDevices'))
  | [] => Return simDevices
  end.

Section ParseJSONString.
(** [new RegExp] of the platform: it throws on a text that is not a
    pattern. *)
Variable RegExp_new : string -> completion RegExp.
(** [JSON.parse] of the platform; it throws on text that is not
    well-formed JSON. *)
Variable JSON_parse : string -> completion json.

(** [IOSSimulatorDevice.parseJSONString] *)
Definition parseJSONString (jsonString : string)
           (supportedRuntimes : list string)
  : completion (list IOSSimulatorDevice) :=
  bind (RegExp_new (runtimePattern supportedRuntimes)) (fun runtimeMatchRegex =>
  bind (JSON_parse jsonString) (fun devicesJSON =>
  bind (getField devicesJSON "devices") (fun found =>
  let runtimeDevices :=
    match found with
    | Some v => if truthy found then v else JArray []
    | None => JArray []
    end in
  let runtimes :=
    filter (isSupportedKey runtimeMatchRegex) (objectKeys runtimeDevices) in
  let runtimes := List.rev (sort runtimes) in
  pushRuntimes runtimeDevices runtimes []))).
End ParseJSONString.

(** A table of sample payloads standing for the platform's parser in the
    worked examples: the texts listed parse to the values beside them and
    every other text is rejected. *)
Definition tableParser (table : list (string * json)) (text : string)
  : completion json :=
  match lookup text table with
  | Some v => Return v
  | None => Throw "SyntaxError"
  end.

(** *** The pattern of an allow-list of plain runtime names

    The syntax characters of patterns.  An entry without any of them is
    pattern text that matches itself, and the pattern of an allow-list of
    such entries is the search for: any character but a line terminator, the
    text SimRuntime, any character but a line terminator, one of the entries
    (an empty allow-list joins to the empty text and leaves the empty
    alternative). *)
Definition isSyntaxCharacter (c : ascii) : bool :=
  existsb (Ascii.eqb c)
          ["^"; "$"; "092"; "."; "*"; "+"; "?"; "("; ")"; "["; "]"; "{"; "}";
           "|"]%char.

Fixpoint plainText (s : string) : bool :=
  match s with
  | String c r => negb (isSyntaxCharacter c) && plainText r
  | EmptyString => true
  end.

Definition isLineTerminator (c : ascii) : bool :=
  Ascii.eqb c "010" || Ascii.eqb c "013".

Definition alternatives (supportedRuntimes : list string) : list string :=
  match supportedRuntimes with
  | [] => [""]
  | _ => supportedRuntimes
  end.

Definition matchHere (supportedRuntimes : list string) (s : string) : bool :=
  match s with
  | String c0 r0 =>
      negb (isLineTerminator c0) && String.prefix "SimRuntime" r0 &&
      match String.substring 10 (String.length r0 - 10) r0 with
      | String c1 r1 =>
          negb (isLineTerminator c1) &&
          existsb (fun alt => String.prefix alt r1)
                  (alternatives supportedRuntimes)
      | EmptyString => false
      end
  | EmptyString => false
  end.

(** The compiled pattern of an allow-list of plain names. *)
Fixpoint regexMatches (supportedRuntimes : list string) (key : string) : bool :=
  matchHere supportedRuntimes key ||
  match key with
  | String _ r => regexMatches supportedRuntimes r
  | EmptyString => false
  end.

(** The platform's constructor compiles the pattern of this allow-list of
    plain names to the search for its entries. *)
Definition readsLiterally (RegExp_new : string -> completion RegExp)
           (supportedRuntimes : list string) : Prop :=
  forallb plainText supportedRuntimes = true /\
  RegExp_new (runtimePattern supportedRuntimes)
  = Return (regexMatches supportedRuntimes).

(** A stand-in for the platform's constructor in the worked examples: the
    pattern of the given allow-list of plain names compiles to the search
    for its entries, and every other text is rejected. *)
Definition plainRegExp (supportedRuntimes : list string) (pattern : string)
  : completion RegExp :=
  if String.eqb pattern (runtimePattern supportedRuntimes)
  then Return (regexMatches supportedRuntimes)
  else Throw "SyntaxError".

(** *** Vocabulary of the statements *)

Fixpoint noDash (s : string) : bool :=
match s with
| String c r => negb (Ascii.eqb c "-") && noDash r
| EmptyString => true
end.

(** The own property [key] of a device object, [undefined] when the value
    is not an object. *)
Definition fieldOf (key : string) (device : json) : jsvalue :=
match device with
| JObject properties => lookup key properties
| _ => None
end.

(** The device built from one entry of a runtime's array. *)
Definition simOf (runtimeIdentifier : string) (device : json)
  : IOSSimulatorDevice :=
new (fieldOf "name" device) (fieldOf "udid" device) (fieldOf "state" device)
    runtimeIdentifier (fieldOf "isAvailable" device).

Definition isNull (v : json) : bool :=
match v with
| JNull => true
| _ => false
end.

(** A device list as the discovery command prints it: every runtime key
    holds an array and no entry of an array is [null]. *)
Definition wellFormedDevices (runtimeDevices : list (string * json)) : bool :=
forallb (fun kv =>
           match snd kv with
           | JArray devices => forallb (fun d => negb (isNull d)) devices
           | _ => false
           end) runtimeDevices.

(** The devices listed under one runtime key, built in array order. *)
Definition simsOfRuntime (runtimeDevices : list (string * json))
           (runtimeIdentifier : string) : list IOSSimulatorDevice :=
match lookup runtimeIdentifier runtimeDevices with
| Some (JArray devices) => map (simOf runtimeIdentifier) devices
| _ => []
end.

(** The order of [sort] and the order after [reverse]. *)
Definition ascending (a b : string) : Prop := String.leb a b = true.
Definition descending (a b : string) : Prop := String.leb b a = true.

(** A payload whose [devices] object is the given one. *)
Definition deviceList (runtimeDevices : list (string * json)) : json :=
JObject [("devices", JObject runtimeDevices)].

Definition allNotNull (devices : list json) : bool :=
forallb (fun d => negb (isNull d)) devices.

(** The two runtime keys and the payload of the worked example. *)
Definition key_iOS_17_5 : string := runtimePrefix ++ "iOS-17-5".
Definition key_iOS_16_4 : string := runtimePrefix ++ "iOS-16-4".

Definition sampleDevice (name udid : string) : json :=
JObject [("name", JString name); ("udid", JString udid);
         ("state", JString "Shutdown"); ("isAvailable", JBool true)].

Definition samplePayload : json :=
deviceList
  [(key_iOS_16_4, JArray [sampleDevice "iPhone 14" "A1"; sampleDevice "iPad Air" "A2"]);
   (key_iOS_17_5, JArray [sampleDevice "iPhone 15" "B1"])].

End IOSSimulatorDevice.

(** ** Promises *)

(** How a promise ends: fulfilled with a value, rejected with a reason, or
    never settled. *)
Inductive promise (A : Type) : Type :=
| Fulfilled (v : A)
| Rejected (reason : string)
| Pending.
Arguments Fulfilled {A} v.
Arguments Rejected {A} reason.
Arguments Pending {A}.

(** [Promise.all]: rejected as soon as one member is rejected (with several
    rejected members the development reports the first of the list), pending
    while a member is pending and none is rejected, fulfilled with all the
    values otherwise. *)
Fixpoint promiseAll {A : Type} (ps : list (promise A)) : promise (list A) :=
match ps with
| [] => Fulfilled []
| p :: rest =>
    match p, promiseAll rest with
    | Rejected e, _ => Rejected e
    | _, Rejected e => Rejected e
    | Pending, _ => Pending
    | _, Pending => Pending
    | Fulfilled v, Fulfilled vs => Fulfilled (v :: vs)
    end
end.

(** ** [WrappedPromise] and [BaseSetup.executeSetup]
       ([test/unit/common/AndroidMockData.ts]) *)

Module Setup.

Definition number : Type := QArith_base.Q.

(** A requirement.  Calling [checkFunction] returns the promise of the
    check, unless the call itself throws before it returns one. *)
Record Requirement : Type := mkRequirement
  { title : string;
    checkFunction : unit -> completion (promise (option string));
    fulfilledMessage : option string;
    unfulfilledMessage : option string;
    supplementalMessage : option string }.

Record SetupTestCase : Type := mkSetupTestCase
  { test_title : string;
    testResult : string;
    message : option string;
    hasPassed : bool;
    test_supplementalMessage : option string;
    test_duration : number }.

Record SetupTestResult : Type := mkSetupTestResult
  { hasMetAllRequirements : bool;
    tests : list SetupTestCase }.

Record WrappedPromiseResult : Type := mkWrappedPromiseResult
  { result_message : option string;
    status : string;
    duration : number;
    requirement : Requirement }.

Section Engine.
(** The value the performance observer has left in [stepDuration] when the
    check of a requirement settles, in seconds. *)
Variable stepDuration : Requirement -> number.
(** [this.setupMessages.getMessage] *)
Variable getMessage : string -> string.

(** [WrappedPromise]: the check is called outside any handler, so what the
    call throws is thrown by [WrappedPromise]; both handlers of the chain
    return a result object, so a settled check always fulfils the
    wrapper. *)
Definition WrappedPromise (requirement : Requirement)
  : completion (promise WrappedPromiseResult) :=
match checkFunction requirement tt with
| Throw e => Throw e
| Return (Fulfilled v) =>
    Return (Fulfilled (mkWrappedPromiseResult v "fulfilled"
                         (stepDuration requirement) requirement))
| Return (Rejected e) =>
    Return (Fulfilled (mkWrappedPromiseResult (Some e) "rejected"
                         (stepDuration requirement) requirement))
| Return Pending => Return Pending
end.

(** The [forEach] of [executeSetup] that fills [allPromises]: a call of
    [WrappedPromise] that throws ends the loop. *)
Fixpoint wrapAll (requirements : list Requirement)
  : completion (list (promise WrappedPromiseResult)) :=
match requirements with
| requirement :: rest =>
    match WrappedPromise requirement with
    | Throw e => Throw e
    | Return wrapper =>
        match wrapAll rest with
        | Throw e => Throw e
        | Return allPromises => Return (wrapper :: allPromises)
        end
    end
| [] => Return []
end.

(** The body of [results.forEach] in [executeSetup]. *)
Definition record (testResult : SetupTestResult) (result : WrappedPromiseResult)
  : SetupTestResult :=
if String.eqb (status result) "fulfilled" then
  mkSetupTestResult
    (hasMetAllRequirements testResult)
    (tests testResult ++
       [mkSetupTestCase (title (requirement result)) (getMessage "passed")
          (result_message result) true
          (supplementalMessage (requirement result)) (duration result)])
else if String.eqb (status result) "rejected" then
  mkSetupTestResult
    false
    (tests testResult ++
       [mkSetupTestCase (title (requirement result)) (getMessage "failed")
          (result_message result) false
          (supplementalMessage (requirement result)) (duration result)])
else testResult.

(** [BaseSetup.executeSetup] on [this.requirements] (the tree it prints is
    not modelled).  The function is [async]: what its body throws rejects
    the promise it returns. *)
Definition executeSetup (requirements : list Requirement)
  : promise SetupTestResult :=
match wrapAll requirements with
| Throw e => Rejected e
| Return allPromises =>
    match promiseAll allPromises with
    | Fulfilled results =>
        Fulfilled (fold_left record results (mkSetupTestResult true []))
    | Rejected e => Rejected e
    | Pending => Pending
    end
end.
End Engine.

(** *** Vocabulary of the statements *)

Definition settles (r : Requirement) : bool :=
match checkFunction r tt with
| Return (Fulfilled _) => true
| Return (Rejected _) => true
| _ => false
end.

Definition fulfils (r : Requirement) : bool :=
match checkFunction r tt with
| Return (Fulfilled _) => true
| _ => false
end.

(** The call of the check throws before it returns a promise. *)
Definition throws (r : Requirement) : bool :=
match checkFunction r tt with
| Throw _ => true
| Return _ => false
end.

(** The wrapper of a check that returned its promise. *)
Definition wrapperOf (stepDuration : Requirement -> number) (r : Requirement)
  : promise WrappedPromiseResult :=
match checkFunction r tt with
| Return (Fulfilled v) =>
    Fulfilled (mkWrappedPromiseResult v "fulfilled" (stepDuration r) r)
| Return (Rejected e) =>
    Fulfilled (mkWrappedPromiseResult (Some e) "rejected" (stepDuration r) r)
| _ => Pending
end.

(** The result object a settled check is wrapped into. *)
Definition wrapped (stepDuration : Requirement -> number) (r : Requirement)
  : WrappedPromiseResult :=
match checkFunction r tt with
| Return (Fulfilled v) =>
    mkWrappedPromiseResult v "fulfilled" (stepDuration r) r
| Return (Rejected e) =>
    mkWrappedPromiseResult (Some e) "rejected" (stepDuration r) r
| _ => mkWrappedPromiseResult None "pending" (stepDuration r) r
end.

(** The report of a promise of a report. *)
Definition reportOf (p : promise SetupTestResult) : option SetupTestResult :=
match p with
| Fulfilled report => Some report
| _ => None
end.

(** Requirements for the worked example. *)
Definition passing (t : string) : Requirement :=
mkRequirement t (fun _ => Return (Fulfilled (Some "ok"))) None None None.

Definition failing (t : string) : Requirement :=
mkRequirement t (fun _ => Return (Rejected "missing")) None None None.

(** A requirement whose check never settles, and one whose check throws
    when it is called. *)
Definition stalling (t : string) : Requirement :=
mkRequirement t (fun _ => Return Pending) None None None.

Definition throwing (t : string) : Requirement :=
mkRequirement t (fun _ => Throw "not a function") None None None.

End Setup.

(** ** Asynchronous code with a log of the calls it makes

    A launcher awaits one external operation after another.  A computation
    threads the local variable the closures of the launcher assign to and the
    log of the calls made so far; its promise says how it ended.  After a
    rejection or behind a promise that never settles nothing more runs. *)

Module Async.
Section Async.
Context {local call : Type}.

Record state : Type := mkState { variable : local; calls : list call }.

Definition Async (A : Type) : Type := state -> state * promise A.

Definition ret {A : Type} (v : A) : Async A := fun st => (st, Fulfilled v).

Definition bind {A B : Type} (c : Async A) (k : A -> Async B) : Async B :=
fun st =>
  match c st with
  | (st', Fulfilled v) => k v st'
  | (st', Rejected e) => (st', Rejected e)
  | (st', Pending) => (st', Pending)
  end.

(** An external call: it is logged and ends as the environment says. *)
Definition perform {A : Type} (c : call) (response : promise A) : Async A :=
fun st => (mkState (variable st) (calls st ++ [c]), response).

(** Reading and assigning the local variable. *)
Definition read : Async local := fun st => (st, Fulfilled (variable st)).

Definition assign (v : local) : Async unit :=
fun st => (mkState v (calls st), Fulfilled tt).

(** [promise.catch(handler)] with a handler that runs and rethrows. *)
Definition catchRethrow {A : Type} (c : Async A) (handler : Async unit)
  : Async A :=
fun st =>
  match c st with
  | (st', Rejected e) =>
      match handler st' with
      | (st'', Fulfilled _) => (st'', Rejected e)
      | (st'', Rejected e') => (st'', Rejected e')
      | (st'', Pending) => (st'', Pending)
      end
  | other => other
  end.
End Async.
Arguments state : clear implicits.
Arguments Async : clear implicits.
End Async.

Declare Scope async_scope.
Delimit Scope async_scope with async.
Notation "x <- c ;; k" := (Async.bind c (fun x => k))
  (at level 61, c at next level, right associativity) : async_scope.
Notation "c ;;; k" := (Async.bind c (fun _ => k))
  (at level 61, right associativity) : async_scope.

(** ** Preview configuration and [PreviewUtils] *)

Module Preview.

Record LaunchArgument : Type := mkLaunchArgument
  { arg_name : string; arg_value : string }.

(** [AndroidAppPreviewConfig] / [IOSAppPreviewConfig], the fields the
    launchers read. *)
Record AppPreviewConfig : Type := mkAppPreviewConfig
  { activity : option string;
    launch_arguments : option (list LaunchArgument) }.

(** The members of [PreviewUtils] the launchers use; the class is not among
    the sources, so the launchers take them as given. *)
Record PreviewUtils : Type := mkPreviewUtils
  { useLwcServerForPreviewing : string -> option AppPreviewConfig -> bool;
    isTargetingBrowser : string -> bool;
    prefixRouteIfNeeded : string -> string;
    COMPONENT_NAME_ARG_PREFIX : string;
    PROJECT_DIR_ARG_PREFIX : string;
    SERVER_ADDRESS_PREFIX : string;
    SERVER_PORT_PREFIX : string }.

(** A value of type [string | undefined] inside a template literal. *)
Definition interpolate (v : option string) : string :=
match v with
| Some s => s
| None => "undefined"
end.

(** Truthiness of a [string | undefined]. *)
Definition truthyString (v : option string) : bool :=
match v with
| Some s => negb (String.eqb s "")
| None => false
end.

End Preview.

(** ** [AndroidLauncher] ([src/common/AndroidLauncher.ts]) *)

Module AndroidLauncher.
Import Async Preview.
Local Open Scope async_scope.

(** The result of [AndroidUtils.findRequiredEmulatorImages], the fields
    read. *)
Record EmulatorPackage : Type := mkEmulatorPackage
  { platformEmulatorImage : option string;
    platformAPI : string;
    abi : string }.

(** The calls on [AndroidUtils] and [CommonUtils]. *)
Inductive call : Type :=
| FindRequiredEmulatorImages
| GetSupportedDevices
| GetNextAndroidAdbPort
| StartCliAction (action status : string)
| StopCliAction (message : option string)
| HasEmulator (emuName : string)
| CreateNewVirtualDevice (emuName emuImage androidApi : string)
                         (device : option string) (abi : string)
| StartEmulator (emuName : string) (port : Z)
| PollDeviceStatus (port : Z)
| LaunchURLIntent (url : string) (port : Z)
| LaunchNativeApp (compName projectDir : string)
                  (appBundlePath : option string) (targetApp : string)
                  (targetAppArguments : list LaunchArgument)
                  (launchActivity : string) (emulatorPort : Z)
                  (address port : option string).

(** How the operations of [AndroidUtils] end. *)
Record AndroidUtils : Type := mkAndroidUtils
  { findRequiredEmulatorImages : promise EmulatorPackage;
    getSupportedDevices : promise (list string);
    getNextAndroidAdbPort : promise Z;
    hasEmulator : string -> promise bool;
    createNewVirtualDevice :
      string -> string -> string -> option string -> string -> promise unit;
    startEmulator : string -> Z -> promise Z;
    pollDeviceStatus : Z -> promise unit;
    launchURLIntent : string -> Z -> promise unit;
    launchNativeApp :
      string -> string -> option string -> string -> list LaunchArgument ->
      string -> Z -> option string -> option string -> promise unit }.

Section Launcher.
Variable utils : AndroidUtils.
Variable preview : PreviewUtils.

(** The local variable is [emulatorPort]. *)
Definition Launch (A : Type) : Type := Async Z call A.

Definition startCliAction (action status : string) : Launch unit :=
perform (StartCliAction action status) (Fulfilled tt).

Definition stopCliAction (message : option string) : Launch unit :=
perform (StopCliAction message) (Fulfilled tt).

(** The callback that launches the browser or the native app. *)
Definition launchStep (compName projectDir : string)
           (appBundlePath : option string) (targetApp : string)
           (appConfig : option AppPreviewConfig) (serverPort : string)
  : Launch unit :=
let useServer := useLwcServerForPreviewing preview targetApp appConfig in
let address := if useServer then Some "http://10.0.2.2" else None in
let port := if useServer then Some serverPort else None in
if isTargetingBrowser preview targetApp then
  let compPath := prefixRouteIfNeeded preview compName in
  let url :=
    interpolate address ++ ":" ++ interpolate port ++ "/lwc/preview/"
      ++ compPath in
  emulatorPort <- read ;;
  perform (LaunchURLIntent url emulatorPort)
          (launchURLIntent utils url emulatorPort)
else
  stopCliAction (Some ("Launching App " ++ targetApp)) ;;;
  let launchActivity :=
    match appConfig with
    | Some config =>
        match activity config with
        | Some a => a
        | None => ""
        end
    | None => ""
    end in
  let targetAppArguments :=
    match appConfig with
    | Some config =>
        match launch_arguments config with
        | Some l => l
        | None => []
        end
    | None => []
    end in
  emulatorPort <- read ;;
  perform (LaunchNativeApp compName projectDir appBundlePath targetApp
             targetAppArguments launchActivity emulatorPort address port)
          (launchNativeApp utils compName projectDir appBundlePath targetApp
             targetAppArguments launchActivity emulatorPort address port).

(** [AndroidLauncher.launchPreview] of a launcher built with
    [emulatorName]. *)
Definition launchPreview (emulatorName : string)
           (compName projectDir : string) (appBundlePath : option string)
           (targetApp : string) (appConfig : option AppPreviewConfig)
           (serverPort : string) : Launch unit :=
preferredPack <- perform FindRequiredEmulatorImages
                   (findRequiredEmulatorImages utils) ;;
let emuImage :=
  match platformEmulatorImage preferredPack with
  | Some image => if String.eqb image "" then "default" else image
  | None => "default"
  end in
let androidApi := platformAPI preferredPack in
let abi := abi preferredPack in
devices <- perform GetSupportedDevices (getSupportedDevices utils) ;;
let device := hd_error devices in
allocated <- perform GetNextAndroidAdbPort (getNextAndroidAdbPort utils) ;;
assign allocated ;;;
let emuName := emulatorName in
startCliAction "Launching" ("Searching for " ++ emuName) ;;;
catchRethrow
  (result <- perform (HasEmulator emuName) (hasEmulator utils emuName) ;;
   (if negb result then
      startCliAction "Launching" ("Creating device " ++ emuName) ;;;
      perform (CreateNewVirtualDevice emuName emuImage androidApi device abi)
              (createNewVirtualDevice utils emuName emuImage androidApi
                 device abi)
    else
      startCliAction "Launching" ("Found device " ++ emuName) ;;;
      ret tt) ;;;
   startCliAction "Launching" ("Starting device " ++ emuName) ;;;
   emulatorPort <- read ;;
   actualPort <- perform (StartEmulator emuName emulatorPort)
                   (startEmulator utils emuName emulatorPort) ;;
   assign actualPort ;;;
   startCliAction "Launching" ("Waiting for device " ++ emuName ++ " to boot") ;;;
   emulatorPort <- read ;;
   perform (PollDeviceStatus emulatorPort)
           (pollDeviceStatus utils emulatorPort) ;;;
   launchStep compName projectDir appBundlePath targetApp appConfig
              serverPort ;;;
   stopCliAction None ;;;
   ret tt)
  (stopCliAction (Some "Error encountered during launch")).

End Launcher.

(** A run of [launchPreview] from an empty log; [emulatorPort] is assigned
    before it is first read, so its initial value is immaterial. *)
Definition run (utils : AndroidUtils) (preview : PreviewUtils)
           (emulatorName compName projectDir : string)
           (appBundlePath : option string) (targetApp : string)
           (appConfig : option AppPreviewConfig) (serverPort : string)
  : state Z call * promise unit :=
launchPreview utils preview emulatorName compName projectDir appBundlePath
              targetApp appConfig serverPort (mkState 0 []).

(** The emulator port a call is made against. *)
Definition portOf (c : call) : option Z :=
match c with
| PollDeviceStatus p => Some p
| LaunchURLIntent _ p => Some p
| LaunchNativeApp _ _ _ _ _ _ p _ _ => Some p
| _ => None
end.

End AndroidLauncher.

(** ** [IOSLauncher] ([src/common/Common.ts]) *)

Module IOSLauncher.
Import Async Preview.
Local Open Scope async_scope.

(** The calls on [IOSUtils] and [CommonUtils]. *)
Inductive call : Type :=
| GetSupportedDevices
| GetSupportedRuntimes
| GetSimulator (simulatorName : string)
| StartCliAction (action status : string)
| UpdateCliAction (status : string)
| StopCliAction (message : option string)
| CreateNewDevice (simulatorName : string) (device runtime : option string)
| BootDevice (udid : string) (waitUntilBooted : bool)
| LaunchSimulatorApp
| LaunchURLInBootedSimulator (udid url : string)
| LaunchAppInBootedSimulator (udid : string) (appBundlePath : option string)
                             (targetApp : string)
                             (targetAppArguments : list LaunchArgument).

(** How the operations of [IOSUtils] end.  [getSimulator] is given by the
    [udid] of the simulator it finds: [None] stands for no simulator or no
    [udid] ([currentSimulator?.udid] is [undefined]). *)
Record IOSUtils : Type := mkIOSUtils
  { getSupportedDevices : promise (list string);
    getSupportedRuntimes : promise (list string);
    getSimulator : string -> promise (option string);
    createNewDevice : string -> option string -> option string -> promise string;
    bootDevice : string -> bool -> promise unit;
    launchSimulatorApp : promise unit;
    launchURLInBootedSimulator : string -> string -> promise unit;
    launchAppInBootedSimulator :
      string -> option string -> string -> list LaunchArgument ->
      promise unit }.

Section Launcher.
Variable utils : IOSUtils.
Variable preview : PreviewUtils.
(** [messages.getMessage] *)
Variable getMessage : string -> list string -> string.

(** The local variable is [deviceUDID]. *)
Definition Launch (A : Type) : Type := Async string call A.

Definition startCliAction (action status : string) : Launch unit :=
perform (StartCliAction action status) (Fulfilled tt).

Definition updateCliAction (status : string) : Launch unit :=
perform (UpdateCliAction status) (Fulfilled tt).

Definition stopCliAction (message : option string) : Launch unit :=
perform (StopCliAction message) (Fulfilled tt).

(** The callback that launches the browser or the native app (it pushes the
    extra arguments onto the array of [appConfig]; the array is read here and
    not written back). *)
Definition launchStep (compName projectDir : string)
           (appBundlePath : option string) (targetApp : string)
           (appConfig : option AppPreviewConfig) (serverPort : string)
           (targetingLwrServer : bool) : Launch unit :=
let useServer := useLwcServerForPreviewing preview targetApp appConfig in
let address := if useServer then Some "http://localhost" else None in
let port := if useServer then Some serverPort else None in
if isTargetingBrowser preview targetApp then
  let url :=
    if targetingLwrServer then
      interpolate address ++ ":" ++ interpolate port
    else
      let compPath := prefixRouteIfNeeded preview compName in
      interpolate address ++ ":" ++ interpolate port ++ "/lwc/preview/"
        ++ compPath in
  updateCliAction (getMessage "launchBrowserStatus" [url]) ;;;
  deviceUDID <- read ;;
  perform (LaunchURLInBootedSimulator deviceUDID url)
          (launchURLInBootedSimulator utils deviceUDID url)
else
  updateCliAction (getMessage "launchAppStatus" [targetApp]) ;;;
  let configured :=
    match appConfig with
    | Some config =>
        match launch_arguments config with
        | Some l => l
        | None => []
        end
    | None => []
    end in
  let targetAppArguments :=
    (configured
       ++ [mkLaunchArgument (COMPONENT_NAME_ARG_PREFIX preview) compName]
       ++ [mkLaunchArgument (PROJECT_DIR_ARG_PREFIX preview) projectDir]
       ++ (if truthyString address
           then [mkLaunchArgument (SERVER_ADDRESS_PREFIX preview)
                                  (interpolate address)]
           else [])
       ++ (if truthyString port
           then [mkLaunchArgument (SERVER_PORT_PREFIX preview)
                                  (interpolate port)]
           else []))%list in
  deviceUDID <- read ;;
  perform (LaunchAppInBootedSimulator deviceUDID appBundlePath targetApp
             targetAppArguments)
          (launchAppInBootedSimulator utils deviceUDID appBundlePath targetApp
             targetAppArguments).

(** [IOSLauncher.launchPreview] of a launcher built with
    [simulatorName]. *)
Definition launchPreview (simulatorName : string)
           (compName projectDir : string) (appBundlePath : option string)
           (targetApp : string) (appConfig : option AppPreviewConfig)
           (serverPort : string) (targetingLwrServer : bool) : Launch unit :=
availableDevices <- perform GetSupportedDevices (getSupportedDevices utils) ;;
supportedRuntimes <- perform GetSupportedRuntimes (getSupportedRuntimes utils) ;;
currentSimulatorUDID <- perform (GetSimulator simulatorName)
                          (getSimulator utils simulatorName) ;;
assign "" ;;;
startCliAction (getMessage "startPreviewAction" [])
               (getMessage "searchForDeviceStatus" [simulatorName]) ;;;
(if negb (truthyString currentSimulatorUDID)
    || (String.length (interpolate currentSimulatorUDID) =? 0)%nat
 then
   updateCliAction (getMessage "createDeviceStatus" [simulatorName]) ;;;
   created <- perform (CreateNewDevice simulatorName
                         (hd_error availableDevices)
                         (hd_error supportedRuntimes))
                (createNewDevice utils simulatorName
                   (hd_error availableDevices) (hd_error supportedRuntimes)) ;;
   assign created
 else
   updateCliAction (getMessage "foundDeviceStatus" [simulatorName]) ;;;
   assign (interpolate currentSimulatorUDID)) ;;;
deviceUDID <- read ;;
updateCliAction
  (getMessage "startDeviceStatus"
     [simulatorName ++ " (" ++ deviceUDID ++ ")"]) ;;;
catchRethrow
  (perform (BootDevice deviceUDID true) (bootDevice utils deviceUDID true) ;;;
   perform LaunchSimulatorApp (launchSimulatorApp utils) ;;;
   launchStep compName projectDir appBundlePath targetApp appConfig
              serverPort targetingLwrServer ;;;
   stopCliAction None ;;;
   ret tt)
  (stopCliAction (Some (getMessage "genericErrorStatus" []))).

End Launcher.

(** A run of [launchPreview] from an empty log. *)
Definition run (utils : IOSUtils) (preview : PreviewUtils)
           (getMessage : string -> list string -> string)
           (simulatorName compName projectDir : string)
           (appBundlePath : option string) (targetApp : string)
           (appConfig : option AppPreviewConfig) (serverPort : string)
           (targetingLwrServer : bool)
  : state string call * promise unit :=
launchPreview utils preview getMessage simulatorName compName projectDir
              appBundlePath targetApp appConfig serverPort targetingLwrServer
              (mkState "" []).

End IOSLauncher.

(** ** Environments for the worked examples *)

Module Samples.
Import Preview.

(** Stand-ins for [PreviewUtils]: the target "browser" is the browser and is
    previewed through the server, a component name gets the route prefix
    "c/". *)
Definition preview : PreviewUtils :=
mkPreviewUtils
  (fun targetApp _ => String.eqb targetApp "browser")
  (fun targetApp => String.eqb targetApp "browser")
  (fun compName => "c/" ++ compName)
  "componentname" "projectdir" "serveraddress" "serverport".

(** An Android host on which every operation succeeds; port 5572 is
    allocated and the emulator reports 5574 once started. *)
Definition androidUtils : AndroidLauncher.AndroidUtils :=
AndroidLauncher.mkAndroidUtils
  (Fulfilled (AndroidLauncher.mkEmulatorPackage (Some "google_apis") "30" "x86_64"))
  (Fulfilled ["pixel"; "pixel_xl"])
  (Fulfilled 5572)
  (fun _ => Fulfilled true)
  (fun _ _ _ _ _ => Fulfilled tt)
  (fun _ requested => Fulfilled (requested + 2))
  (fun _ => Fulfilled tt)
  (fun _ _ => Fulfilled tt)
  (fun _ _ _ _ _ _ _ _ _ => Fulfilled tt).

(** An iOS host on which every operation succeeds and the simulator
    exists. *)
Definition iosUtils : IOSLauncher.IOSUtils :=
IOSLauncher.mkIOSUtils
  (Fulfilled ["iPhone-15"])
  (Fulfilled ["iOS-17-5"])
  (fun _ => Fulfilled (Some "UDID-1"))
  (fun _ _ _ => Fulfilled "UDID-2")
  (fun _ _ => Fulfilled tt)
  (Fulfilled tt)
  (fun _ _ => Fulfilled tt)
  (fun _ _ _ _ => Fulfilled tt).

Definition getMessage (key : string) (_ : list string) : string := key.

End Samples.

(** ** Vocabulary for further properties of [Version] *)

Module VersionSpec.
Import JSString Version.

(** The completion with the sign of a returned number flipped. *)
Definition negate (c : completion Z) : completion Z :=
match c with
| Return n => Return (- n)
| Throw e => Throw e
end.

(** The texts [versionRegex] matches, with the groups it captures: a
    numeral, two numerals around a separator, three numerals with the same
    separator twice, or a zero followed at once by a numeral. *)
Inductive Accepted : string -> Groups -> Prop :=
| AcceptedMajor (x : string) :
    isNumeral x = true ->
    Accepted x (mkGroups x None None None)
| AcceptedMinor (x y : string) (c : ascii) :
    isNumeral x = true -> isNumeral y = true -> isSeparator c = true ->
    Accepted (x ++ String c y) (mkGroups x (Some c) (Some y) None)
| AcceptedPatch (x y z : string) (c : ascii) :
    isNumeral x = true -> isNumeral y = true -> isNumeral z = true ->
    isSeparator c = true ->
    Accepted (x ++ String c (y ++ String c z))
             (mkGroups x (Some c) (Some y) (Some z))
| AcceptedZeroThen (y : string) :
    isNumeral y = true ->
    Accepted ("0" ++ y) (mkGroups "0" None None (Some y)).

(** The separator characters of a string, in order. *)
Fixpoint separatorsOf (s : string) : list ascii :=
match s with
| String c r => if isSeparator c then c :: separatorsOf r else separatorsOf r
| EmptyString => []
end.

Fixpoint allWhiteSpace (s : string) : bool :=
match s with
| String c r => isWhiteSpace c && allWhiteSpace r
| EmptyString => true
end.

(** The version [from] builds from the groups of a match. *)
Definition versionOfGroups (g : Groups) : Version.Version :=
mkVersion (parseInt10 (Major g))
          (match Minor g with Some m => parseInt10 m | None => 0 end)
          (match Patch g with Some p => parseInt10 p | None => 0 end).

(** The numbers of the groups lie in the range in which [parseInt] is
    exact. *)
Definition safeGroups (g : Groups) : bool :=
isSafeInteger (parseInt10 (Major g)) &&
match Minor g with Some m => isSafeInteger (parseInt10 m) | None => true end &&
match Patch g with Some p => isSafeInteger (parseInt10 p) | None => true end.

(** What an argument of [compare] parses to. *)
Definition parsed (v : VersionOrString) : option Version.Version :=
match v with
| OfString s => from s
| OfVersion v => Some v
end.

(** The weight [compare] gives a version. *)
Definition weight (v : Version.Version) : Z :=
major v * 100 + minor v * 10 + patch v.

End VersionSpec.

(** ** [MapUtils] and [SetUtils] ([src/common/Common.ts]) *)

Module Collections.
Section Keyed.
Context {K V : Type}.
(** Equality of keys as a [Map] or [Set] tests it. *)
Variable keyEqb : K -> K -> bool.

(** A [Map]: its entries in insertion order, each key once. *)
Definition JSMap : Type := list (K * V).

(** [Map.prototype.set]: the value of a key already present is replaced in
    place, a new key is appended. *)
Fixpoint mapSet (m : JSMap) (key : K) (value : V) : JSMap :=
match m with
| (k, v) :: rest =>
    if keyEqb k key then (k, value) :: rest
    else (k, v) :: mapSet rest key value
| [] => [(key, value)]
end.

(** [MapUtils.filter]; [None] is a [null] or [undefined] map. *)
Definition mapFilter (map : option JSMap) (predicate : K -> V -> bool)
  : JSMap :=
let aMap : JSMap := [] in
match map with
| None => aMap
| Some m =>
    let entries := m in
    fold_left (fun aMap entry =>
                 if predicate (fst entry) (snd entry)
                 then mapSet aMap (fst entry) (snd entry)
                 else aMap)
              entries aMap
end.

(** A [Set]: its values in insertion order, each once. *)
Definition JSSet : Type := list K.

(** [Set.prototype.add] *)
Fixpoint setAdd (s : JSSet) (value : K) : JSSet :=
match s with
| x :: rest => if keyEqb x value then s else x :: setAdd rest value
| [] => [value]
end.

(** [SetUtils.filter] *)
Definition setFilter (set : option JSSet) (predicate : K -> bool) : JSSet :=
let aSet : JSSet := [] in
match set with
| None => aSet
| Some s =>
    let entries := map (fun v => (v, v)) s in
    fold_left (fun aSet entry =>
                 if predicate (fst entry) then setAdd aSet (fst entry)
                 else aSet)
              entries aSet
end.
End Keyed.
End Collections.

(** ** [CommandLineUtils] ([src/common/Common.ts]) *)

Module CommandLineUtils.
Import JSString.

Definition IOS_FLAG : string := "ios".
Definition ANDROID_FLAG : string := "android".
Definition DESKTOP_FLAG : string := "desktop".

(** [String.prototype.toLowerCase] on code units below 256: the letters A-Z
    and the capital letters of Latin-1. *)
Definition lowerCodeUnit (c : ascii) : ascii :=
let n := nat_of_ascii c in
if ((65 <=? n) && (n <=? 90))%nat then ascii_of_nat (n + 32)
else if ((192 <=? n) && (n <=? 222) && negb (n =? 215))%nat
     then ascii_of_nat (n + 32)
     else c.

Fixpoint toLowerCaseLatin1 (s : string) : string :=
match s with
| String c r => String (lowerCodeUnit c) (toLowerCaseLatin1 r)
| EmptyString => EmptyString
end.

(** [input ?? ''] *)
Definition orEmpty (input : option string) : string :=
match input with
| Some s => s
| None => ""
end.

Definition platformFlagIsIOS (input : option string) : bool :=
String.eqb (toLowerCaseLatin1 (trim (orEmpty input))) IOS_FLAG.

Definition platformFlagIsAndroid (input : option string) : bool :=
String.eqb (toLowerCaseLatin1 (trim (orEmpty input))) ANDROID_FLAG.

Definition platformFlagIsDesktop (input : option string) : bool :=
String.eqb (toLowerCaseLatin1 (trim (orEmpty input))) DESKTOP_FLAG.

(** [resolveFlag]; [None] is a flag that is [undefined] or [null]. *)
Definition resolveFlag (flag : option string) (defaultValue : string)
  : string :=
match flag with
| Some resolvedFlag =>
    if negb (String.eqb resolvedFlag "")
       && (0 <? String.length (trim resolvedFlag))%nat
    then resolvedFlag
    else defaultValue
| None => defaultValue
end.

Definition platformFlagIsValid (platformFlag : option string)
           (includeDesktop : bool) : bool :=
platformFlagIsIOS platformFlag || platformFlagIsAndroid platformFlag
|| (includeDesktop && platformFlagIsDesktop platformFlag).

Definition validateApiLevelFlag (flag : string) : bool :=
(0 <? String.length (trim flag))%nat.

Definition validatePlatformFlagMobileOnly (flag : string) : bool :=
platformFlagIsValid (Some flag) false.

Definition validatePlatformFlagIncludingDesktop (flag : string) : bool :=
platformFlagIsValid (Some flag) true.

(** A text with nothing but white space. *)
Definition isBlank (s : string) : bool := String.eqb (trim s) "".

End CommandLineUtils.

(** ** Vocabulary for further properties of the simulator list parser *)

Module ParserSpec.
Import JSON IOSSimulatorDevice.

(** A value the inner loop can walk without throwing: an array with no
    [null] entry, or a string. *)
Definition usable (v : jsvalue) : bool :=
match v with
| Some (JArray devices) => allNotNull devices
| Some (JString _) => true
| _ => false
end.

(** The devices built from the value under one runtime key. *)
Definition devicesUnder (runtimeDevices : list (string * json))
           (runtimeIdentifier : string) : list IOSSimulatorDevice :=
match lookup runtimeIdentifier runtimeDevices with
| Some (JArray devices) => map (simOf runtimeIdentifier) devices
| Some (JString s) => map (simOf runtimeIdentifier) (characters s)
| _ => []
end.

(** The runtime keys of a [devices] object that pass the filter. *)
Definition supportedKeys (runtimeMatchRegex : RegExp)
           (runtimeDevices : list (string * json)) : list string :=
filter (isSupportedKey runtimeMatchRegex) (map fst runtimeDevices).

(** Sample [devices] objects: a supported runtime with a [null] entry, and
    a well-formed supported runtime beside a runtime outside the allow-list
    whose value is [null]. *)
Definition tvKey : string := runtimePrefix ++ "tvOS-17-5".

Definition devicesWithNullEntry : list (string * json) :=
[(key_iOS_17_5, JArray [JNull]); (tvKey, JNull)].

Definition devicesWithStrayRuntime : list (string * json) :=
[(key_iOS_17_5, JArray [sampleDevice "iPhone 15" "B1"]); (tvKey, JNull)].

Definition sampleParser : string -> completion json :=
tableParser [("p", deviceList devicesWithNullEntry);
             ("q", deviceList devicesWithStrayRuntime)].

(** The value the parser reads as [devices]. *)
Definition devicesOf (payload : json) : jsvalue :=
match getField payload "devices" with
| Return v => v
| Throw _ => None
end.

Definition isObject (v : jsvalue) : bool :=
match v with
| Some (JObject _) => true
| _ => false
end.

(** A value whose own keys are the index keys "0", "1", ...: an array or a
    string that is not empty. *)
Definition hasIndexKeys (v : jsvalue) : bool :=
match v with
| Some (JArray (_ :: _)) => true
| Some (JString (String _ _)) => true
| _ => false
end.

End ParserSpec.

(** ** [BaseSetup.addRequirements] and the server plugin requirement
       ([test/unit/common/AndroidMockData.ts]) *)

Module SetupMore.
Import Setup Async.

(** [addRequirements]; [None] is a falsy argument. *)
Definition addRequirements (requirements : list Requirement)
           (reqs : option (list Requirement)) : list Requirement :=
match reqs with
| Some reqs => (requirements ++ reqs)%list
| None => requirements
end.

(** The test case [executeSetup] records for a requirement whose check has
    settled. *)
Definition caseOf (stepDuration : Requirement -> number)
           (getMessage : string -> string) (r : Requirement)
  : SetupTestCase :=
match checkFunction r tt with
| Return (Fulfilled v) =>
    mkSetupTestCase (title r) (getMessage "passed") v true
                    (supplementalMessage r) (stepDuration r)
| Return (Rejected e) =>
    mkSetupTestCase (title r) (getMessage "failed") (Some e) false
                    (supplementalMessage r) (stepDuration r)
| _ =>
    mkSetupTestCase (title r) (getMessage "failed") None false
                    (supplementalMessage r) (stepDuration r)
end.

(** Two reports put together: the test cases of the first, then those of
    the second; all requirements are met when they are met in both. *)
Definition combine (a b : promise SetupTestResult) : promise SetupTestResult :=
match a, b with
| Fulfilled ra, Fulfilled rb =>
    Fulfilled (mkSetupTestResult
                 (hasMetAllRequirements ra && hasMetAllRequirements rb)
                 (tests ra ++ tests rb))
| Rejected e, _ => Rejected e
| _, Rejected e => Rejected e
| _, _ => Pending
end.

(** *** [LWCServerPluginInstalledRequirement.checkFunction] *)

(** The calls on [CommonUtils] and on the logger. *)
Inductive call : Type :=
| IsLwcServerPluginInstalled
| LoggerInfo (message : string)
| LoggerError (message : string)
| ExecuteCommandSync (command : string) (stdioOptions : list string).

Record CommonUtils : Type := mkCommonUtils
  { isLwcServerPluginInstalled : promise unit;
    executeCommandSync : string -> list string -> completion string }.

Definition installCommand : string :=
  "sfdx plugins:install @salesforce/lwc-dev-server".

Section PluginCheck.
Variable utils : CommonUtils.
Variable fulfilledMessage unfulfilledMessage : string.

Definition info (message : string) : Async unit call unit :=
perform (LoggerInfo message) (Fulfilled tt).

(** The body of the [catch] handler: install the plugin, reject when the
    command throws. *)
Definition install : Async unit call string :=
fun st =>
  let (st1, _) := info "sfdx server plugin was not detected." st in
  let command := installCommand in
  let (st2, _) :=
    info ("Installing sfdx server plugin.... " ++ command) st1 in
  let stdio := ["inherit"; "pipe"; "inherit"] in
  let st3 := mkState (variable st2)
                     (calls st2 ++ [ExecuteCommandSync command stdio]) in
  match executeCommandSync utils command stdio with
  | Return _ =>
      let (st4, _) := info "sfdx server plugin installed." st3 in
      (st4, Fulfilled fulfilledMessage)
  | Throw error =>
      (mkState (variable st3)
               (calls st3
                  ++ [LoggerError ("sfdx server plugin installion failed. "
                                     ++ error)]),
       Rejected unfulfilledMessage)
  end.

Definition pluginCheck : Async unit call string :=
fun st =>
  match perform IsLwcServerPluginInstalled
                (isLwcServerPluginInstalled utils) st with
  | (st1, Fulfilled _) =>
      let (st2, _) := info "sfdx server plugin detected." st1 in
      (st2, Fulfilled fulfilledMessage)
  | (st1, Rejected _) => install st1
  | (st1, Pending) => (st1, Pending)
  end.
End PluginCheck.

(** A run of the check from an empty log. *)
Definition runPluginCheck (utils : CommonUtils)
           (fulfilledMessage unfulfilledMessage : string)
  : state unit call * promise string :=
pluginCheck utils fulfilledMessage unfulfilledMessage (mkState tt []).

Definition installStdio : list string := ["inherit"; "pipe"; "inherit"].

(** A host without the plugin on which installing it fails. *)
Definition hostWithoutPlugin : CommonUtils :=
mkCommonUtils (Rejected "not installed") (fun _ _ => Throw "exit code 1").

(** A host without the plugin on which installing it succeeds. *)
Definition hostInstallingPlugin : CommonUtils :=
mkCommonUtils (Rejected "not installed") (fun _ _ => Return "installed").

Definition isInstallCall (c : call) : bool :=
match c with
| ExecuteCommandSync _ _ => true
| _ => false
end.

End SetupMore.

(** ** Vocabulary for further properties of the launchers *)

Module LauncherSpec.
Import Preview.

(** The image [launchPreview] creates a device with. *)
Definition imageOf (pack : AndroidLauncher.EmulatorPackage) : string :=
match AndroidLauncher.platformEmulatorImage pack with
| Some image => if String.eqb image "" then "default" else image
| None => "default"
end.

(** [appConfig.activity] or the empty string. *)
Definition activityOf (appConfig : option AppPreviewConfig) : string :=
match appConfig with
| Some config => match activity config with Some a => a | None => "" end
| None => ""
end.

(** [appConfig.launch_arguments] or the empty list. *)
Definition argumentsOf (appConfig : option AppPreviewConfig)
  : list LaunchArgument :=
match appConfig with
| Some config => match launch_arguments config with Some l => l | None => [] end
| None => []
end.

Definition androidError : string := "Error encountered during launch".

(** The simulator an iOS run works on: the one found, when it has a
    non-empty [udid]. *)
Definition foundUDID (found : option string) : option string :=
match found with
| Some udid => if String.eqb udid "" then None else Some udid
| None => None
end.

(** The [udid] an iOS call is made against. *)
Definition udidOf (c : IOSLauncher.call) : option string :=
match c with
| IOSLauncher.BootDevice udid _ => Some udid
| IOSLauncher.LaunchURLInBootedSimulator udid _ => Some udid
| IOSLauncher.LaunchAppInBootedSimulator udid _ _ _ => Some udid
| _ => None
end.

Definition isStop (c : IOSLauncher.call) : bool :=
match c with
| IOSLauncher.StopCliAction _ => true
| _ => false
end.

(** An Android host with no emulator yet and no preferred image; every
    operation succeeds. *)
Definition freshAndroidUtils : AndroidLauncher.AndroidUtils :=
AndroidLauncher.mkAndroidUtils
  (Fulfilled (AndroidLauncher.mkEmulatorPackage None "30" "x86_64"))
  (Fulfilled ["pixel"; "pixel_xl"])
  (Fulfilled 5572)
  (fun _ => Fulfilled false)
  (fun _ _ _ _ _ => Fulfilled tt)
  (fun _ requested => Fulfilled requested)
  (fun _ => Fulfilled tt)
  (fun _ _ => Fulfilled tt)
  (fun _ _ _ _ _ _ _ _ _ => Fulfilled tt).

(** An Android host whose emulator never finishes booting. *)
Definition stuckAndroidUtils : AndroidLauncher.AndroidUtils :=
AndroidLauncher.mkAndroidUtils
  (Fulfilled (AndroidLauncher.mkEmulatorPackage None "30" "x86_64"))
  (Fulfilled ["pixel"])
  (Fulfilled 5572)
  (fun _ => Fulfilled true)
  (fun _ _ _ _ _ => Fulfilled tt)
  (fun _ requested => Fulfilled requested)
  (fun _ => Rejected "Timeout waiting for emulator to boot.")
  (fun _ _ => Fulfilled tt)
  (fun _ _ _ _ _ _ _ _ _ => Fulfilled tt).

(** An iOS host without the simulator, on which creating it fails. *)
Definition brokenIOSUtils : IOSLauncher.IOSUtils :=
IOSLauncher.mkIOSUtils
  (Fulfilled ["iPhone-15"])
  (Fulfilled ["iOS-17-5"])
  (fun _ => Fulfilled None)
  (fun _ _ _ => Rejected "Unable to create device")
  (fun _ _ => Fulfilled tt)
  (Fulfilled tt)
  (fun _ _ => Fulfilled tt)
  (fun _ _ _ _ => Fulfilled tt).

(** An iOS host without the simulator, on which creating it succeeds. *)
Definition freshIOSUtils : IOSLauncher.IOSUtils :=
IOSLauncher.mkIOSUtils
  (Fulfilled ["iPhone-15"; "iPhone-14"])
  (Fulfilled ["iOS-17-5"; "iOS-16-4"])
  (fun _ => Fulfilled None)
  (fun _ _ _ => Fulfilled "UDID-2")
  (fun _ _ => Fulfilled tt)
  (Fulfilled tt)
  (fun _ _ => Fulfilled tt)
  (fun _ _ _ _ => Fulfilled tt).

(** Stand-ins for [PreviewUtils] with a browser target that is not
    previewed through the server. *)
Definition previewWithoutServer : PreviewUtils :=
mkPreviewUtils
  (fun _ _ => false)
  (fun targetApp => String.eqb targetApp "browser")
  (fun compName => "c/" ++ compName)
  "componentname" "projectdir" "serveraddress" "serverport".

(** The server arguments of the iOS native launch: the address, and the
    port unless it is the empty string. *)
Definition serverArguments (preview : PreviewUtils) (useServer : bool)
           (serverPort : string) : list LaunchArgument :=
if useServer then
  mkLaunchArgument (SERVER_ADDRESS_PREFIX preview) "http://localhost"
  :: (if String.eqb serverPort "" then []
      else [mkLaunchArgument (SERVER_PORT_PREFIX preview) serverPort])
else [].

(** The arguments the iOS launcher hands to the native app. *)
Definition iosArguments (preview : PreviewUtils) (targetApp : string)
           (appConfig : option AppPreviewConfig)
           (compName projectDir serverPort : string) : list LaunchArgument :=
(argumentsOf appConfig
   ++ [mkLaunchArgument (COMPONENT_NAME_ARG_PREFIX preview) compName;
       mkLaunchArgument (PROJECT_DIR_ARG_PREFIX preview) projectDir]
   ++ serverArguments preview
        (useLwcServerForPreviewing preview targetApp appConfig) serverPort)%list.

End LauncherSpec.

(* ================================================================== *)
(** * Properties *)

(** The examples listed in the comment of [Version.from], a padded input, a
    codename, and a zero followed by a digit. *)
Example from_samples :
  Version.from "1.0.0" = Some (Version.mkVersion 1 0 0) /\
  Version.from "2-1-2" = Some (Version.mkVersion 2 1 2) /\
  Version.from "3.1-4" = None /\
  Version.from "4.5" = Some (Version.mkVersion 4 5 0) /\
  Version.from "6" = Some (Version.mkVersion 6 0 0) /\
  Version.from "7..8" = None /\
  Version.from "001.002" = None /\
  Version.from "  10.15.7 " = Some (Version.mkVersion 10 15 7) /\
  Version.from "Tiramisu" = None /\
  Version.from "01" = Some (Version.mkVersion 0 0 1).
Proof. repeat split; reflexivity. Qed.

(** ** Facts about decimal numerals *)

Module NumeralFacts.
Import JSString.

Lemma isDigit_cases (c : ascii) :
  isDigit c = true ->
  c = "0"%char \/ c = "1"%char \/ c = "2"%char \/ c = "3"%char \/
  c = "4"%char \/ c = "5"%char \/ c = "6"%char \/ c = "7"%char \/
  c = "8"%char \/ c = "9"%char.
Proof.
  destruct c as [[] [] [] [] [] [] [] []]; cbv; intro H;
    try discriminate H; auto 12.
Qed.

Lemma isNonZeroDigit_isDigit (c : ascii) :
  isNonZeroDigit c = true -> isDigit c = true /\ c <> "0"%char.
Proof.
  destruct c as [[] [] [] [] [] [] [] []]; cbv; intro H;
    try discriminate H; split; congruence.
Qed.

Lemma isNumeral_allDigits (x : string) :
  isNumeral x = true -> allDigits x = true.
Proof.
  destruct x as [|c r]; simpl; [discriminate|].
  destruct (Ascii.eqb_spec c "0") as [->|Hc].
  - intro H. apply String.eqb_eq in H. subst r. reflexivity.
  - intro H. apply andb_true_iff in H. destruct H as [Hn Hr].
    apply isNonZeroDigit_isDigit in Hn. destruct Hn as [Hd _].
    now rewrite Hd, Hr.
Qed.

(** Printing the digits read gives the string back. *)
Lemma string_of_digitPrefix (x : string) :
  allDigits x = true -> NilEmpty.string_of_uint (digitPrefix x) = x.
Proof.
  induction x as [|c r IH]; simpl; [reflexivity|].
  intro H. apply andb_true_iff in H. destruct H as [Hc Hr].
  specialize (IH Hr).
  destruct (isDigit_cases c Hc) as
    [->|[->|[->|[->|[->|[->|[->|[->|[->| ->]]]]]]]]];
    simpl; now rewrite IH.
Qed.

(** The digits of a numeral are already in normal form. *)
Lemma digitPrefix_normal (x : string) :
  isNumeral x = true ->
  unorm (digitPrefix x) = digitPrefix x /\ digitPrefix x <> Nil.
Proof.
  destruct x as [|c r]; simpl; [discriminate|].
  destruct (Ascii.eqb_spec c "0") as [->|Hc].
  - intro H. apply String.eqb_eq in H. subst r. simpl. split; [reflexivity|discriminate].
  - intro H. apply andb_true_iff in H. destruct H as [Hn _].
    apply isNonZeroDigit_isDigit in Hn. destruct Hn as [Hd _].
    destruct (isDigit_cases c Hd) as
      [->|[->|[->|[->|[->|[->|[->|[->|[->| ->]]]]]]]]];
      try congruence; simpl; split; try reflexivity; discriminate.
Qed.

(** [parseInt] then number-to-string is the identity on numerals. *)
Lemma numeral_roundtrip (x : string) :
  isNumeral x = true -> numberToString (parseInt10 x) = x.
Proof.
  intro H. unfold numberToString, parseInt10.
  destruct (digitPrefix_normal x H) as [Hn Hnil].
  change (Z.of_uint (digitPrefix x)) with (Z.of_int (Pos (digitPrefix x))).
  rewrite DecimalZ.to_of. simpl norm. rewrite Hn.
  unfold NilZero.string_of_int, NilZero.string_of_uint.
  destruct (digitPrefix x) eqn:E; try congruence;
    rewrite <- E; apply string_of_digitPrefix, isNumeral_allDigits, H.
Qed.

Lemma parseInt10_nonneg (x : string) : 0 <= parseInt10 x.
Proof.
  unfold parseInt10, Z.of_uint. apply N2Z.is_nonneg.
Qed.

End NumeralFacts.

(** ** The version pattern on well-formed input *)

Module VersionFacts.
Import JSString Version NumeralFacts.

Lemma digit_not_space (c : ascii) : isDigit c = true -> isWhiteSpace c = false.
Proof.
  intro H.
  destruct (isDigit_cases c H) as
    [->|[->|[->|[->|[->|[->|[->|[->|[->| ->]]]]]]]]]; reflexivity.
Qed.

Lemma separator_cases (c : ascii) :
  isSeparator c = true -> c = "-"%char \/ c = "."%char.
Proof.
  unfold isSeparator. intro H. apply orb_true_iff in H.
  destruct H as [H|H]; apply Ascii.eqb_eq in H; auto.
Qed.

Lemma separator_not_digit (c : ascii) : isSeparator c = true -> isDigit c = false.
Proof. intro H. destruct (separator_cases c H) as [-> | ->]; reflexivity. Qed.

Lemma separator_not_space (c : ascii) :
  isSeparator c = true -> isWhiteSpace c = false.
Proof. intro H. destruct (separator_cases c H) as [-> | ->]; reflexivity. Qed.

Lemma noWhiteSpace_app (a b : string) :
  noWhiteSpace (a ++ b) = noWhiteSpace a && noWhiteSpace b.
Proof.
  induction a as [|c r IH]; simpl; [reflexivity|].
  now rewrite IH, andb_assoc.
Qed.

Lemma allDigits_noWhiteSpace (x : string) :
  allDigits x = true -> noWhiteSpace x = true.
Proof.
  induction x as [|c r IH]; simpl; [reflexivity|].
  intro H. apply andb_true_iff in H. destruct H as [Hc Hr].
  now rewrite (digit_not_space c Hc), IH.
Qed.

Lemma trimEnd_noWhiteSpace (s : string) :
  noWhiteSpace s = true -> trimEnd s = s.
Proof.
  induction s as [|c r IH]; simpl; [reflexivity|].
  intro H. apply andb_true_iff in H. destruct H as [Hc Hr].
  rewrite (IH Hr). apply negb_true_iff in Hc. rewrite Hc.
  now destruct r.
Qed.

Lemma trim_noWhiteSpace (s : string) : noWhiteSpace s = true -> trim s = s.
Proof.
  intro H. unfold trim.
  assert (Hs : trimStart s = s).
  { destruct s as [|c r]; simpl in *; [reflexivity|].
    apply andb_true_iff in H. destruct H as [Hc _].
    apply negb_true_iff in Hc. now rewrite Hc. }
  rewrite Hs. now apply trimEnd_noWhiteSpace.
Qed.

(** [\d*] takes every digit in front of a non-digit when the rest of the
    pattern then succeeds. *)
Lemma digitsStar_greedy {R : Type} (ds rest : string)
      (k : string -> string -> option R) (x : R) :
  allDigits ds = true -> startsWithDigit rest = false ->
  k ds rest = Some x -> digitsStar (ds ++ rest) k = Some x.
Proof.
  revert k. induction ds as [|c r IH]; intros k Hd Hrest Hk; simpl in *.
  - destruct rest as [|c r]; simpl in *; [assumption|]. now rewrite Hrest.
  - apply andb_true_iff in Hd. destruct Hd as [Hc Hr]. rewrite Hc.
    now rewrite (IH (fun m rest' => k (String c m) rest') Hr Hrest Hk).
Qed.

Lemma number_numeral {R : Type} (x rest : string)
      (k : string -> string -> option R) (g : R) :
  isNumeral x = true -> startsWithDigit rest = false ->
  k x rest = Some g -> number (x ++ rest) k = Some g.
Proof.
  intros Hx Hrest Hk. destruct x as [|c r]; [discriminate|].
  simpl in Hx. unfold number. simpl.
  destruct (Ascii.eqb_spec c "0") as [->|Hc].
  - apply String.eqb_eq in Hx. subst r. simpl. now rewrite Hk.
  - apply andb_true_iff in Hx. destruct Hx as [Hn Hr]. rewrite Hn.
    now apply digitsStar_greedy.
Qed.

Lemma app_empty_r (s : string) : s ++ "" = s.
Proof. induction s; simpl; congruence. Qed.

Lemma exec_one (x : string) :
  isNumeral x = true ->
  versionRegex_exec x = Some (mkGroups x None None None).
Proof.
  intro Hx. unfold versionRegex_exec.
  rewrite <- (app_empty_r x) at 1.
  apply number_numeral; [assumption|reflexivity|reflexivity].
Qed.

Lemma exec_two (x y : string) (c : ascii) :
  isNumeral x = true -> isNumeral y = true -> isSeparator c = true ->
  versionRegex_exec (x ++ String c y)
  = Some (mkGroups x (Some c) (Some y) None).
Proof.
  intros Hx Hy Hc. unfold versionRegex_exec.
  apply number_numeral;
    [assumption | simpl; now apply separator_not_digit | ].
  rewrite Hc. rewrite <- (app_empty_r y) at 1.
  erewrite number_numeral; [reflexivity|assumption|reflexivity|reflexivity].
Qed.

Lemma exec_three (x y z : string) (c : ascii) :
  isNumeral x = true -> isNumeral y = true -> isNumeral z = true ->
  isSeparator c = true ->
  versionRegex_exec (x ++ String c (y ++ String c z))
  = Some (mkGroups x (Some c) (Some y) (Some z)).
Proof.
  intros Hx Hy Hz Hc. unfold versionRegex_exec.
  apply number_numeral;
    [assumption | simpl; now apply separator_not_digit | ].
  rewrite Hc.
  erewrite number_numeral;
    [reflexivity | assumption | simpl; now apply separator_not_digit | ].
  simpl. rewrite Ascii.eqb_refl. rewrite <- (app_empty_r z) at 1.
  erewrite number_numeral; [reflexivity|assumption|reflexivity|reflexivity].
Qed.

Lemma numeral_noWhiteSpace (x : string) :
  isNumeral x = true -> noWhiteSpace x = true.
Proof. intro H. now apply allDigits_noWhiteSpace, isNumeral_allDigits. Qed.

Lemma from_one (x : string) :
  isNumeral x = true -> from x = Some (mkVersion (parseInt10 x) 0 0).
Proof.
  intro Hx. unfold from.
  rewrite (trim_noWhiteSpace x (numeral_noWhiteSpace x Hx)).
  now rewrite exec_one.
Qed.

Lemma from_two (x y : string) (c : ascii) :
  isNumeral x = true -> isNumeral y = true -> isSeparator c = true ->
  from (x ++ String c y)
  = Some (mkVersion (parseInt10 x) (parseInt10 y) 0).
Proof.
  intros Hx Hy Hc. unfold from.
  rewrite trim_noWhiteSpace.
  - now rewrite exec_two.
  - rewrite noWhiteSpace_app. simpl.
    now rewrite (numeral_noWhiteSpace x Hx), (numeral_noWhiteSpace y Hy),
      (separator_not_space c Hc).
Qed.

Lemma from_three (x y z : string) (c : ascii) :
  isNumeral x = true -> isNumeral y = true -> isNumeral z = true ->
  isSeparator c = true ->
  from (x ++ String c (y ++ String c z))
  = Some (mkVersion (parseInt10 x) (parseInt10 y) (parseInt10 z)).
Proof.
  intros Hx Hy Hz Hc. unfold from.
  rewrite trim_noWhiteSpace.
  - now rewrite exec_three.
  - rewrite noWhiteSpace_app. simpl. rewrite noWhiteSpace_app. simpl.
    now rewrite (numeral_noWhiteSpace x Hx), (numeral_noWhiteSpace y Hy),
      (numeral_noWhiteSpace z Hz), (separator_not_space c Hc).
Qed.

End VersionFacts.

(** ** Ordering of versions *)

Module CompareFacts.
Import JSString Version NumeralFacts VersionFacts.

(** While minor and patch stay below 10 the weighted sum of [compare]
    orders two versions as the triples are ordered. *)
Lemma compare_small_components (lc : string -> string -> Z) (a b : Version.Version) :
  0 <= minor a < 10 -> 0 <= patch a < 10 ->
  0 <= minor b < 10 -> 0 <= patch b < 10 ->
  compare lc (OfVersion a) (OfVersion b) = Return (compareLexicographic a b).
Proof.
  intros Hma Hpa Hmb Hpb. unfold compare, compareLexicographic.
  destruct a as [x1 y1 z1], b as [x2 y2 z2]; simpl in *.
  destruct (Z.compare_spec x1 x2) as [->|H|H].
  - destruct (Z.compare_spec y1 y2) as [->|H'|H'].
    + destruct (Z.compare_spec z1 z2) as [->|H''|H''].
      * now rewrite Z.eqb_refl.
      * destruct (Z.eqb_spec (x2*100+y2*10+z1) (x2*100+y2*10+z2)); [lia|].
        destruct (Z.ltb_spec (x2*100+y2*10+z1) (x2*100+y2*10+z2)); [reflexivity|lia].
      * destruct (Z.eqb_spec (x2*100+y2*10+z1) (x2*100+y2*10+z2)); [lia|].
        destruct (Z.ltb_spec (x2*100+y2*10+z1) (x2*100+y2*10+z2)); [lia|reflexivity].
    + destruct (Z.eqb_spec (x2*100+y1*10+z1) (x2*100+y2*10+z2)); [lia|].
      destruct (Z.ltb_spec (x2*100+y1*10+z1) (x2*100+y2*10+z2)); [reflexivity|lia].
    + destruct (Z.eqb_spec (x2*100+y1*10+z1) (x2*100+y2*10+z2)); [lia|].
      destruct (Z.ltb_spec (x2*100+y1*10+z1) (x2*100+y2*10+z2)); [lia|reflexivity].
  - destruct (Z.eqb_spec (x1*100+y1*10+z1) (x2*100+y2*10+z2)); [lia|].
    destruct (Z.ltb_spec (x1*100+y1*10+z1) (x2*100+y2*10+z2)); [reflexivity|lia].
  - destruct (Z.eqb_spec (x1*100+y1*10+z1) (x2*100+y2*10+z2)); [lia|].
    destruct (Z.ltb_spec (x1*100+y1*10+z1) (x2*100+y2*10+z2)); [lia|reflexivity].
Qed.

(** C1.  [Version.compare] on two parsable versions does not order them by
    (major, minor, patch): it compares [major * 100 + minor * 10 + patch].
    "1.10.0" and "2.0.0" both weigh 200, so [compare] answers 0 for two
    different triples, and "10.15.7" weighs 1157 against 1100 for
    "11.0.0", so [compare] answers 1 where the triple order gives -1. *)
Theorem compare_weighted_sum_is_not_triple_order (lc : string -> string -> Z) :
  from "1.10.0" = Some (mkVersion 1 10 0) /\
  from "2.0.0" = Some (mkVersion 2 0 0) /\
  compare lc (OfString "1.10.0") (OfString "2.0.0") = Return 0 /\
  compareLexicographic (mkVersion 1 10 0) (mkVersion 2 0 0) = -1 /\
  from "10.15.7" = Some (mkVersion 10 15 7) /\
  from "11.0.0" = Some (mkVersion 11 0 0) /\
  compare lc (OfString "10.15.7") (OfString "11.0.0") = Return 1 /\
  compareLexicographic (mkVersion 10 15 7) (mkVersion 11 0 0) = -1.
Proof. repeat split; reflexivity. Qed.

Example compare_28_30 (lc : string -> string -> Z) :
  compare lc (OfString "28") (OfString "30") = Return (-1).
Proof. reflexivity. Qed.

(** Whenever the collator tells two codenames apart, [compare] throws. *)
Lemma compare_distinct_codenames (lc : string -> string -> Z) (a b : string) :
  from a = None -> from b = None -> lc a b <> 0 ->
  compare lc (OfString a) (OfString b) = Throw codenameError.
Proof.
  intros Ha Hb Hne. unfold compare; simpl. rewrite Ha, Hb.
  destruct (Z.eqb_spec (lc a b) 0); [contradiction|reflexivity].
Qed.

(** Two codenames that differ in an accent only are equal for a comparison
    that ignores case and accents, yet [compare] throws on them: at
    sensitivity 'accent' the collator tells them apart. *)
Lemma compare_throws_on_accent_difference :
  from "Tiramisu" = None /\
  from tiramisuAccented = None /\
  equalIgnoringCaseAndAccents "Tiramisu" tiramisuAccented = true /\
  compare sampleCollator (OfString "Tiramisu") (OfString tiramisuAccented)
  = Throw codenameError.
Proof. repeat split; reflexivity. Qed.

(** C3 (amended).  For two strings: when neither parses, [compare] returns 0
    if the locale comparison at sensitivity 'accent' yields 0 for them and
    throws the codename error otherwise; when only the first fails to parse
    it returns 1, and when only the second fails to parse it returns -1. *)
Theorem compare_codenames (lc : string -> string -> Z) (a b : string) :
  (from a = None -> from b = None ->
   compare lc (OfString a) (OfString b)
   = if lc a b =? 0 then Return 0 else Throw codenameError) /\
  (from a = None -> from b <> None ->
   compare lc (OfString a) (OfString b) = Return 1) /\
  (from a <> None -> from b = None ->
   compare lc (OfString a) (OfString b) = Return (-1)).
Proof.
  unfold compare; simpl. repeat split.
  - intros -> ->. reflexivity.
  - intros -> Hb. destruct (from b); [reflexivity|congruence].
  - intros Ha ->. destruct (from a); [reflexivity|congruence].
Qed.

Lemma compare_codenames_witness :
  compare sampleCollator (OfString "Tiramisu") (OfString "tiramisu") = Return 0 /\
  compare sampleCollator (OfString "Tiramisu") (OfString "UpsideDownCake")
  = Throw codenameError /\
  compare sampleCollator (OfString "Tiramisu") (OfString "30") = Return 1 /\
  compare sampleCollator (OfString "28") (OfString "Tiramisu") = Return (-1).
Proof.
  split; [|split; [|split]].
  - apply (proj1 (compare_codenames sampleCollator "Tiramisu" "tiramisu"));
      reflexivity.
  - apply (proj1 (compare_codenames sampleCollator "Tiramisu" "UpsideDownCake"));
      reflexivity.
  - apply (proj1 (proj2 (compare_codenames sampleCollator "Tiramisu" "30")));
      [reflexivity | discriminate].
  - apply (proj2 (proj2 (compare_codenames sampleCollator "28" "Tiramisu")));
      [discriminate | reflexivity].
Defined.

End CompareFacts.

(** ** Parsing and printing versions *)

Module RoundTripFacts.
Import JSString Version NumeralFacts VersionFacts.

(** A three-component string written with dashes is printed with dots, so
    parsing then printing does not give it back. *)
Lemma roundtrip_fails_for_dashes :
  isNumeral "2" = true /\ isNumeral "1" = true /\ isSeparator "-" = true /\
  option_map toString (from "2-1-2") = Some "2.1.2" /\
  option_map toString (from "2-1-2") <> Some "2-1-2".
Proof. repeat split; try reflexivity. discriminate. Qed.

(** C7 (amended).  For numerals x, y, z without leading zeros, within the
    exact integer range of the platform's numbers, and one separator c used
    throughout, parsing x c y c z and printing the result gives x.y.z:
    the input itself when c is the dot, the input with its dashes turned
    into dots when c is the dash. *)
Theorem roundtrip_three_components (x y z : string) (c : ascii) :
  isNumeral x = true -> isNumeral y = true -> isNumeral z = true ->
  isSafeInteger (parseInt10 x) = true ->
  isSafeInteger (parseInt10 y) = true ->
  isSafeInteger (parseInt10 z) = true ->
  isSeparator c = true ->
  option_map toString (from (x ++ String c (y ++ String c z)))
  = Some (x ++ "." ++ y ++ "." ++ z) /\
  (c = "."%char ->
   option_map toString (from (x ++ String c (y ++ String c z)))
   = Some (x ++ String c (y ++ String c z))).
Proof.
  intros Hx Hy Hz _ _ _ Hc.
  assert (E : option_map toString (from (x ++ String c (y ++ String c z)))
              = Some (x ++ "." ++ y ++ "." ++ z)).
  { rewrite (from_three x y z c Hx Hy Hz Hc). unfold toString; simpl.
    now rewrite !numeral_roundtrip. }
  split; [exact E|]. intros ->. exact E.
Qed.

Lemma roundtrip_three_components_witness :
  option_map toString (from "13.3.1") = Some "13.3.1" /\
  option_map toString (from "2-1-2") = Some "2.1.2".
Proof.
  split.
  - apply (proj2 (roundtrip_three_components "13" "3" "1" "."
                    eq_refl eq_refl eq_refl eq_refl eq_refl eq_refl eq_refl)).
    reflexivity.
  - apply (proj1 (roundtrip_three_components "2" "1" "2" "-"
                    eq_refl eq_refl eq_refl eq_refl eq_refl eq_refl eq_refl)).
Defined.

(** A numeral alone, or two numerals around a separator, parse with the
    missing components set to 0. *)
Lemma missing_components_default (x y : string) (c : ascii) :
  isNumeral x = true -> isNumeral y = true -> isSeparator c = true ->
  from x = Some (mkVersion (parseInt10 x) 0 0) /\
  from (x ++ String c y) = Some (mkVersion (parseInt10 x) (parseInt10 y) 0).
Proof.
  intros Hx Hy Hc. split; [now apply from_one | now apply from_two].
Qed.

Lemma seven_forms_agree (lc : string -> string -> Z) :
  from "7" = Some (mkVersion 7 0 0) /\
  from "7.0" = Some (mkVersion 7 0 0) /\
  from "7.0.0" = Some (mkVersion 7 0 0) /\
  compare lc (OfString "7") (OfString "7.0") = Return 0 /\
  compare lc (OfString "7") (OfString "7.0.0") = Return 0 /\
  compare lc (OfString "7.0") (OfString "7.0.0") = Return 0 /\
  compare lc (OfString "7.0") (OfString "7") = Return 0 /\
  compare lc (OfString "7.0.0") (OfString "7") = Return 0 /\
  compare lc (OfString "7.0.0") (OfString "7.0") = Return 0.
Proof. repeat split; reflexivity. Qed.

Lemma number_zero {R : Type} (rest : string)
      (k : string -> string -> option R) :
  number ("0" ++ rest) k = k "0" rest.
Proof. unfold number; simpl. now destruct (k "0" rest). Qed.

(** A zero followed at once by a numeral is accepted: the back reference
    to the separator group, which did not take part, matches the empty
    string, so the zero is read as the major and the numeral as the
    patch component. *)
Lemma from_zero_then_numeral (y : string) :
  isNumeral y = true ->
  versionRegex_exec ("0" ++ y) = Some (mkGroups "0" None None (Some y)) /\
  from ("0" ++ y) = Some (mkVersion 0 0 (parseInt10 y)).
Proof.
  intro Hy.
  assert (E : versionRegex_exec ("0" ++ y)
              = Some (mkGroups "0" None None (Some y))).
  { unfold versionRegex_exec. rewrite number_zero.
    destruct y as [|c r]; [discriminate|].
    assert (Hs : isSeparator c = false).
    { simpl in Hy.
      destruct (Ascii.eqb_spec c "0") as [->|Hc]; [reflexivity|].
      apply andb_true_iff in Hy. destruct Hy as [Hn _].
      apply isNonZeroDigit_isDigit in Hn. destruct Hn as [Hd _].
      destruct (isDigit_cases c Hd) as
        [->|[->|[->|[->|[->|[->|[->|[->|[->| ->]]]]]]]]]; reflexivity. }
    cbv beta iota zeta. rewrite Hs. unfold backreference.
    rewrite <- (app_empty_r (String c r)) at 1.
    erewrite (number_numeral (String c r) "");
      [reflexivity|assumption|reflexivity|reflexivity]. }
  split; [exact E|].
  unfold from. rewrite trim_noWhiteSpace.
  - rewrite E. reflexivity.
  - simpl. now apply numeral_noWhiteSpace.
Qed.

(** C10.  [Version.from] accepts "01", a string of one component, and
    returns major 0, minor 0, patch 1: the patch of an input without a
    separator is not 0.  The same holds for "00" (all zero only because
    the second digit is) and for "0123". *)
Theorem from_component_without_separator :
  versionRegex_exec "01" = Some (mkGroups "0" None None (Some "1")) /\
  from "01" = Some (mkVersion 0 0 1) /\
  from "0123" = Some (mkVersion 0 0 123) /\
  from "00" = Some (mkVersion 0 0 0) /\
  from "001.002" = None /\
  from "1" = Some (mkVersion 1 0 0).
Proof. repeat split; reflexivity. Qed.

End RoundTripFacts.

(** ** Runtime labels *)

Module LabelFacts.
Import JSON IOSSimulatorDevice.

Lemma replaceFirst_eq (pattern replacement s : string) :
  replaceFirst pattern replacement s
  = if String.prefix pattern s
    then replacement ++ String.substring (String.length pattern)
                          (String.length s - String.length pattern) s
    else match s with
         | String c r => String c (replaceFirst pattern replacement r)
         | EmptyString => EmptyString
         end.
Proof. destruct s; reflexivity. Qed.

Lemma prefix_app (p r : string) : String.prefix p (p ++ r) = true.
Proof.
  induction p as [|c p IH]; simpl.
  - now destruct r.
  - destruct (ascii_dec c c); [exact IH|congruence].
Qed.

Lemma prefix_cons (a b : ascii) (p s : string) :
  String.prefix (String a p) (String b s)
  = if ascii_dec a b then String.prefix p s else false.
Proof. reflexivity. Qed.

Lemma length_app (p r : string) :
  String.length (p ++ r) = (String.length p + String.length r)%nat.
Proof. induction p; simpl; congruence. Qed.

Lemma substring_all (r : string) : String.substring 0 (String.length r) r = r.
Proof. induction r; simpl; congruence. Qed.

Lemma substring_skip (p r : string) (n : nat) :
  String.substring (String.length p) n (p ++ r) = String.substring 0 n r.
Proof. induction p; simpl; [reflexivity|assumption]. Qed.

(** Replacing a pattern the string starts with leaves what follows it. *)
Lemma replaceFirst_prefix (p repl r : string) :
  replaceFirst p repl (p ++ r) = repl ++ r.
Proof.
  rewrite replaceFirst_eq, prefix_app, substring_skip, length_app.
  replace (String.length p + String.length r - String.length p)%nat
    with (String.length r) by lia.
  now rewrite substring_all.
Qed.

(** The first dash is the one after a dash-free platform name. *)
Lemma replaceFirst_dash (platform tail : string) :
  noDash platform = true ->
  replaceFirst "-" " " (platform ++ "-" ++ tail) = platform ++ " " ++ tail.
Proof.
  induction platform as [|c p IH]; intro H.
  - apply (replaceFirst_prefix "-" " " tail).
  - simpl in H. apply andb_true_iff in H. destruct H as [Hc Hp].
    apply negb_true_iff in Hc. apply Ascii.eqb_neq in Hc.
    change (String c p ++ "-" ++ tail) with (String c (p ++ "-" ++ tail)).
    change (String c p ++ " " ++ tail) with (String c (p ++ " " ++ tail)).
    rewrite replaceFirst_eq, prefix_cons.
    destruct (ascii_dec "-" c) as [E|_]; [congruence|].
    f_equal. exact (IH Hp).
Qed.

Lemma replaceDashes_app (a b : string) :
  replaceDashes (a ++ b) = replaceDashes a ++ replaceDashes b.
Proof. induction a; simpl; congruence. Qed.

Lemma replaceDashes_noDash (a : string) :
  noDash a = true -> replaceDashes a = a.
Proof.
  induction a as [|c a IH]; simpl; [reflexivity|].
  intro H. apply andb_true_iff in H. destruct H as [Hc Ha].
  apply negb_true_iff in Hc. now rewrite Hc, IH.
Qed.

Lemma replaceDashes_concat (components : list string) :
  forallb noDash components = true ->
  replaceDashes (String.concat "-" components) = String.concat "." components.
Proof.
  induction components as [|x l IH]; [reflexivity|].
  intro H. cbn [forallb] in H. apply andb_true_iff in H. destruct H as [Hx Hl].
  destruct l as [|y l]; [now apply replaceDashes_noDash|].
  change (String.concat "-" (x :: y :: l))
    with (x ++ "-" ++ String.concat "-" (y :: l)).
  change (String.concat "." (x :: y :: l))
    with (x ++ "." ++ String.concat "." (y :: l)).
  rewrite !replaceDashes_app, (replaceDashes_noDash x Hx), (IH Hl).
  reflexivity.
Qed.

(** C8.  For a runtime identifier made of the CoreSimulator prefix, a
    platform name without a dash, a dash and a tail, the constructor stores
    as label the platform, a space, and the tail with every dash turned into
    a dot: the prefix is stripped, the first dash becomes the space and each
    later dash a dot.  When the tail is a list of dash-free components
    joined by dashes (major, minor and an optional patch), the label is the
    platform, a space, and the components joined by dots. *)
Theorem runtime_label (n u s a : jsvalue) (platform : string)
        (components : list string) :
  noDash platform = true ->
  forallb noDash components = true ->
  (forall tail : string,
      runtimeId (new n u s (runtimePrefix ++ platform ++ "-" ++ tail) a)
      = platform ++ " " ++ replaceDashes tail) /\
  runtimeId (new n u s (runtimePrefix ++ platform ++ "-"
                          ++ String.concat "-" components) a)
  = platform ++ " " ++ String.concat "." components.
Proof.
  intros Hp Hc.
  assert (G : forall tail : string,
             runtimeId (new n u s (runtimePrefix ++ platform ++ "-" ++ tail) a)
             = platform ++ " " ++ replaceDashes tail).
  { intro tail. unfold new. cbn [runtimeId].
    rewrite (replaceFirst_prefix runtimePrefix "" (platform ++ "-" ++ tail)).
    change ("" ++ (platform ++ "-" ++ tail)) with (platform ++ "-" ++ tail).
    rewrite (replaceFirst_dash platform tail Hp).
    rewrite replaceDashes_app, (replaceDashes_noDash platform Hp).
    reflexivity. }
  split; [exact G|].
  rewrite G. now rewrite replaceDashes_concat.
Qed.

Lemma runtime_label_witness :
  runtimeId (new None None None "com.apple.CoreSimulator.SimRuntime.iOS-17-5" None)
  = "iOS 17.5" /\
  runtimeId (new None None None "com.apple.CoreSimulator.SimRuntime.iOS-13-3-2" None)
  = "iOS 13.3.2".
Proof.
  split.
  - apply (proj2 (runtime_label None None None None "iOS" ["17"; "5"]
                    eq_refl eq_refl)).
  - apply (proj2 (runtime_label None None None None "iOS" ["13"; "3"; "2"]
                    eq_refl eq_refl)).
Defined.

End LabelFacts.

(** ** Sorting runtime keys *)

Module SortFacts.
Import JSON IOSSimulatorDevice.

Lemma compare_not_gt_trans (a b c : string) :
  String.compare a b <> Gt -> String.compare b c <> Gt ->
  String.compare a c <> Gt.
Proof.
  revert b c. induction a as [|x a IH]; intros [|y b] [|z c]; simpl;
    try congruence.
  unfold Ascii.compare.
  destruct (N.compare_spec (N_of_ascii x) (N_of_ascii y)) as [E1|L1|G1];
    destruct (N.compare_spec (N_of_ascii y) (N_of_ascii z)) as [E2|L2|G2];
    destruct (N.compare_spec (N_of_ascii x) (N_of_ascii z)) as [E3|L3|G3];
    try congruence; try lia.
  apply IH.
Qed.

Lemma leb_trans (a b c : string) :
  String.leb a b = true -> String.leb b c = true -> String.leb a c = true.
Proof.
  unfold String.leb. intros H1 H2.
  assert (G : String.compare a c <> Gt).
  { apply (compare_not_gt_trans a b c).
    - destruct (String.compare a b); congruence.
    - destruct (String.compare b c); congruence. }
  destruct (String.compare a c); congruence.
Qed.

Lemma insertSorted_perm (x : string) (l : list string) :
  Permutation (insertSorted x l) (x :: l).
Proof.
  induction l as [|y r IH]; simpl; [reflexivity|].
  destruct (String.leb x y); [reflexivity|].
  rewrite IH. apply perm_swap.
Qed.

Lemma sort_perm (l : list string) : Permutation (sort l) l.
Proof.
  induction l as [|x r IH]; simpl; [reflexivity|].
  rewrite insertSorted_perm. now constructor.
Qed.

Lemma insertSorted_sorted (x : string) (l : list string) :
  StronglySorted ascending l -> StronglySorted ascending (insertSorted x l).
Proof.
  induction l as [|y r IH]; intro H; simpl.
  - constructor; constructor.
  - apply StronglySorted_inv in H. destruct H as [Hr Hy].
    destruct (String.leb x y) eqn:E.
    + constructor; [now constructor|].
      constructor; [exact E|].
      apply Forall_impl with (P := ascending y); [|exact Hy].
      intros z Hz. now apply (leb_trans x y z).
    + constructor; [now apply IH|].
      apply (Permutation_Forall (x := x :: r)).
      * symmetry. apply insertSorted_perm.
      * constructor; [|exact Hy].
        destruct (String.leb_total x y) as [F|F]; [congruence|exact F].
Qed.

Lemma sort_sorted (l : list string) : StronglySorted ascending (sort l).
Proof.
  induction l as [|x r IH]; simpl; [constructor|].
  now apply insertSorted_sorted.
Qed.

Lemma sorted_snoc (l : list string) (a : string) :
  StronglySorted descending l -> Forall (fun x => descending x a) l ->
  StronglySorted descending (l ++ [a]).
Proof.
  induction l as [|x r IH]; intros Hs Hf; simpl.
  - constructor; constructor.
  - apply StronglySorted_inv in Hs. destruct Hs as [Hr Hx].
    inversion Hf as [|? ? Hxa Hra]; subst.
    constructor; [now apply IH|].
    apply Forall_app. split; [exact Hx|]. now constructor.
Qed.

Lemma rev_sorted (l : list string) :
  StronglySorted ascending l -> StronglySorted descending (List.rev l).
Proof.
  induction l as [|x r IH]; intro H; simpl; [constructor|].
  apply StronglySorted_inv in H. destruct H as [Hr Hx].
  apply sorted_snoc; [now apply IH|].
  apply Forall_rev. exact Hx.
Qed.

(** [sort().reverse()] lists the same keys, largest first. *)
Lemma sort_reverse_descending (l : list string) :
  Permutation (List.rev (sort l)) l /\
  StronglySorted descending (List.rev (sort l)).
Proof.
  split.
  - rewrite <- Permutation_rev. apply sort_perm.
  - apply rev_sorted, sort_sorted.
Qed.

End SortFacts.

(** ** The simulator list parser *)

Module ParserFacts.
Import JSON IOSSimulatorDevice SortFacts.

Lemma deviceOf_notNull (k : string) (d : json) :
  isNull d = false -> deviceOf k d = Return (simOf k d).
Proof. destruct d; simpl; intro H; try reflexivity. discriminate. Qed.

Lemma pushDevices_notNull (k : string) (ds : list json)
      (acc : list IOSSimulatorDevice) :
  allNotNull ds = true ->
  pushDevices k ds acc = Return (acc ++ map (simOf k) ds)%list.
Proof.
  revert acc. induction ds as [|d r IH]; intros acc H; simpl.
  - now rewrite app_nil_r.
  - unfold allNotNull in H. simpl in H. apply andb_true_iff in H.
    destruct H as [Hd Hr]. apply negb_true_iff in Hd.
    rewrite (deviceOf_notNull k d Hd). simpl.
    rewrite (IH _ Hr), <- app_assoc. reflexivity.
Qed.

Lemma lookup_wellFormed (rd : list (string * json)) (k : string) :
  wellFormedDevices rd = true -> In k (map fst rd) ->
  exists ds, lookup k rd = Some (JArray ds) /\ allNotNull ds = true.
Proof.
  induction rd as [|[k' v] r IH]; simpl; intros Hw Hin; [contradiction|].
  apply andb_true_iff in Hw. destruct Hw as [Hv Hr].
  destruct (String.eqb_spec k' k) as [->|Hne].
  - destruct v; try discriminate. eexists. split; [reflexivity|exact Hv].
  - destruct Hin as [E|Hin]; [congruence|]. now apply IH.
Qed.

Lemma pushRuntimes_wellFormed (rd : list (string * json)) (ks : list string)
      (acc : list IOSSimulatorDevice) :
  wellFormedDevices rd = true ->
  (forall k, In k ks -> In k (map fst rd)) ->
  pushRuntimes (JObject rd) ks acc
  = Return (acc ++ flat_map (simsOfRuntime rd) ks)%list.
Proof.
  intros Hw. revert acc. induction ks as [|k r IH]; intros acc Hin; simpl.
  - now rewrite app_nil_r.
  - destruct (lookup_wellFormed rd k Hw (Hin k (or_introl eq_refl)))
      as [ds [Hl Hn]].
    unfold simsOfRuntime at 1. rewrite Hl. simpl.
    rewrite (pushDevices_notNull k ds acc Hn). simpl.
    rewrite IH, <- app_assoc; [reflexivity|].
    intros k0 Hk0. apply Hin. now right.
Qed.

(** The runtimes are visited largest key first. *)
Lemma parseJSONString_descending
      (RegExp_new : string -> completion RegExp)
      (JSON_parse : string -> completion json)
      (jsonString : string) (supportedRuntimes : list string)
      (runtimeMatchRegex : RegExp) (rd : list (string * json)) :
  RegExp_new (runtimePattern supportedRuntimes) = Return runtimeMatchRegex ->
  JSON_parse jsonString = Return (deviceList rd) ->
  wellFormedDevices rd = true ->
  exists runtimes,
    Permutation runtimes
                (filter (isSupportedKey runtimeMatchRegex) (map fst rd)) /\
    StronglySorted descending runtimes /\
    parseJSONString RegExp_new JSON_parse jsonString supportedRuntimes
    = Return (flat_map (simsOfRuntime rd) runtimes).
Proof.
  intros Hr Hp Hw.
  exists (List.rev (sort (filter (isSupportedKey runtimeMatchRegex) (map fst rd)))).
  destruct (sort_reverse_descending
              (filter (isSupportedKey runtimeMatchRegex) (map fst rd)))
    as [Hperm Hsorted].
  repeat split; [exact Hperm|exact Hsorted|].
  unfold parseJSONString. rewrite Hr. cbn [bind]. rewrite Hp. simpl.
  rewrite pushRuntimes_wellFormed; [reflexivity|exact Hw|].
  intros k Hk.
  apply (Permutation_in _ Hperm) in Hk. apply filter_In in Hk. tauto.
Qed.

Lemma prefix_refl (r : string) : String.prefix r r = true.
Proof.
  induction r as [|c r IH]; [reflexivity|].
  rewrite LabelFacts.prefix_cons. destruct (ascii_dec c c); congruence.
Qed.

(** The pattern of an allow-list of plain names finds a key that ends in a
    listed runtime right after the CoreSimulator prefix. *)
Lemma isSupportedKey_listed (supportedRuntimes : list string) (r : string) :
  In r supportedRuntimes ->
  isSupportedKey (regexMatches supportedRuntimes) (runtimePrefix ++ r) = true.
Proof.
  intro Hin.
  assert (Hex : existsb (fun alt => String.prefix alt r)
                        (alternatives supportedRuntimes) = true).
  { apply existsb_exists. exists r. split; [|apply prefix_refl].
    destruct supportedRuntimes; [contradiction|exact Hin]. }
  unfold isSupportedKey, runtimePrefix.
  cbn -[alternatives existsb String.substring String.length Nat.sub].
  replace (String.length ("SimRuntime." ++ r) - 10)%nat
    with (S (String.length r)) by (simpl; lia).
  cbn -[alternatives existsb].
  rewrite LabelFacts.substring_all, Hex.
  repeat rewrite orb_true_r. reflexivity.
Qed.

(** A pattern that does not compile: the constructor's error is the
    parser's, whatever the payload. *)
Lemma parseJSONString_invalid_pattern
      (RegExp_new : string -> completion RegExp)
      (JSON_parse : string -> completion json)
      (jsonString : string) (supportedRuntimes : list string) (e : string) :
  RegExp_new (runtimePattern supportedRuntimes) = Throw e ->
  parseJSONString RegExp_new JSON_parse jsonString supportedRuntimes = Throw e.
Proof. intro Hr. unfold parseJSONString. now rewrite Hr. Qed.

Lemma parseJSONString_deviceList
      (RegExp_new : string -> completion RegExp)
      (JSON_parse : string -> completion json)
      (jsonString : string) (supportedRuntimes : list string)
      (runtimeMatchRegex : RegExp) (rd : list (string * json)) :
  RegExp_new (runtimePattern supportedRuntimes) = Return runtimeMatchRegex ->
  JSON_parse jsonString = Return (deviceList rd) ->
  parseJSONString RegExp_new JSON_parse jsonString supportedRuntimes
  = pushRuntimes (JObject rd)
      (List.rev (sort (filter (isSupportedKey runtimeMatchRegex) (map fst rd))))
      [].
Proof.
  intros Hr Hp. unfold parseJSONString. rewrite Hr. cbn [bind]. now rewrite Hp.
Qed.

(** With the runtimes iOS-17-5 and iOS-16-4 in the payload, in either
    property order, the devices of iOS-17-5 come first. *)
Lemma two_runtimes_newest_first
      (RegExp_new : string -> completion RegExp)
      (JSON_parse : string -> completion json)
      (jsonString : string) (supportedRuntimes : list string)
      (runtimeMatchRegex : RegExp) (ds17 ds16 : list json) :
  RegExp_new (runtimePattern supportedRuntimes) = Return runtimeMatchRegex ->
  isSupportedKey runtimeMatchRegex key_iOS_17_5 = true ->
  isSupportedKey runtimeMatchRegex key_iOS_16_4 = true ->
  allNotNull ds17 = true -> allNotNull ds16 = true ->
  JSON_parse jsonString
  = Return (deviceList [(key_iOS_17_5, JArray ds17); (key_iOS_16_4, JArray ds16)])
  \/ JSON_parse jsonString
     = Return (deviceList [(key_iOS_16_4, JArray ds16); (key_iOS_17_5, JArray ds17)]) ->
  parseJSONString RegExp_new JSON_parse jsonString supportedRuntimes
  = Return (map (simOf key_iOS_17_5) ds17 ++ map (simOf key_iOS_16_4) ds16)%list.
Proof.
  intros Hr H17 H16 Hn17 Hn16 [Hp|Hp];
    rewrite (parseJSONString_deviceList _ _ _ _ _ _ Hr Hp);
    cbn [map fst filter]; rewrite H17, H16;
    unfold key_iOS_17_5, key_iOS_16_4.
  - change (List.rev (sort [runtimePrefix ++ "iOS-17-5"; runtimePrefix ++ "iOS-16-4"]))
      with [runtimePrefix ++ "iOS-17-5"; runtimePrefix ++ "iOS-16-4"].
    rewrite pushRuntimes_wellFormed.
    + cbn [flat_map List.app]. unfold simsOfRuntime.
      change (lookup (runtimePrefix ++ "iOS-17-5")
                [(runtimePrefix ++ "iOS-17-5", JArray ds17);
                 (runtimePrefix ++ "iOS-16-4", JArray ds16)])
        with (Some (JArray ds17)).
      change (lookup (runtimePrefix ++ "iOS-16-4")
                [(runtimePrefix ++ "iOS-17-5", JArray ds17);
                 (runtimePrefix ++ "iOS-16-4", JArray ds16)])
        with (Some (JArray ds16)).
      now rewrite app_nil_r.
    + unfold wellFormedDevices. cbn [forallb snd].
      fold (allNotNull ds17). fold (allNotNull ds16). now rewrite Hn17, Hn16.
    + intros k Hk. exact Hk.
  - change (List.rev (sort [runtimePrefix ++ "iOS-16-4"; runtimePrefix ++ "iOS-17-5"]))
      with [runtimePrefix ++ "iOS-17-5"; runtimePrefix ++ "iOS-16-4"].
    rewrite pushRuntimes_wellFormed.
    + cbn [flat_map List.app]. unfold simsOfRuntime.
      change (lookup (runtimePrefix ++ "iOS-17-5")
                [(runtimePrefix ++ "iOS-16-4", JArray ds16);
                 (runtimePrefix ++ "iOS-17-5", JArray ds17)])
        with (Some (JArray ds17)).
      change (lookup (runtimePrefix ++ "iOS-16-4")
                [(runtimePrefix ++ "iOS-16-4", JArray ds16);
                 (runtimePrefix ++ "iOS-17-5", JArray ds17)])
        with (Some (JArray ds16)).
      now rewrite app_nil_r.
    + unfold wellFormedDevices. cbn [forallb snd].
      fold (allNotNull ds17). fold (allNotNull ds16). now rewrite Hn17, Hn16.
    + intros k Hk. cbn [map fst]. cbn [In] in *. tauto.
Qed.

(** C4.  Once the allow-list has compiled to a pattern, the parser returns,
    for a device-list payload (every runtime key holds an array of device
    entries, none of them null), the devices of the runtime keys in which
    the pattern finds a match, runtime after runtime, the keys in descending
    order of their code units; within one runtime the devices keep their
    array order.  In particular, with the runtimes iOS-17-5 and iOS-16-4 in
    the payload (in either property order) and a pattern that finds both
    keys, every device of iOS-17-5 precedes every device of iOS-16-4; an
    allow-list of plain runtime names that contains both has such a
    pattern. *)
Theorem parseJSONString_orders_runtimes
        (RegExp_new : string -> completion RegExp)
        (JSON_parse : string -> completion json) (jsonString : string)
        (supportedRuntimes : list string) :
  (forall (runtimeMatchRegex : RegExp) (rd : list (string * json)),
      RegExp_new (runtimePattern supportedRuntimes) = Return runtimeMatchRegex ->
      JSON_parse jsonString = Return (deviceList rd) ->
      wellFormedDevices rd = true ->
      exists runtimes,
        Permutation runtimes
                    (filter (isSupportedKey runtimeMatchRegex) (map fst rd)) /\
        StronglySorted descending runtimes /\
        parseJSONString RegExp_new JSON_parse jsonString supportedRuntimes
        = Return (flat_map (simsOfRuntime rd) runtimes)) /\
  (forall (runtimeMatchRegex : RegExp) (ds17 ds16 : list json),
      RegExp_new (runtimePattern supportedRuntimes) = Return runtimeMatchRegex ->
      isSupportedKey runtimeMatchRegex key_iOS_17_5 = true ->
      isSupportedKey runtimeMatchRegex key_iOS_16_4 = true ->
      allNotNull ds17 = true -> allNotNull ds16 = true ->
      JSON_parse jsonString
      = Return (deviceList [(key_iOS_17_5, JArray ds17); (key_iOS_16_4, JArray ds16)])
      \/ JSON_parse jsonString
         = Return (deviceList [(key_iOS_16_4, JArray ds16); (key_iOS_17_5, JArray ds17)]) ->
      parseJSONString RegExp_new JSON_parse jsonString supportedRuntimes
      = Return (map (simOf key_iOS_17_5) ds17 ++ map (simOf key_iOS_16_4) ds16)%list) /\
  (forall ds17 ds16 : list json,
      readsLiterally RegExp_new supportedRuntimes ->
      In "iOS-17-5" supportedRuntimes -> In "iOS-16-4" supportedRuntimes ->
      allNotNull ds17 = true -> allNotNull ds16 = true ->
      JSON_parse jsonString
      = Return (deviceList [(key_iOS_17_5, JArray ds17); (key_iOS_16_4, JArray ds16)])
      \/ JSON_parse jsonString
         = Return (deviceList [(key_iOS_16_4, JArray ds16); (key_iOS_17_5, JArray ds17)]) ->
      parseJSONString RegExp_new JSON_parse jsonString supportedRuntimes
      = Return (map (simOf key_iOS_17_5) ds17 ++ map (simOf key_iOS_16_4) ds16)%list).
Proof.
  split; [|split].
  - intros m rd Hr Hp Hw. now apply (parseJSONString_descending _ _ _ _ m).
  - intros m ds17 ds16 Hr. now apply two_runtimes_newest_first.
  - intros ds17 ds16 [_ Hr] H17 H16.
    apply (two_runtimes_newest_first _ _ _ _ _ _ _ Hr).
    + exact (isSupportedKey_listed supportedRuntimes "iOS-17-5" H17).
    + exact (isSupportedKey_listed supportedRuntimes "iOS-16-4" H16).
Qed.

Lemma parseJSONString_orders_runtimes_witness :
  (exists runtimes,
      Permutation runtimes [key_iOS_16_4; key_iOS_17_5] /\
      StronglySorted descending runtimes /\
      parseJSONString (plainRegExp ["iOS-16-4"; "iOS-17-5"])
                      (tableParser [("payload", samplePayload)]) "payload"
                      ["iOS-16-4"; "iOS-17-5"]
      = Return (flat_map
                  (simsOfRuntime
                     [(key_iOS_16_4,
                       JArray [sampleDevice "iPhone 14" "A1";
                               sampleDevice "iPad Air" "A2"]);
                      (key_iOS_17_5, JArray [sampleDevice "iPhone 15" "B1"])])
                  runtimes)) /\
  parseJSONString (plainRegExp ["iOS-16-4"; "iOS-17-5"])
                  (tableParser [("payload", samplePayload)]) "payload"
                  ["iOS-16-4"; "iOS-17-5"]
  = Return
      [new (Some (JString "iPhone 15")) (Some (JString "B1"))
           (Some (JString "Shutdown")) key_iOS_17_5 (Some (JBool true));
       new (Some (JString "iPhone 14")) (Some (JString "A1"))
           (Some (JString "Shutdown")) key_iOS_16_4 (Some (JBool true));
       new (Some (JString "iPad Air")) (Some (JString "A2"))
           (Some (JString "Shutdown")) key_iOS_16_4 (Some (JBool true))].
Proof.
  split.
  - apply (proj1 (parseJSONString_orders_runtimes
                    (plainRegExp ["iOS-16-4"; "iOS-17-5"])
                    (tableParser [("payload", samplePayload)]) "payload"
                    ["iOS-16-4"; "iOS-17-5"])
                 (regexMatches ["iOS-16-4"; "iOS-17-5"])
                 [(key_iOS_16_4,
                   JArray [sampleDevice "iPhone 14" "A1";
                           sampleDevice "iPad Air" "A2"]);
                  (key_iOS_17_5, JArray [sampleDevice "iPhone 15" "B1"])]);
      reflexivity.
  - apply (proj2 (proj2 (parseJSONString_orders_runtimes
                    (plainRegExp ["iOS-16-4"; "iOS-17-5"])
                    (tableParser [("payload", samplePayload)]) "payload"
                    ["iOS-16-4"; "iOS-17-5"]))
                 [sampleDevice "iPhone 15" "B1"]
                 [sampleDevice "iPhone 14" "A1"; sampleDevice "iPad Air" "A2"]).
    + split; reflexivity.
    + simpl. tauto.
    + simpl. tauto.
    + reflexivity.
    + reflexivity.
    + right. reflexivity.
Defined.

(** C5.  Once the allow-list has compiled to a pattern: when [JSON.parse]
    throws on the input, the parser throws the same error; when the input
    parses to an object without a [devices] property, the parser returns the
    empty list. *)
Theorem parseJSONString_malformed_or_without_devices
        (RegExp_new : string -> completion RegExp)
        (JSON_parse : string -> completion json) (jsonString : string)
        (supportedRuntimes : list string) (runtimeMatchRegex : RegExp) :
  RegExp_new (runtimePattern supportedRuntimes) = Return runtimeMatchRegex ->
  (forall e : string,
      JSON_parse jsonString = Throw e ->
      parseJSONString RegExp_new JSON_parse jsonString supportedRuntimes
      = Throw e) /\
  (forall properties : list (string * json),
      JSON_parse jsonString = Return (JObject properties) ->
      lookup "devices" properties = None ->
      parseJSONString RegExp_new JSON_parse jsonString supportedRuntimes
      = Return []).
Proof.
  intro Hr. split.
  - intros e Hp. unfold parseJSONString. rewrite Hr. cbn [bind]. now rewrite Hp.
  - intros properties Hp Hl. unfold parseJSONString. rewrite Hr. cbn [bind].
    rewrite Hp. simpl. now rewrite Hl.
Qed.

Lemma parseJSONString_malformed_or_without_devices_witness :
  parseJSONString (plainRegExp ["iOS-17-5"]) (tableParser [("{}", JObject [])])
                  "{ devices: " ["iOS-17-5"]
  = Throw "SyntaxError" /\
  parseJSONString (plainRegExp ["iOS-17-5"]) (tableParser [("{}", JObject [])])
                  "{}" ["iOS-17-5"]
  = Return [].
Proof.
  split.
  - apply (proj1 (parseJSONString_malformed_or_without_devices
                    (plainRegExp ["iOS-17-5"])
                    (tableParser [("{}", JObject [])]) "{ devices: "
                    ["iOS-17-5"] (regexMatches ["iOS-17-5"]) eq_refl)).
    reflexivity.
  - apply (proj2 (parseJSONString_malformed_or_without_devices
                    (plainRegExp ["iOS-17-5"])
                    (tableParser [("{}", JObject [])]) "{}" ["iOS-17-5"]
                    (regexMatches ["iOS-17-5"]) eq_refl)
                 []); reflexivity.
Defined.

End ParserFacts.

(** ** The requirement engine *)

Module SetupFacts.
Import Setup.

Section Engine.
Variable stepDuration : Requirement -> number.
Variable getMessage : string -> string.

(** When no call of a check throws, the loop collects one wrapper per
    requirement. *)
Lemma wrapAll_returns (requirements : list Requirement) :
  forallb (fun r => negb (throws r)) requirements = true ->
  wrapAll stepDuration requirements
  = Return (map (wrapperOf stepDuration) requirements).
Proof.
  induction requirements as [|r l IH]; simpl; [reflexivity|].
  intro H. apply andb_true_iff in H. destruct H as [Hr Hl].
  rewrite (IH Hl). unfold WrappedPromise, wrapperOf, throws in *.
  destruct (checkFunction r tt) as [[]|]; try reflexivity. discriminate.
Qed.

Lemma settles_not_throws (requirements : list Requirement) :
  forallb settles requirements = true ->
  forallb (fun r => negb (throws r)) requirements = true.
Proof.
  induction requirements as [|r l IH]; simpl; [reflexivity|].
  intro H. apply andb_true_iff in H. destruct H as [Hr Hl].
  rewrite (IH Hl), andb_true_r. unfold settles, throws in *.
  destruct (checkFunction r tt); [reflexivity|discriminate].
Qed.

(** No wrapper is rejected, so [Promise.all] waits for every check. *)
Lemma promiseAll_wrapped (requirements : list Requirement) :
  forallb settles requirements = true ->
  promiseAll (map (wrapperOf stepDuration) requirements)
  = Fulfilled (map (wrapped stepDuration) requirements).
Proof.
  induction requirements as [|r l IH]; simpl; [reflexivity|].
  intro H. apply andb_true_iff in H. destruct H as [Hr Hl].
  rewrite (IH Hl). unfold wrapperOf, wrapped, settles in *.
  destruct (checkFunction r tt) as [[]|]; try reflexivity; discriminate.
Qed.

(** When every check settles, the report is the fold over the wrapped
    results. *)
Lemma executeSetup_settled (requirements : list Requirement) :
  forallb settles requirements = true ->
  executeSetup stepDuration getMessage requirements
  = Fulfilled
      (fold_left (record getMessage)
                 (map (wrapped stepDuration) requirements)
                 (mkSetupTestResult true [])).
Proof.
  intro H. unfold executeSetup.
  rewrite (wrapAll_returns requirements (settles_not_throws requirements H)).
  now rewrite (promiseAll_wrapped requirements H).
Qed.

(** Recording the wrapped results appends one test case each and keeps the
    conjunction of the outcomes. *)
Lemma fold_record (requirements : list Requirement) (acc : SetupTestResult) :
  forallb settles requirements = true ->
  let report :=
    fold_left (record getMessage) (map (wrapped stepDuration) requirements) acc in
  List.length (tests report)
  = (List.length (tests acc) + List.length requirements)%nat /\
  hasMetAllRequirements report
  = hasMetAllRequirements acc && forallb fulfils requirements /\
  map test_title (tests report)
  = (map test_title (tests acc) ++ map title requirements)%list /\
  map hasPassed (tests report)
  = (map hasPassed (tests acc) ++ map fulfils requirements)%list.
Proof.
  revert acc. induction requirements as [|r l IH]; intros acc H; simpl.
  - rewrite Nat.add_0_r, andb_true_r, !app_nil_r. repeat split.
  - simpl in H. apply andb_true_iff in H. destruct H as [Hr Hl].
    specialize (IH (record getMessage acc (wrapped stepDuration r)) Hl).
    simpl in IH.
    destruct IH as [IH1 [IH2 [IH3 IH4]]].
    rewrite IH1, IH2, IH3, IH4. clear IH1 IH2 IH3 IH4.
    unfold record, wrapped, fulfils, settles in *.
    destruct (checkFunction r tt) as [[]|]; try discriminate; simpl;
      rewrite ?length_app, ?map_app, <- ?app_assoc; simpl;
      repeat split; try lia.
Qed.

End Engine.

(** C2.  When every check settles, [executeSetup] resolves with a report
    that holds exactly one test case per requirement, in the order of the
    requirements, each passed exactly when its check fulfilled (a rejected
    check is recorded as failed and removes no other outcome), and
    [hasMetAllRequirements] is true exactly when every check fulfilled.  With
    three requirements of which one rejects, the report has three test cases
    and [hasMetAllRequirements] is false. *)
Theorem executeSetup_records_every_outcome
        (stepDuration : Requirement -> number) (getMessage : string -> string)
        (requirements : list Requirement) :
  forallb settles requirements = true ->
  exists report,
    executeSetup stepDuration getMessage requirements = Fulfilled report /\
    List.length (tests report) = List.length requirements /\
    map test_title (tests report) = map title requirements /\
    map hasPassed (tests report) = map fulfils requirements /\
    (hasMetAllRequirements report = true <->
     forall r, In r requirements -> fulfils r = true) /\
    (forall r1 r2 r3,
        requirements = [r1; r2; r3] ->
        fulfils r1 && fulfils r2 && fulfils r3 = false ->
        hasMetAllRequirements report = false /\
        List.length (tests report) = 3%nat).
Proof.
  intro Hs.
  rewrite (executeSetup_settled stepDuration getMessage requirements Hs).
  eexists. split; [reflexivity|].
  destruct (fold_record stepDuration getMessage requirements
              (mkSetupTestResult true []) Hs) as [H1 [H2 [H3 H4]]].
  simpl in H1, H2, H3, H4.
  split; [exact H1|]. split; [exact H3|]. split; [exact H4|].
  split.
  - rewrite H2. apply forallb_forall.
  - intros r1 r2 r3 -> Hf. split.
    + rewrite H2. simpl. rewrite andb_true_r, andb_assoc. exact Hf.
    + rewrite H1. reflexivity.
Qed.

Lemma executeSetup_records_every_outcome_witness :
  exists report,
    executeSetup (fun _ => QArith_base.Qmake 0 1) (fun key => key)
                 [passing "macOS"; failing "Xcode"; passing "Simulator"]
    = Fulfilled report /\
    hasMetAllRequirements report = false /\
    List.length (tests report) = 3%nat /\
    map hasPassed (tests report) = [true; false; true].
Proof.
  destruct (executeSetup_records_every_outcome
              (fun _ => QArith_base.Qmake 0 1) (fun key => key)
              [passing "macOS"; failing "Xcode"; passing "Simulator"] eq_refl)
    as [report [He [Hl [Ht [Hp [Hm H3]]]]]].
  exists report. split; [exact He|].
  destruct (H3 _ _ _ eq_refl eq_refl) as [Hf Hn].
  split; [exact Hf|]. split; [exact Hn|exact Hp].
Defined.

End SetupFacts.

(** ** Symbolic runs of the launchers *)

(** One step of a symbolic run: split on how the next awaited operation
    ends, or on the next test. *)
Ltac split_run :=
  match goal with
  | |- context [match ?x with
                | Fulfilled _ => _
                | Rejected _ => _
                | Pending => _
                end] => destruct x eqn:?
  | |- context [if ?b then _ else _] => destruct b eqn:?
  end.

Ltac unfold_run :=
  unfold AndroidLauncher.run, AndroidLauncher.launchPreview,
    AndroidLauncher.launchStep, Async.catchRethrow,
    AndroidLauncher.startCliAction, AndroidLauncher.stopCliAction,
    Async.bind, Async.perform, Async.read, Async.assign, Async.ret;
  cbn [fst snd Async.variable Async.calls List.app].

(** Every call in the log is one of the listed ones: decide membership
    call by call. *)
Ltac member_cases H :=
  cbn [In List.app] in H;
  repeat match type of H with
         | _ \/ _ => destruct H as [H|H]
         end;
  try contradiction.

(** ** The Android launcher *)

Module AndroidLauncherFacts.
Import Async Preview AndroidLauncher.

(** C6.  In a run of [launchPreview], every call that is made against an
    emulator port after the start step (polling the boot status, the URL
    intent, the native app launch) carries the port with which
    [startEmulator] resolved; the port handed to [startEmulator] is the one
    [getNextAndroidAdbPort] had allocated. *)
Theorem launchPreview_uses_reported_port
        (utils : AndroidUtils) (preview : PreviewUtils)
        (emulatorName compName projectDir : string)
        (appBundlePath : option string) (targetApp : string)
        (appConfig : option AppPreviewConfig) (serverPort : string)
        (c : call) (p : Z) :
  In c (calls (fst (run utils preview emulatorName compName projectDir
                        appBundlePath targetApp appConfig serverPort))) ->
  portOf c = Some p ->
  exists allocated,
    getNextAndroidAdbPort utils = Fulfilled allocated /\
    In (StartEmulator emulatorName allocated)
       (calls (fst (run utils preview emulatorName compName projectDir
                        appBundlePath targetApp appConfig serverPort))) /\
    startEmulator utils emulatorName allocated = Fulfilled p.
Proof.
  unfold_run.
  repeat (split_run; cbn [fst snd variable calls List.app]);
    intros Hin Hp; member_cases Hin; subst c; try discriminate Hp;
    injection Hp as <-; eexists; (split; [reflexivity|]);
    (split; [cbn [In]; tauto|assumption]).
Qed.

Lemma launchPreview_uses_reported_port_witness :
  In (LaunchURLIntent "http://10.0.2.2:3333/lwc/preview/c/helloWorld" 5574)
     (calls (fst (run Samples.androidUtils Samples.preview "Pixel_API_30"
                      "helloWorld" "/project" None "browser" None "3333"))) /\
  exists allocated,
    getNextAndroidAdbPort Samples.androidUtils = Fulfilled allocated /\
    In (StartEmulator "Pixel_API_30" allocated)
       (calls (fst (run Samples.androidUtils Samples.preview "Pixel_API_30"
                        "helloWorld" "/project" None "browser" None "3333"))) /\
    startEmulator Samples.androidUtils "Pixel_API_30" allocated = Fulfilled 5574.
Proof.
  assert (Hin : In (LaunchURLIntent
                      "http://10.0.2.2:3333/lwc/preview/c/helloWorld" 5574)
                   (calls (fst (run Samples.androidUtils Samples.preview
                                    "Pixel_API_30" "helloWorld" "/project"
                                    None "browser" None "3333")))).
  { vm_compute. tauto. }
  split; [exact Hin|].
  exact (launchPreview_uses_reported_port
           Samples.androidUtils Samples.preview "Pixel_API_30" "helloWorld"
           "/project" None "browser" None "3333" _ 5574 Hin eq_refl).
Defined.

Example launchPreview_sample_log :
  map portOf
      (calls (fst (run Samples.androidUtils Samples.preview "Pixel_API_30"
                       "helloWorld" "/project" None "browser" None "3333")))
  = [None; None; None; None; None; None; None; None; None;
     Some 5574; Some 5574; None].
Proof. reflexivity. Qed.

End AndroidLauncherFacts.

(** ** The launch URL *)

Module LaunchURLFacts.
Import Async Preview.

(** On Android the browser is sent to the host alias of the emulator. *)
Lemma android_browser_url
      (utils : AndroidLauncher.AndroidUtils) (preview : PreviewUtils)
      (emulatorName compName projectDir : string)
      (appBundlePath : option string) (targetApp : string)
      (appConfig : option AppPreviewConfig) (serverPort : string)
      (url : string) (p : Z) :
  useLwcServerForPreviewing preview targetApp appConfig = true ->
  In (AndroidLauncher.LaunchURLIntent url p)
     (calls (fst (AndroidLauncher.run utils preview emulatorName compName
                    projectDir appBundlePath targetApp appConfig serverPort))) ->
  isTargetingBrowser preview targetApp = true /\
  url = "http://10.0.2.2" ++ ":" ++ serverPort ++ "/lwc/preview/"
          ++ prefixRouteIfNeeded preview compName.
Proof.
  intro Hs.
  unfold AndroidLauncher.run, AndroidLauncher.launchPreview,
    AndroidLauncher.launchStep, catchRethrow, AndroidLauncher.startCliAction,
    AndroidLauncher.stopCliAction, bind, perform, read, assign, ret.
  rewrite Hs. cbn [fst snd variable calls List.app interpolate].
  repeat (split_run; cbn [fst snd variable calls List.app]);
    intro Hin; member_cases Hin; try discriminate Hin;
    injection Hin as <- <-; split; reflexivity.
Qed.

(** On iOS the browser is sent to localhost; the route is left out when the
    LWR server is targeted. *)
Lemma ios_browser_url
      (utils : IOSLauncher.IOSUtils) (preview : PreviewUtils)
      (getMessage : string -> list string -> string)
      (simulatorName compName projectDir : string)
      (appBundlePath : option string) (targetApp : string)
      (appConfig : option AppPreviewConfig) (serverPort : string)
      (targetingLwrServer : bool) (udid url : string) :
  useLwcServerForPreviewing preview targetApp appConfig = true ->
  In (IOSLauncher.LaunchURLInBootedSimulator udid url)
     (calls (fst (IOSLauncher.run utils preview getMessage simulatorName
                    compName projectDir appBundlePath targetApp appConfig
                    serverPort targetingLwrServer))) ->
  isTargetingBrowser preview targetApp = true /\
  url = if targetingLwrServer
        then "http://localhost" ++ ":" ++ serverPort
        else "http://localhost" ++ ":" ++ serverPort ++ "/lwc/preview/"
               ++ prefixRouteIfNeeded preview compName.
Proof.
  intro Hs.
  unfold IOSLauncher.run, IOSLauncher.launchPreview, IOSLauncher.launchStep,
    catchRethrow, IOSLauncher.startCliAction, IOSLauncher.updateCliAction,
    IOSLauncher.stopCliAction, bind, perform, read, assign, ret.
  rewrite Hs. cbn [fst snd variable calls List.app interpolate].
  repeat (split_run; cbn [fst snd variable calls List.app]);
    intro Hin; member_cases Hin; try discriminate Hin;
    injection Hin as <- <-; split; reflexivity.
Qed.

(** With the LWR server targeted the iOS launcher opens the bare address:
    the URL has no route although the target is the browser and the server
    is used. *)
Lemma ios_lwr_url_has_no_route :
  isTargetingBrowser Samples.preview "browser" = true /\
  useLwcServerForPreviewing Samples.preview "browser" None = true /\
  In (IOSLauncher.LaunchURLInBootedSimulator "UDID-1" "http://localhost:3333")
     (calls (fst (IOSLauncher.run Samples.iosUtils Samples.preview
                    Samples.getMessage "iPhone 15" "helloWorld" "/project"
                    None "browser" None "3333" true))) /\
  "http://localhost:3333"
  <> "http://localhost" ++ ":" ++ "3333" ++ "/lwc/preview/"
       ++ prefixRouteIfNeeded Samples.preview "helloWorld".
Proof.
  split; [reflexivity|]. split; [reflexivity|]. split.
  - vm_compute. tauto.
  - discriminate.
Qed.

(** C9 (amended).  When the target is the browser and the server is used,
    the launch step of the Android launcher opens
    http://10.0.2.2:<serverPort>/lwc/preview/<route> and the launch step of
    the iOS launcher opens http://localhost:<serverPort>/lwc/preview/<route>,
    or http://localhost:<serverPort> alone when the LWR server is targeted;
    <route> is [prefixRouteIfNeeded] of the component name.  No other URL
    is opened in a run of either [launchPreview], and the two hosts
    differ. *)
Theorem browser_launch_url
        (androidUtils : AndroidLauncher.AndroidUtils)
        (iosUtils : IOSLauncher.IOSUtils) (preview : PreviewUtils)
        (getMessage : string -> list string -> string)
        (deviceName compName projectDir : string)
        (appBundlePath : option string) (targetApp : string)
        (appConfig : option AppPreviewConfig) (serverPort : string)
        (targetingLwrServer : bool) :
  isTargetingBrowser preview targetApp = true ->
  useLwcServerForPreviewing preview targetApp appConfig = true ->
  let route := prefixRouteIfNeeded preview compName in
  let androidURL :=
    "http://10.0.2.2" ++ ":" ++ serverPort ++ "/lwc/preview/" ++ route in
  let iosURL :=
    if targetingLwrServer
    then "http://localhost" ++ ":" ++ serverPort
    else "http://localhost" ++ ":" ++ serverPort ++ "/lwc/preview/" ++ route in
  (forall st,
      AndroidLauncher.launchStep androidUtils preview compName projectDir
        appBundlePath targetApp appConfig serverPort st
      = (mkState (variable st)
           (calls st ++ [AndroidLauncher.LaunchURLIntent androidURL (variable st)]),
         AndroidLauncher.launchURLIntent androidUtils androidURL (variable st))) /\
  (forall st,
      IOSLauncher.launchStep iosUtils preview getMessage compName projectDir
        appBundlePath targetApp appConfig serverPort targetingLwrServer st
      = (mkState (variable st)
           (calls st
              ++ [IOSLauncher.UpdateCliAction
                    (getMessage "launchBrowserStatus" [iosURL]);
                  IOSLauncher.LaunchURLInBootedSimulator (variable st) iosURL]),
         IOSLauncher.launchURLInBootedSimulator iosUtils (variable st) iosURL)) /\
  (forall url p,
      In (AndroidLauncher.LaunchURLIntent url p)
         (calls (fst (AndroidLauncher.run androidUtils preview deviceName
                        compName projectDir appBundlePath targetApp appConfig
                        serverPort))) ->
      url = androidURL) /\
  (forall udid url,
      In (IOSLauncher.LaunchURLInBootedSimulator udid url)
         (calls (fst (IOSLauncher.run iosUtils preview getMessage deviceName
                        compName projectDir appBundlePath targetApp appConfig
                        serverPort targetingLwrServer))) ->
      url = iosURL) /\
  "http://10.0.2.2" <> "http://localhost".
Proof.
  intros Hb Hs route androidURL iosURL.
  split; [|split; [|split; [|split]]].
  - intros [v l]. unfold AndroidLauncher.launchStep.
    rewrite Hb, Hs. reflexivity.
  - intros [v l]. unfold IOSLauncher.launchStep.
    rewrite Hb, Hs. subst iosURL.
    destruct targetingLwrServer;
      unfold bind, IOSLauncher.updateCliAction, perform, read;
      cbn [fst snd variable calls interpolate]; now rewrite <- app_assoc.
  - intros url p Hin.
    exact (proj2 (android_browser_url androidUtils preview deviceName compName
                    projectDir appBundlePath targetApp appConfig serverPort
                    url p Hs Hin)).
  - intros udid url Hin.
    exact (proj2 (ios_browser_url iosUtils preview getMessage deviceName
                    compName projectDir appBundlePath targetApp appConfig
                    serverPort targetingLwrServer udid url Hs Hin)).
  - discriminate.
Qed.

Lemma browser_launch_url_witness :
  In (AndroidLauncher.LaunchURLIntent
        "http://10.0.2.2:3333/lwc/preview/c/helloWorld" 5574)
     (calls (fst (AndroidLauncher.run Samples.androidUtils Samples.preview
                    "Pixel" "helloWorld" "/project" None "browser" None
                    "3333"))) /\
  (forall udid url,
      In (IOSLauncher.LaunchURLInBootedSimulator udid url)
         (calls (fst (IOSLauncher.run Samples.iosUtils Samples.preview
                        Samples.getMessage "Pixel" "helloWorld" "/project"
                        None "browser" None "3333" false))) ->
      url = "http://localhost:3333/lwc/preview/c/helloWorld") /\
  In (IOSLauncher.LaunchURLInBootedSimulator "UDID-1"
        "http://localhost:3333/lwc/preview/c/helloWorld")
     (calls (fst (IOSLauncher.run Samples.iosUtils Samples.preview
                    Samples.getMessage "Pixel" "helloWorld" "/project"
                    None "browser" None "3333" false))).
Proof.
  pose proof (browser_launch_url Samples.androidUtils Samples.iosUtils
                Samples.preview Samples.getMessage "Pixel" "helloWorld"
                "/project" None "browser" None "3333" false eq_refl eq_refl)
    as [_ [_ [_ [Hios _]]]].
  split; [vm_compute; tauto|]. split; [exact Hios|].
  vm_compute. tauto.
Defined.

End LaunchURLFacts.

(** * Further properties *)

(** ** [Version.compare], [same], [sameOrNewer] *)

Module CompareExtraFacts.
Import JSString Version VersionSpec.

Lemma compare_versions_weight (lc : string -> string -> Z)
      (a b : Version.Version) :
  compare lc (OfVersion a) (OfVersion b)
  = Return (match weight a ?= weight b with Eq => 0 | Lt => -1 | Gt => 1 end).
Proof.
  unfold compare, weight.
  destruct (Z.compare_spec (major a * 100 + minor a * 10 + patch a)
                           (major b * 100 + minor b * 10 + patch b))
    as [E|L|G].
  - rewrite E, Z.eqb_refl. reflexivity.
  - destruct (Z.eqb_spec (major a * 100 + minor a * 10 + patch a)
                         (major b * 100 + minor b * 10 + patch b)); [lia|].
    destruct (Z.ltb_spec (major a * 100 + minor a * 10 + patch a)
                         (major b * 100 + minor b * 10 + patch b));
      [reflexivity|lia].
  - destruct (Z.eqb_spec (major a * 100 + minor a * 10 + patch a)
                         (major b * 100 + minor b * 10 + patch b)); [lia|].
    destruct (Z.ltb_spec (major a * 100 + minor a * 10 + patch a)
                         (major b * 100 + minor b * 10 + patch b));
      [lia|reflexivity].
Qed.

Lemma compare_parsed (lc : string -> string -> Z) (v1 v2 : VersionOrString)
      (a b : Version.Version) :
  parsed v1 = Some a -> parsed v2 = Some b ->
  compare lc v1 v2 = compare lc (OfVersion a) (OfVersion b).
Proof.
  unfold parsed, compare. destruct v1, v2; intros H1 H2;
    try injection H1 as ->; try injection H2 as ->;
    try rewrite H1; try rewrite H2; reflexivity.
Qed.

(** X1.  Swapping the arguments of [compare] flips the sign of the result,
    and a comparison that throws still throws, whenever the collator agrees
    with itself on which pairs are equal. *)
Theorem compare_antisymmetric (lc : string -> string -> Z)
        (v1 v2 : VersionOrString) :
  (forall a b, lc a b = 0 <-> lc b a = 0) ->
  compare lc v2 v1 = negate (compare lc v1 v2).
Proof.
  intro Hsym.
  destruct (parsed v1) as [a|] eqn:E1, (parsed v2) as [b|] eqn:E2.
  - rewrite (compare_parsed lc v1 v2 a b E1 E2),
      (compare_parsed lc v2 v1 b a E2 E1), !compare_versions_weight.
    rewrite (Z.compare_antisym (weight a) (weight b)).
    destruct (weight a ?= weight b); reflexivity.
  - unfold parsed in *. destruct v1, v2; try discriminate;
      unfold compare; try rewrite E1; try rewrite E2; reflexivity.
  - unfold parsed in *. destruct v1, v2; try discriminate;
      unfold compare; try rewrite E1; try rewrite E2; reflexivity.
  - unfold parsed in *. destruct v1, v2; try discriminate.
    unfold compare. rewrite E1, E2. simpl.
    destruct (Z.eqb_spec (lc s s0) 0) as [H|H];
      destruct (Z.eqb_spec (lc s0 s) 0) as [H'|H']; try reflexivity.
    + apply Hsym in H. contradiction.
    + apply Hsym in H'. contradiction.
Qed.

Lemma sampleCollator_symmetric (a b : string) :
  sampleCollator a b = 0 <-> sampleCollator b a = 0.
Proof.
  unfold sampleCollator.
  rewrite (String.compare_antisym (toLowerCase b) (toLowerCase a)).
  destruct (String.compare (toLowerCase a) (toLowerCase b)); simpl;
    split; intro H; try reflexivity; discriminate.
Qed.

Lemma compare_antisymmetric_witness :
  compare sampleCollator (OfString "30") (OfString "28.0.1") = Return 1 /\
  compare sampleCollator (OfString "28.0.1") (OfString "30")
  = negate (compare sampleCollator (OfString "30") (OfString "28.0.1")).
Proof.
  split; [reflexivity|].
  apply (compare_antisymmetric sampleCollator (OfString "30")
           (OfString "28.0.1") sampleCollator_symmetric).
Defined.

(** X2.  [compare] throws only when both arguments are strings that do not
    parse, and a result it returns is -1, 0 or 1. *)
Theorem compare_result_range (lc : string -> string -> Z)
        (v1 v2 : VersionOrString) :
  (forall e, compare lc v1 v2 = Throw e ->
             e = codenameError /\ parsed v1 = None /\ parsed v2 = None) /\
  (forall n, compare lc v1 v2 = Return n -> n = -1 \/ n = 0 \/ n = 1).
Proof.
  unfold compare, parsed. split.
  - intros e. destruct v1, v2;
      repeat match goal with
             | |- context [from ?s] => destruct (from s)
             | |- context [if ?b then _ else _] => destruct b
             end; intro H; try discriminate H; injection H as <-; auto.
  - intros n. destruct v1, v2;
      repeat match goal with
             | |- context [from ?s] => destruct (from s)
             | |- context [if ?b then _ else _] => destruct b
             end; intro H; try discriminate H; injection H as <-; auto.
Qed.

(** X3.  On parsed versions [sameOrNewer] is a total preorder: it is
    reflexive, any two versions are related one way or the other, and it is
    transitive; [same] holds exactly when it holds both ways. *)
Theorem sameOrNewer_total_preorder (lc : string -> string -> Z)
        (a b c : Version.Version) :
  sameOrNewer lc (OfVersion a) (OfVersion a) = Return true /\
  (sameOrNewer lc (OfVersion a) (OfVersion b) = Return true \/
   sameOrNewer lc (OfVersion b) (OfVersion a) = Return true) /\
  (sameOrNewer lc (OfVersion a) (OfVersion b) = Return true ->
   sameOrNewer lc (OfVersion b) (OfVersion c) = Return true ->
   sameOrNewer lc (OfVersion a) (OfVersion c) = Return true) /\
  (same lc (OfVersion a) (OfVersion b) = Return true <->
   sameOrNewer lc (OfVersion a) (OfVersion b) = Return true /\
   sameOrNewer lc (OfVersion b) (OfVersion a) = Return true).
Proof.
  unfold sameOrNewer, same. rewrite !compare_versions_weight.
  rewrite (Z.compare_refl (weight a)).
  destruct (Z.compare_spec (weight a) (weight b)) as [E1|L1|G1];
    destruct (Z.compare_spec (weight b) (weight c)) as [E2|L2|G2];
    destruct (Z.compare_spec (weight a) (weight c)) as [E3|L3|G3];
    destruct (Z.compare_spec (weight b) (weight a)) as [E4|L4|G4];
    try lia; simpl; repeat split; auto; try discriminate;
    intros; try tauto; try discriminate;
    match goal with H : _ /\ _ |- _ => destruct H; discriminate end.
Qed.

End CompareExtraFacts.

(** ** The language of [Version.from] *)

Module FromExtraFacts.
Import JSString Version VersionSpec NumeralFacts VersionFacts.

Lemma app_nil_inv (a b : string) : a ++ b = "" -> a = "" /\ b = "".
Proof. destruct a; simpl; [auto|discriminate]. Qed.

(** When [\d*] fails, the rest of the pattern fails after every run of
    digits it could have taken. *)
Lemma digitsStar_none {R : Type} (s : string)
      (k : string -> string -> option R) :
  digitsStar s k = None ->
  forall m rest, s = m ++ rest -> allDigits m = true -> k m rest = None.
Proof.
  revert k. induction s as [|c r IH]; intros k H m rest Hs Hm.
  - symmetry in Hs. apply app_nil_inv in Hs. destruct Hs as [-> ->].
    exact H.
  - simpl in H. destruct m as [|c' m'].
    + simpl in Hs. subst rest.
      destruct (isDigit c);
        [destruct (digitsStar r (fun m rest => k (String c m) rest));
         [discriminate|]|]; exact H.
    + simpl in Hs. injection Hs as <- ->. simpl in Hm.
      apply andb_true_iff in Hm. destruct Hm as [Hc Hm']. rewrite Hc in H.
      destruct (digitsStar (m' ++ rest) (fun m rest => k (String c m) rest))
        eqn:E; [discriminate|].
      exact (IH _ E m' rest eq_refl Hm').
Qed.

(** When [\d*] succeeds, it took a run of digits after which the rest of the
    pattern succeeds, and the rest fails after every longer run. *)
Lemma digitsStar_some {R : Type} (s : string)
      (k : string -> string -> option R) (x : R) :
  digitsStar s k = Some x ->
  exists m rest,
    s = m ++ rest /\ allDigits m = true /\ k m rest = Some x /\
    forall m2 rest2, rest = m2 ++ rest2 -> m2 <> "" -> allDigits m2 = true ->
                     k (m ++ m2) rest2 = None.
Proof.
  revert k. induction s as [|c r IH]; intros k H; simpl in H.
  - exists "", "". repeat split; try assumption.
    intros m2 rest2 Hs Hne _. symmetry in Hs. apply app_nil_inv in Hs.
    destruct Hs as [-> _]. congruence.
  - destruct (isDigit c) eqn:Hc.
    + destruct (digitsStar r (fun m rest => k (String c m) rest)) eqn:E.
      * injection H as ->.
        destruct (IH _ E) as [m [rest [Hs [Hm [Hk Hp]]]]].
        exists (String c m), rest. simpl. rewrite Hc, Hm, Hs.
        repeat split; try assumption.
      * exists "", (String c r). repeat split; try assumption.
        intros m2 rest2 Hs Hne Hm2. destruct m2 as [|c' m2']; [congruence|].
        simpl in Hs. injection Hs as <- ->. simpl in Hm2.
        apply andb_true_iff in Hm2.
        exact (digitsStar_none _ _ E m2' rest2 eq_refl (proj2 Hm2)).
    + exists "", (String c r). repeat split; try assumption.
      intros m2 rest2 Hs Hne Hm2. destruct m2 as [|c' m2']; [congruence|].
      simpl in Hs. injection Hs as <- ->. simpl in Hm2.
      rewrite Hc in Hm2. discriminate.
Qed.

Lemma number_some {R : Type} (s : string)
      (k : string -> string -> option R) (x : R) :
  number s k = Some x ->
  exists m rest,
    s = m ++ rest /\ isNumeral m = true /\ k m rest = Some x /\
    (m <> "0" ->
     forall m2 rest2, rest = m2 ++ rest2 -> m2 <> "" -> allDigits m2 = true ->
                      k (m ++ m2) rest2 = None).
Proof.
  unfold number. destruct s as [|c r]; [discriminate|].
  destruct (Ascii.eqb_spec c "0") as [->|Hc].
  - destruct (k "0" r) eqn:E.
    + intro H. injection H as ->. exists "0", r.
      repeat split; try assumption. congruence.
    + discriminate.
  - destruct (isNonZeroDigit c) eqn:Hn; [|discriminate].
    intro H. apply digitsStar_some in H.
    destruct H as [m [rest [Hs [Hm [Hk Hp]]]]].
    exists (String c m), rest. simpl.
    apply Ascii.eqb_neq in Hc. rewrite Hc, Hn, Hm, Hs.
    repeat split; try assumption. intros _. exact Hp.
Qed.

Lemma number_not_digit {R : Type} (c : ascii) (r : string)
      (k : string -> string -> option R) :
  isDigit c = false -> number (String c r) k = None.
Proof.
  intro H. unfold number.
  destruct (Ascii.eqb_spec c "0") as [->|_]; [discriminate|].
  destruct (isNonZeroDigit c) eqn:E; [|reflexivity].
  apply isNonZeroDigit_isDigit in E. destruct E; congruence.
Qed.

Lemma numeral_not_empty (x : string) : isNumeral x = true -> x <> "".
Proof. destruct x; [discriminate|discriminate]. Qed.

(** Every match of the version pattern has one of the four shapes. *)
Lemma exec_accepted (s : string) (g : Groups) :
  versionRegex_exec s = Some g -> Accepted s g.
Proof.
  unfold versionRegex_exec. intro H. apply number_some in H.
  destruct H as [m [s1 [-> [Hm [Hk Hp]]]]]. cbv beta zeta in Hk.
  destruct s1 as [|c r].
  - unfold backreference, number in Hk. injection Hk as <-.
    rewrite app_empty_r. now constructor.
  - destruct (isSeparator c) eqn:Hc.
    + destruct (number r _) eqn:E in Hk.
      * injection Hk as ->. apply number_some in E.
        destruct E as [y [s2 [-> [Hy [Hk2 _]]]]].
        destruct s2 as [|c' r'].
        -- unfold backreference in Hk2. injection Hk2 as <-.
           rewrite app_empty_r. now constructor.
        -- unfold backreference in Hk2.
           destruct (Ascii.eqb_spec c c') as [<-|Hne].
           ++ destruct (number r' _) eqn:E3 in Hk2; [|discriminate].
              injection Hk2 as ->. apply number_some in E3.
              destruct E3 as [z [s3 [-> [Hz [Hk3 _]]]]].
              destruct s3; [|discriminate]. injection Hk3 as <-.
              rewrite app_empty_r. now constructor.
           ++ discriminate.
      * unfold backreference in Hk.
        rewrite (number_not_digit c r _ (separator_not_digit c Hc)) in Hk.
        discriminate.
    + unfold backreference in Hk.
      destruct (number (String c r) _) eqn:E in Hk; [|discriminate].
      injection Hk as ->. apply number_some in E.
      destruct E as [z [s3 [Hs [Hz [Hk3 _]]]]].
      destruct s3; [|discriminate]. injection Hk3 as <-.
      rewrite app_empty_r in Hs. rewrite Hs.
      destruct (string_dec m "0") as [->|Hne].
      * now constructor.
      * specialize (Hp Hne z "" (eq_sym (eq_trans (app_empty_r z) (eq_sym Hs)))
                      (numeral_not_empty z Hz) (isNumeral_allDigits z Hz)).
        discriminate.
Qed.

Lemma accepted_exec (s : string) (g : Groups) :
  Accepted s g -> versionRegex_exec s = Some g.
Proof.
  intros [x Hx|x y c Hx Hy Hc|x y z c Hx Hy Hz Hc|y Hy].
  - now apply exec_one.
  - now apply exec_two.
  - now apply exec_three.
  - exact (proj1 (RoundTripFacts.from_zero_then_numeral y Hy)).
Qed.

Lemma from_accepted (s : string) (v : Version.Version) :
  from s = Some v ->
  exists g, Accepted (trim s) g /\ v = versionOfGroups g.
Proof.
  unfold from.
  destruct (versionRegex_exec (trim s)) as [g|] eqn:E; [|discriminate].
  intro H. injection H as <-. exists g. split; [|reflexivity].
  now apply exec_accepted.
Qed.

(** X4.  [Version.from] accepts exactly the texts that, once trimmed, are a
    numeral, two numerals around a dot or a dash, three numerals with the
    same separator twice, or a zero followed at once by a numeral; when the
    numbers of the groups lie in the exact integer range of the platform's
    numbers, the version it builds holds them, with 0 for a group that is
    missing. *)
Theorem from_accepts_exactly (s : string) :
  (from s <> None <-> exists g, Accepted (trim s) g) /\
  (forall g, Accepted (trim s) g -> safeGroups g = true ->
             from s = Some (versionOfGroups g)) /\
  (forall v, from s = Some v ->
             exists g, Accepted (trim s) g /\
                       (safeGroups g = true -> v = versionOfGroups g)).
Proof.
  split; [split|split].
  - intro H. destruct (from s) as [v|] eqn:E; [|congruence].
    destruct (from_accepted s v E) as [g [Ha _]]. now exists g.
  - intros [g Ha]. unfold from. rewrite (accepted_exec _ _ Ha). discriminate.
  - intros g Ha _. unfold from. now rewrite (accepted_exec _ _ Ha).
  - intros v E. destruct (from_accepted s v E) as [g [Ha Hv]].
    exists g. split; [exact Ha|]. intros _. exact Hv.
Qed.

Lemma separatorsOf_app (a b : string) :
  separatorsOf (a ++ b) = (separatorsOf a ++ separatorsOf b)%list.
Proof.
  induction a as [|c a IH]; simpl; [reflexivity|].
  destruct (isSeparator c); simpl; now rewrite IH.
Qed.

Lemma separatorsOf_digits (x : string) :
  allDigits x = true -> separatorsOf x = [].
Proof.
  induction x as [|c x IH]; simpl; [reflexivity|].
  intro H. apply andb_true_iff in H. destruct H as [Hc Hx].
  destruct (isSeparator c) eqn:E; [|now apply IH].
  apply separator_not_digit in E. congruence.
Qed.

Lemma separatorsOf_numeral (x : string) :
  isNumeral x = true -> separatorsOf x = [].
Proof. intro H. now apply separatorsOf_digits, isNumeral_allDigits. Qed.

(** X5.  A text [Version.from] accepts holds at most two separators, and
    they are the same character: mixed separators and a fourth component are
    always rejected. *)
Theorem from_separators (s : string) (v : Version.Version) :
  from s = Some v ->
  exists (c : ascii) (n : nat),
    (n <= 2)%nat /\ separatorsOf (trim s) = repeat c n.
Proof.
  intro H. apply from_accepted in H. destruct H as [g [Ha _]].
  destruct Ha as [x Hx|x y c Hx Hy Hc|x y z c Hx Hy Hz Hc|y Hy].
  - exists "."%char, 0%nat. split; [lia|]. now apply separatorsOf_numeral.
  - exists c, 1%nat. split; [lia|].
    rewrite separatorsOf_app. simpl. rewrite Hc.
    now rewrite (separatorsOf_numeral x Hx), (separatorsOf_numeral y Hy).
  - exists c, 2%nat. split; [lia|].
    rewrite separatorsOf_app. simpl. rewrite Hc, separatorsOf_app. simpl.
    rewrite Hc.
    now rewrite (separatorsOf_numeral x Hx), (separatorsOf_numeral y Hy),
      (separatorsOf_numeral z Hz).
  - exists "."%char, 0%nat. split; [lia|].
    simpl. now apply separatorsOf_numeral.
Qed.

Lemma from_separators_witness :
  exists (c : ascii) (n : nat),
    (n <= 2)%nat /\ separatorsOf (trim " 13-3-1 ") = repeat c n.
Proof.
  exact (from_separators " 13-3-1 " (mkVersion 13 3 1) eq_refl).
Defined.

Lemma from_accepts_exactly_witness :
  from " 4.5" = Some (mkVersion 4 5 0).
Proof.
  exact (proj1 (proj2 (from_accepts_exactly " 4.5"))
               (mkGroups "4" (Some "."%char) (Some "5") None)
               (AcceptedMinor "4" "5" "." eq_refl eq_refl eq_refl) eq_refl).
Defined.

Lemma trimStart_allWhiteSpace (w t : string) :
  allWhiteSpace w = true -> trimStart (w ++ t) = trimStart t.
Proof.
  induction w as [|c w IH]; simpl; [reflexivity|].
  intro H. apply andb_true_iff in H. destruct H as [Hc Hw].
  now rewrite Hc, IH.
Qed.

Lemma trimEnd_allWhiteSpace (w : string) :
  allWhiteSpace w = true -> trimEnd w = "".
Proof.
  induction w as [|c w IH]; simpl; [reflexivity|].
  intro H. apply andb_true_iff in H. destruct H as [Hc Hw].
  now rewrite (IH Hw), Hc.
Qed.

Lemma trimEnd_app_allWhiteSpace (t w : string) :
  allWhiteSpace w = true -> trimEnd (t ++ w) = trimEnd t.
Proof.
  intro Hw. induction t as [|c t IH]; simpl.
  - now apply trimEnd_allWhiteSpace.
  - now rewrite IH.
Qed.

Lemma trimStart_app (s w : string) :
  trimStart (s ++ w)
  = if allWhiteSpace s then trimStart w else trimStart s ++ w.
Proof.
  induction s as [|c s IH]; simpl; [reflexivity|].
  destruct (isWhiteSpace c); simpl; [exact IH|reflexivity].
Qed.

Lemma trimStart_allWhiteSpace_nil (w : string) :
  allWhiteSpace w = true -> trimStart w = "".
Proof.
  intro H. rewrite <- (app_empty_r w).
  now rewrite trimStart_allWhiteSpace.
Qed.

(** Padding a text with white space does not change what [trim] returns. *)
Lemma trim_padding (w1 s w2 : string) :
  allWhiteSpace w1 = true -> allWhiteSpace w2 = true ->
  trim (w1 ++ s ++ w2) = trim s.
Proof.
  intros H1 H2. unfold trim.
  rewrite (trimStart_allWhiteSpace w1 _ H1), trimStart_app.
  destruct (allWhiteSpace s) eqn:E.
  - now rewrite (trimStart_allWhiteSpace_nil w2 H2),
      (trimStart_allWhiteSpace_nil s E).
  - now apply trimEnd_app_allWhiteSpace.
Qed.

(** X6.  White space around a version text is ignored: the padded text
    parses to what the text itself parses to, a version or nothing. *)
Theorem from_ignores_padding (w1 s w2 : string) :
  allWhiteSpace w1 = true -> allWhiteSpace w2 = true ->
  from (w1 ++ s ++ w2) = from s.
Proof.
  intros H1 H2. unfold from. now rewrite (trim_padding w1 s w2 H1 H2).
Qed.

Lemma from_ignores_padding_witness :
  from ("  " ++ "10.15.7" ++ " ") = from "10.15.7".
Proof. exact (from_ignores_padding "  " "10.15.7" " " eq_refl eq_refl). Defined.

Lemma digitPrefix_string_of_uint (d : uint) :
  digitPrefix (NilEmpty.string_of_uint d) = d.
Proof. induction d; simpl; congruence. Qed.

Lemma allDigits_string_of_uint (d : uint) :
  allDigits (NilEmpty.string_of_uint d) = true.
Proof. induction d; simpl; auto. Qed.

(** The decimal digits of a positive number start with a digit that is not
    zero. *)
Lemma numeral_of_positive (p : positive) :
  isNumeral (NilEmpty.string_of_uint (Pos.to_uint p)) = true.
Proof.
  assert (Hn : unorm (Pos.to_uint p) = Pos.to_uint p).
  { rewrite <- (DecimalPos.Unsigned.to_of (Pos.to_uint p)).
    now rewrite DecimalPos.Unsigned.of_to. }
  pose proof (DecimalPos.Unsigned.to_uint_nonnil p) as Hnil.
  pose proof (DecimalPos.Unsigned.to_uint_nonzero p) as Hzero.
  destruct (Pos.to_uint p) as [|d|d|d|d|d|d|d|d|d|d] eqn:E;
    try congruence; simpl; try apply allDigits_string_of_uint.
  exfalso. unfold unorm in Hn. simpl in Hn.
  destruct (nzhead d) eqn:Ez.
  - apply Hzero. congruence.
  - exact (DecimalFacts.nzhead_nonzero d u Ez).
  - discriminate.
  - discriminate.
  - discriminate.
  - discriminate.
  - discriminate.
  - discriminate.
  - discriminate.
  - discriminate.
  - discriminate.
Qed.

Lemma numberToString_numeral (z : Z) :
  0 <= z ->
  isNumeral (numberToString z) = true /\ parseInt10 (numberToString z) = z.
Proof.
  intro Hz. unfold numberToString, parseInt10.
  destruct z as [|p|p]; [split; reflexivity| |lia].
  simpl Z.to_int. unfold NilZero.string_of_int, NilZero.string_of_uint.
  pose proof (DecimalPos.Unsigned.to_uint_nonnil p) as Hnil.
  destruct (Pos.to_uint p) eqn:E; try congruence; rewrite <- E; split;
    try apply numeral_of_positive;
    rewrite digitPrefix_string_of_uint;
    change (Z.of_uint (Pos.to_uint p)) with (Z.of_N (Pos.of_uint (Pos.to_uint p)));
    now rewrite DecimalPos.Unsigned.of_to.
Qed.

(** X7.  Printing a version whose components are not negative (and lie in
    the exact integer range of the platform's numbers) and parsing the text
    gives the version back. *)
Theorem from_toString (v : Version.Version) :
  0 <= major v -> 0 <= minor v -> 0 <= patch v ->
  isSafeInteger (major v) = true -> isSafeInteger (minor v) = true ->
  isSafeInteger (patch v) = true ->
  from (toString v) = Some v.
Proof.
  destruct v as [x y z]. simpl. intros Hx Hy Hz _ _ _. unfold toString. simpl.
  destruct (numberToString_numeral x Hx) as [Nx Px].
  destruct (numberToString_numeral y Hy) as [Ny Py].
  destruct (numberToString_numeral z Hz) as [Nz Pz].
  change (numberToString x ++ String "." (numberToString y ++ String "." (numberToString z)))
    with (numberToString x ++ String "."%char (numberToString y ++ String "."%char (numberToString z))).
  rewrite (from_three _ _ _ "."%char Nx Ny Nz eq_refl).
  now rewrite Px, Py, Pz.
Qed.

Lemma from_toString_witness :
  from (toString (mkVersion 17 0 5)) = Some (mkVersion 17 0 5).
Proof.
  apply (from_toString (mkVersion 17 0 5)); simpl; try lia; reflexivity.
Defined.

End FromExtraFacts.

(** ** [MapUtils.filter] and [SetUtils.filter] *)

Module CollectionFacts.
Import Collections.

Section Keyed.
Context {K V : Type}.
Variable keyEqb : K -> K -> bool.
Hypothesis keyEqb_spec : forall a b, reflect (a = b) (keyEqb a b).

(** Setting a key that is absent appends the entry. *)
Lemma mapSet_fresh (m : @JSMap K V) (k : K) (v : V) :
  ~ In k (map fst m) -> mapSet keyEqb m k v = (m ++ [(k, v)])%list.
Proof.
  induction m as [|[k' v'] r IH]; simpl; intro H; [reflexivity|].
  destruct (keyEqb_spec k' k) as [->|_]; [tauto|].
  rewrite IH; [reflexivity|tauto].
Qed.

Lemma mapFilter_fold (m : @JSMap K V) (p : K -> V -> bool) (acc : JSMap) :
  NoDup (map fst (acc ++ m)) ->
  fold_left (fun aMap entry =>
               if p (fst entry) (snd entry)
               then mapSet keyEqb aMap (fst entry) (snd entry)
               else aMap) m acc
  = (acc ++ filter (fun entry => p (fst entry) (snd entry)) m)%list.
Proof.
  revert acc. induction m as [|[k v] r IH]; intros acc H; simpl.
  - now rewrite app_nil_r.
  - assert (Hk : ~ In k (map fst acc)).
    { rewrite map_app in H. simpl in H.
      apply NoDup_remove_2 in H. intro Hin. apply H.
      apply in_or_app. now left. }
    destruct (p k v).
    + rewrite (mapSet_fresh acc k v Hk), IH.
      * now rewrite <- app_assoc.
      * now rewrite <- app_assoc.
    + apply IH. rewrite map_app in *. simpl in H.
      now apply NoDup_remove_1 in H.
Qed.

Lemma NoDup_filter_keys (m : @JSMap K V) (f : K * V -> bool) :
  NoDup (map fst m) -> NoDup (map fst (filter f m)).
Proof.
  induction m as [|e r IH]; simpl; intro H; [constructor|].
  inversion H as [|? ? Hn Hr]; subst.
  destruct (f e); simpl; [|now apply IH].
  constructor; [|now apply IH].
  intro Hin. apply Hn. apply in_map_iff in Hin.
  destruct Hin as [x [Hx Hin]]. apply filter_In in Hin.
  apply in_map_iff. exists x. tauto.
Qed.

(** X8.  [MapUtils.filter] of a map returns the entries the predicate
    accepts, in their order, and nothing else; its keys are again distinct;
    filtering the result with a second predicate is filtering once with
    both; a missing map gives the empty map. *)
Theorem mapFilter_entries (m : @JSMap K V) (p q : K -> V -> bool) :
  NoDup (map fst m) ->
  mapFilter keyEqb (Some m) p
  = filter (fun entry => p (fst entry) (snd entry)) m /\
  NoDup (map fst (mapFilter keyEqb (Some m) p)) /\
  mapFilter keyEqb (Some (mapFilter keyEqb (Some m) p)) q
  = mapFilter keyEqb (Some m) (fun k v => p k v && q k v) /\
  mapFilter keyEqb None p = [].
Proof.
  intro H.
  assert (E : forall (m' : JSMap) (p' : K -> V -> bool),
             NoDup (map fst m') ->
             mapFilter keyEqb (Some m') p'
             = filter (fun entry => p' (fst entry) (snd entry)) m').
  { intros m' p' H'. unfold mapFilter. now rewrite mapFilter_fold. }
  split; [now apply E|]. split.
  - rewrite (E m p H). now apply NoDup_filter_keys.
  - split; [|reflexivity].
    rewrite (E m p H), (E m _ H), E by (now apply NoDup_filter_keys).
    induction m as [|e r IH]; simpl; [reflexivity|].
    inversion H; subst.
    destruct (p (fst e) (snd e)); simpl;
      [destruct (q (fst e) (snd e)); simpl|]; now rewrite IH.
Qed.

Lemma setAdd_fresh (s : JSSet) (x : K) :
  ~ In x s -> setAdd keyEqb s x = (s ++ [x])%list.
Proof.
  induction s as [|y r IH]; simpl; intro H; [reflexivity|].
  destruct (keyEqb_spec y x) as [->|_]; [tauto|].
  rewrite IH; [reflexivity|tauto].
Qed.

Lemma setFilter_fold (s : @JSSet K) (p : K -> bool) (acc : JSSet) :
  NoDup (acc ++ s) ->
  fold_left (fun aSet (entry : K * K) =>
               if p (fst entry) then setAdd keyEqb aSet (fst entry) else aSet)
            (map (fun v => (v, v)) s) acc
  = (acc ++ filter p s)%list.
Proof.
  revert acc. induction s as [|x r IH]; intros acc H; simpl.
  - now rewrite app_nil_r.
  - assert (Hx : ~ In x acc).
    { apply NoDup_remove_2 in H. intro Hin. apply H.
      apply in_or_app. now left. }
    destruct (p x).
    + rewrite (setAdd_fresh acc x Hx), IH.
      * now rewrite <- app_assoc.
      * now rewrite <- app_assoc.
    + apply IH. now apply NoDup_remove_1 in H.
Qed.

(** X9.  [SetUtils.filter] of a set returns the values the predicate
    accepts, in their order; a value is in the result exactly when it is in
    the set and accepted; the result has no value twice; a missing set gives
    the empty set. *)
Theorem setFilter_values (s : @JSSet K) (p : K -> bool) :
  NoDup s ->
  setFilter keyEqb (Some s) p = filter p s /\
  (forall x, In x (setFilter keyEqb (Some s) p) <-> In x s /\ p x = true) /\
  NoDup (setFilter keyEqb (Some s) p) /\
  setFilter keyEqb None p = [].
Proof.
  intro H.
  assert (E : setFilter keyEqb (Some s) p = filter p s).
  { unfold setFilter. now rewrite setFilter_fold. }
  rewrite E. split; [reflexivity|]. split; [|split].
  - intro x. apply filter_In.
  - now apply NoDup_filter.
  - reflexivity.
Qed.

End Keyed.

Lemma string_eqb_reflect (a b : string) : reflect (a = b) (String.eqb a b).
Proof. apply String.eqb_spec. Qed.

Lemma mapFilter_entries_witness :
  mapFilter String.eqb
            (Some [("ios", 17); ("android", 34); ("desktop", 0)])
            (fun _ v => 0 <? v)
  = [("ios", 17); ("android", 34)].
Proof.
  apply (proj1 (mapFilter_entries String.eqb string_eqb_reflect
                  [("ios", 17); ("android", 34); ("desktop", 0)]
                  (fun _ v => 0 <? v) (fun _ _ => true)
                  ltac:(repeat constructor; simpl; intuition discriminate))).
Defined.

Lemma setFilter_values_witness :
  setFilter String.eqb (Some ["ios"; "android"; "desktop"])
            (fun v => negb (String.eqb v "desktop"))
  = ["ios"; "android"].
Proof.
  apply (proj1 (setFilter_values String.eqb string_eqb_reflect
                  ["ios"; "android"; "desktop"]
                  (fun v => negb (String.eqb v "desktop"))
                  ltac:(repeat constructor; simpl; intuition discriminate))).
Defined.

End CollectionFacts.

(** ** Platform flags and [resolveFlag] *)

Module CommandLineFacts.
Import JSString VersionSpec CommandLineUtils VersionFacts FromExtraFacts.

Lemma lowerCodeUnit_whiteSpace (c : ascii) :
  isWhiteSpace (lowerCodeUnit c) = isWhiteSpace c.
Proof. destruct c as [[] [] [] [] [] [] [] []]; reflexivity. Qed.

Lemma noWhiteSpace_lower (s : string) :
  noWhiteSpace (toLowerCaseLatin1 s) = noWhiteSpace s.
Proof.
  induction s as [|c s IH]; simpl; [reflexivity|].
  now rewrite lowerCodeUnit_whiteSpace, IH.
Qed.

(** A spelling of a flag word in any letter case, padded with white space,
    lowers to the word once trimmed. *)
Lemma lowered_padded (w1 s w2 word : string) :
  noWhiteSpace word = true ->
  toLowerCaseLatin1 s = word ->
  allWhiteSpace w1 = true -> allWhiteSpace w2 = true ->
  toLowerCaseLatin1 (trim (w1 ++ s ++ w2)) = word.
Proof.
  intros Hw Hs H1 H2. rewrite (trim_padding w1 s w2 H1 H2).
  rewrite trim_noWhiteSpace; [exact Hs|].
  now rewrite <- noWhiteSpace_lower, Hs.
Qed.

(** X10.  A platform flag is recognised in any letter case and with white
    space around it: a text that lowers to "ios" (to "android", to
    "desktop") is recognised as iOS (Android, Desktop) however it is
    padded. *)
Theorem platform_flag_spelling (w1 s w2 : string) :
  allWhiteSpace w1 = true -> allWhiteSpace w2 = true ->
  (toLowerCaseLatin1 s = IOS_FLAG ->
   platformFlagIsIOS (Some (w1 ++ s ++ w2)) = true) /\
  (toLowerCaseLatin1 s = ANDROID_FLAG ->
   platformFlagIsAndroid (Some (w1 ++ s ++ w2)) = true) /\
  (toLowerCaseLatin1 s = DESKTOP_FLAG ->
   platformFlagIsDesktop (Some (w1 ++ s ++ w2)) = true).
Proof.
  intros H1 H2.
  unfold platformFlagIsIOS, platformFlagIsAndroid, platformFlagIsDesktop,
    orEmpty.
  split; [|split]; intro Hs.
  - now rewrite (lowered_padded w1 s w2 IOS_FLAG eq_refl Hs H1 H2).
  - now rewrite (lowered_padded w1 s w2 ANDROID_FLAG eq_refl Hs H1 H2).
  - now rewrite (lowered_padded w1 s w2 DESKTOP_FLAG eq_refl Hs H1 H2).
Qed.

Lemma platform_flag_spelling_witness :
  platformFlagIsIOS (Some ("  " ++ "iOS" ++ " ")) = true /\
  platformFlagIsAndroid (Some ("" ++ "Android" ++ "")) = true.
Proof.
  split.
  - apply (proj1 (platform_flag_spelling "  " "iOS" " " eq_refl eq_refl)).
    reflexivity.
  - apply (proj1 (proj2 (platform_flag_spelling "" "Android" "" eq_refl eq_refl))).
    reflexivity.
Defined.

(** X11.  No input is recognised as two platforms; a flag valid for mobile
    only is valid when Desktop is allowed too, and the flags the two
    validators disagree on are exactly the Desktop ones; a missing flag is
    never valid. *)
Theorem platform_flags_exclusive (input : option string) (flag : string) :
  platformFlagIsIOS input && platformFlagIsAndroid input = false /\
  platformFlagIsIOS input && platformFlagIsDesktop input = false /\
  platformFlagIsAndroid input && platformFlagIsDesktop input = false /\
  (validatePlatformFlagMobileOnly flag = true ->
   validatePlatformFlagIncludingDesktop flag = true) /\
  (validatePlatformFlagIncludingDesktop flag = true /\
   validatePlatformFlagMobileOnly flag = false <->
   platformFlagIsDesktop (Some flag) = true) /\
  (forall includeDesktop, platformFlagIsValid None includeDesktop = false).
Proof.
  unfold validatePlatformFlagMobileOnly, validatePlatformFlagIncludingDesktop,
    platformFlagIsValid, platformFlagIsIOS, platformFlagIsAndroid,
    platformFlagIsDesktop.
  set (t := toLowerCaseLatin1 (trim (orEmpty input))).
  set (u := toLowerCaseLatin1 (trim (orEmpty (Some flag)))).
  split; [|split; [|split; [|split; [|split]]]].
  - destruct (String.eqb_spec t IOS_FLAG) as [->|]; reflexivity.
  - destruct (String.eqb_spec t IOS_FLAG) as [->|]; reflexivity.
  - destruct (String.eqb_spec t ANDROID_FLAG) as [->|]; reflexivity.
  - rewrite andb_false_l, andb_true_l, orb_false_r. intros ->. reflexivity.
  - rewrite andb_false_l, andb_true_l, orb_false_r.
    destruct (String.eqb_spec u IOS_FLAG) as [->|];
      [simpl; split; [intros [_ H]|intro H]; discriminate|].
    destruct (String.eqb_spec u ANDROID_FLAG) as [->|];
      [simpl; split; [intros [_ H]|intro H]; discriminate|].
    simpl. split; [tauto|]. intro H. now split.
  - intros []; reflexivity.
Qed.

Lemma platform_flags_exclusive_witness :
  validatePlatformFlagIncludingDesktop "Desktop" = true /\
  validatePlatformFlagMobileOnly "Desktop" = false.
Proof.
  apply (proj2 (proj1 (proj2 (proj2 (proj2 (proj2
           (platform_flags_exclusive None "Desktop"))))))).
  reflexivity.
Defined.

Lemma isBlank_length (s : string) :
  isBlank s = negb (0 <? String.length (trim s))%nat.
Proof. unfold isBlank. now destruct (trim s). Qed.

Lemma isBlank_empty_false (s : string) : isBlank s = false -> s <> "".
Proof. intros H ->. discriminate. Qed.

(** X12.  [resolveFlag] returns the flag itself whenever the flag has a
    character that is not white space, and the default otherwise (flag
    missing, empty or blank); so its result is never blank when the default
    is not, it passes [validateApiLevelFlag] whenever the default does, and
    resolving the result again changes nothing. *)
Theorem resolveFlag_result (flag : option string) (defaultValue : string) :
  (forall s, flag = Some s -> isBlank s = false ->
             resolveFlag flag defaultValue = s) /\
  ((flag = None \/ exists s, flag = Some s /\ isBlank s = true) ->
   resolveFlag flag defaultValue = defaultValue) /\
  (isBlank defaultValue = false ->
   isBlank (resolveFlag flag defaultValue) = false) /\
  (validateApiLevelFlag defaultValue = true ->
   validateApiLevelFlag (resolveFlag flag defaultValue) = true) /\
  resolveFlag (Some (resolveFlag flag defaultValue)) defaultValue
  = resolveFlag flag defaultValue.
Proof.
  assert (A : forall s, isBlank s = false -> resolveFlag (Some s) defaultValue = s).
  { intros s Hs. unfold resolveFlag.
    rewrite isBlank_length in Hs. apply negb_false_iff in Hs. rewrite Hs.
    destruct (String.eqb_spec s "") as [->|_]; [discriminate|reflexivity]. }
  assert (B : forall s, isBlank s = true -> resolveFlag (Some s) defaultValue = defaultValue).
  { intros s Hs. unfold resolveFlag.
    rewrite isBlank_length in Hs. apply negb_true_iff in Hs. rewrite Hs.
    now rewrite andb_false_r. }
  assert (C : isBlank defaultValue = false ->
              isBlank (resolveFlag flag defaultValue) = false).
  { intro Hd. destruct flag as [s|]; [|exact Hd].
    destruct (isBlank s) eqn:E; [now rewrite B|now rewrite A]. }
  split; [intros s -> Hs; now apply A|]. split.
  - intros [->|[s [-> Hs]]]; [reflexivity|now apply B].
  - split; [exact C|]. split.
    + unfold validateApiLevelFlag. intro Hd.
      assert (Hb : isBlank defaultValue = false)
        by (rewrite isBlank_length, Hd; reflexivity).
      specialize (C Hb). rewrite isBlank_length in C.
      now apply negb_false_iff in C.
    + destruct flag as [s|].
      * destruct (isBlank s) eqn:E.
        -- rewrite (B s E).
           destruct (isBlank defaultValue) eqn:Ed; [now apply B|now apply A].
        -- rewrite (A s E). now apply A.
      * simpl resolveFlag at 2. change (resolveFlag None defaultValue) with defaultValue.
        destruct (isBlank defaultValue) eqn:Ed; [now apply B|now apply A].
Qed.

Lemma resolveFlag_result_witness :
  resolveFlag (Some " 33 ") "30" = " 33 " /\
  resolveFlag (Some "   ") "30" = "30" /\
  isBlank (resolveFlag None "30") = false.
Proof.
  split; [|split].
  - apply (proj1 (resolveFlag_result (Some " 33 ") "30") " 33 " eq_refl eq_refl).
  - apply (proj1 (proj2 (resolveFlag_result (Some "   ") "30"))).
    right. exists "   ". split; reflexivity.
  - apply (proj1 (proj2 (proj2 (resolveFlag_result None "30")))). reflexivity.
Defined.

End CommandLineFacts.

(** ** More on the simulator list parser *)

Module ParserExtraFacts.
Import JSString JSON IOSSimulatorDevice ParserSpec SortFacts ParserFacts.

Lemma noDash_replaceDashes (s : string) : noDash (replaceDashes s) = true.
Proof.
  induction s as [|c s IH]; simpl; [reflexivity|].
  destruct (Ascii.eqb_spec c "-") as [->|Hc]; simpl; [exact IH|].
  apply Ascii.eqb_neq in Hc. now rewrite Hc.
Qed.

(** X13.  The runtime label of a device never holds a dash, whatever the
    runtime identifier was. *)
Theorem runtime_label_has_no_dash (n u s a : jsvalue) (runtimeIdentifier : string) :
  noDash (runtimeId (new n u s runtimeIdentifier a)) = true.
Proof. unfold new. simpl. apply noDash_replaceDashes. Qed.

Lemma allNotNull_characters (s : string) : allNotNull (characters s) = true.
Proof. induction s; simpl; auto. Qed.

Lemma pushDevices_null (k : string) (ds : list json)
      (acc : list IOSSimulatorDevice) :
  allNotNull ds = false -> pushDevices k ds acc = Throw typeError.
Proof.
  revert acc. induction ds as [|d r IH]; intros acc H; [discriminate|].
  unfold allNotNull in H. simpl in H. simpl.
  destruct d; simpl in *; try reflexivity; now apply IH.
Qed.

Lemma iterate_usable (rd : list (string * json)) (k : string)
      (acc : list IOSSimulatorDevice) :
  bind (iterate (getOwn (JObject rd) k))
       (fun devices => pushDevices k devices acc)
  = if usable (lookup k rd)
    then Return (acc ++ devicesUnder rd k)%list
    else Throw typeError.
Proof.
  unfold devicesUnder. simpl getOwn.
  destruct (lookup k rd) as [[]|]; simpl; try reflexivity.
  - rewrite pushDevices_notNull by apply allNotNull_characters. reflexivity.
  - destruct (allNotNull elements) eqn:E.
    + now rewrite pushDevices_notNull.
    + now rewrite pushDevices_null.
Qed.

Lemma pushRuntimes_result (rd : list (string * json)) (ks : list string)
      (acc : list IOSSimulatorDevice) :
  pushRuntimes (JObject rd) ks acc
  = if forallb (fun k => usable (lookup k rd)) ks
    then Return (acc ++ flat_map (devicesUnder rd) ks)%list
    else Throw typeError.
Proof.
  revert acc. induction ks as [|k r IH]; intro acc.
  - simpl. now rewrite app_nil_r.
  - cbn [pushRuntimes forallb flat_map].
    pose proof (iterate_usable rd k acc) as H. unfold bind in H.
    unfold bind.
    destruct (iterate (getOwn (JObject rd) k)) as [devices|e].
    + rewrite H. destruct (usable (lookup k rd)); simpl; [|reflexivity].
      rewrite IH. destruct (forallb _ r); [|reflexivity].
      now rewrite <- app_assoc.
    + rewrite H. destruct (usable (lookup k rd)); [discriminate|reflexivity].
Qed.

Lemma forallb_permutation {A : Type} (f : A -> bool) (l l' : list A) :
  Permutation l l' -> forallb f l = forallb f l'.
Proof.
  intro H. induction H as [|x l l' _ IH|x y l|l l' l'' _ IH1 _ IH2]; simpl.
  - reflexivity.
  - now rewrite IH.
  - destruct (f x), (f y); reflexivity.
  - congruence.
Qed.

(** X14.  Once the allow-list has compiled to a pattern and for a payload
    whose [devices] is an object, the parser throws a TypeError exactly when
    some runtime key that passes the filter holds a value the loops cannot
    walk (a value that is neither an array nor a string, or an array with a
    [null] entry); otherwise it returns the devices under the keys that
    pass.  What lies under a key that does not pass is never read. *)
Theorem parseJSONString_throws_exactly
        (RegExp_new : string -> completion RegExp)
        (JSON_parse : string -> completion json) (jsonString : string)
        (supportedRuntimes : list string) (runtimeMatchRegex : RegExp)
        (rd : list (string * json)) :
  RegExp_new (runtimePattern supportedRuntimes) = Return runtimeMatchRegex ->
  JSON_parse jsonString = Return (deviceList rd) ->
  ((forall k, In k (supportedKeys runtimeMatchRegex rd) ->
              usable (lookup k rd) = true) ->
   parseJSONString RegExp_new JSON_parse jsonString supportedRuntimes
   = Return (flat_map (devicesUnder rd)
               (List.rev (sort (supportedKeys runtimeMatchRegex rd))))) /\
  ((exists k, In k (supportedKeys runtimeMatchRegex rd) /\
              usable (lookup k rd) = false) ->
   parseJSONString RegExp_new JSON_parse jsonString supportedRuntimes
   = Throw typeError).
Proof.
  intros Hr Hp. rewrite (parseJSONString_deviceList _ _ _ _ _ _ Hr Hp).
  fold (supportedKeys runtimeMatchRegex rd).
  rewrite pushRuntimes_result.
  rewrite (forallb_permutation _ _ _
             (proj1 (sort_reverse_descending (supportedKeys runtimeMatchRegex rd)))).
  split.
  - intro H. apply forallb_forall in H. now rewrite H.
  - intros [k [Hin Hk]].
    destruct (forallb (fun k0 => usable (lookup k0 rd))
                      (supportedKeys runtimeMatchRegex rd)) eqn:E;
      [|reflexivity].
    rewrite forallb_forall in E. rewrite (E k Hin) in Hk. discriminate.
Qed.

Lemma parseJSONString_throws_exactly_witness :
  parseJSONString (plainRegExp ["iOS-17-5"]) sampleParser "p" ["iOS-17-5"]
  = Throw typeError /\
  parseJSONString (plainRegExp ["iOS-17-5"]) sampleParser "q" ["iOS-17-5"]
  = Return [simOf key_iOS_17_5 (sampleDevice "iPhone 15" "B1")].
Proof.
  split.
  - apply (proj2 (parseJSONString_throws_exactly
                    (plainRegExp ["iOS-17-5"]) sampleParser "p" ["iOS-17-5"]
                    (regexMatches ["iOS-17-5"]) devicesWithNullEntry
                    eq_refl eq_refl)).
    exists key_iOS_17_5. split; [left; reflexivity|reflexivity].
  - apply (proj1 (parseJSONString_throws_exactly
                    (plainRegExp ["iOS-17-5"]) sampleParser "q" ["iOS-17-5"]
                    (regexMatches ["iOS-17-5"]) devicesWithStrayRuntime
                    eq_refl eq_refl)).
    intros k [<-|[]]. reflexivity.
Defined.

End ParserExtraFacts.

(** ** The parser and the order of the payload *)

Module ParserOrderFacts.
Import JSString JSON IOSSimulatorDevice ParserSpec SortFacts ParserFacts
       ParserExtraFacts.

(** Two ascending lists with the same elements are the same list. *)
Lemma ascending_unique (l l' : list string) :
  StronglySorted ascending l -> StronglySorted ascending l' ->
  Permutation l l' -> l = l'.
Proof.
  revert l'. induction l as [|a r IH]; intros l' Hs Hs' Hp.
  - apply Permutation_nil in Hp. now subst.
  - destruct l' as [|b r'].
    + apply Permutation_sym, Permutation_nil in Hp. discriminate.
    + apply StronglySorted_inv in Hs. destruct Hs as [Hr Ha].
      apply StronglySorted_inv in Hs'. destruct Hs' as [Hr' Hb].
      assert (E : a = b).
      { assert (Hab : String.leb a b = true).
        { assert (Hin : In b (a :: r))
            by (apply (Permutation_in _ (Permutation_sym Hp)); now left).
          destruct Hin as [->|Hin].
          - destruct (String.leb_total b b); assumption.
          - rewrite Forall_forall in Ha. exact (Ha b Hin). }
        assert (Hba : String.leb b a = true).
        { assert (Hin : In a (b :: r'))
            by (apply (Permutation_in _ Hp); now left).
          destruct Hin as [->|Hin].
          - exact Hab.
          - rewrite Forall_forall in Hb. exact (Hb a Hin). }
        now apply String.leb_antisym. }
      subst b. f_equal. apply IH; try assumption.
      now apply Permutation_cons_inv in Hp.
Qed.

(** [sort] depends on the elements only. *)
Lemma sort_canonical (l l' : list string) :
  Permutation l l' -> sort l = sort l'.
Proof.
  intro Hp. apply ascending_unique; try apply sort_sorted.
  rewrite (sort_perm l), (sort_perm l'). exact Hp.
Qed.

Lemma lookup_In (rd : list (string * json)) (k : string) (v : json) :
  NoDup (map fst rd) -> (lookup k rd = Some v <-> In (k, v) rd).
Proof.
  induction rd as [|[k' v'] r IH]; simpl; intro H.
  - split; [discriminate|contradiction].
  - inversion H as [|? ? Hn Hr]; subst.
    destruct (String.eqb_spec k' k) as [->|Hne].
    + split.
      * intro E. injection E as ->. now left.
      * intros [E|Hin]; [now injection E as ->|].
        exfalso. apply Hn. apply in_map_iff. now exists (k, v).
    + rewrite (IH Hr). split; [tauto|].
      intros [E|Hin]; [congruence|exact Hin].
Qed.

Lemma lookup_permutation (rd rd' : list (string * json)) (k : string) :
  NoDup (map fst rd) -> Permutation rd rd' -> lookup k rd = lookup k rd'.
Proof.
  intros Hn Hp.
  assert (Hn' : NoDup (map fst rd'))
    by (apply (Permutation_NoDup (Permutation_map fst Hp) Hn)).
  destruct (lookup k rd) as [v|] eqn:E.
  - symmetry. apply (lookup_In rd' k v Hn').
    apply (Permutation_in _ Hp). now apply (lookup_In rd k v Hn).
  - destruct (lookup k rd') as [v|] eqn:E'; [|reflexivity].
    apply (lookup_In rd' k v Hn') in E'.
    apply (Permutation_in _ (Permutation_sym Hp)) in E'.
    apply (lookup_In rd k v Hn) in E'. congruence.
Qed.

Lemma filter_permutation {A : Type} (f : A -> bool) (l l' : list A) :
  Permutation l l' -> Permutation (filter f l) (filter f l').
Proof.
  intro H. induction H as [|x l l' _ IH|x y l|l l' l'' _ IH1 _ IH2]; simpl.
  - constructor.
  - destruct (f x); [now constructor|exact IH].
  - destruct (f x), (f y); try reflexivity. apply perm_swap.
  - now transitivity (filter f l').
Qed.

(** X15.  The result does not depend on the order in which the runtimes
    appear in the payload: two payloads whose [devices] objects hold the same
    entries in different orders parse to the same list, or both throw. *)
Theorem parseJSONString_order_independent
        (RegExp_new : string -> completion RegExp)
        (JSON_parse : string -> completion json) (s s' : string)
        (supportedRuntimes : list string) (rd rd' : list (string * json)) :
  JSON_parse s = Return (deviceList rd) ->
  JSON_parse s' = Return (deviceList rd') ->
  NoDup (map fst rd) -> Permutation rd rd' ->
  parseJSONString RegExp_new JSON_parse s supportedRuntimes
  = parseJSONString RegExp_new JSON_parse s' supportedRuntimes.
Proof.
  intros Hp Hp' Hn Hperm.
  destruct (RegExp_new (runtimePattern supportedRuntimes))
    as [runtimeMatchRegex|e] eqn:Hr;
    [|now rewrite !(parseJSONString_invalid_pattern _ _ _ _ e Hr)].
  rewrite (parseJSONString_deviceList _ _ _ _ _ _ Hr Hp),
    (parseJSONString_deviceList _ _ _ _ _ _ Hr Hp'), !pushRuntimes_result.
  rewrite (sort_canonical _ _
             (filter_permutation (isSupportedKey runtimeMatchRegex) _ _
                (Permutation_map fst Hperm))).
  assert (E1 : forall ks, forallb (fun k => usable (lookup k rd)) ks
                          = forallb (fun k => usable (lookup k rd')) ks).
  { induction ks as [|k r IH]; simpl; [reflexivity|].
    now rewrite IH, (lookup_permutation rd rd' k Hn Hperm). }
  assert (E2 : forall ks, flat_map (devicesUnder rd) ks
                          = flat_map (devicesUnder rd') ks).
  { induction ks as [|k r IH]; simpl; [reflexivity|].
    rewrite IH. unfold devicesUnder.
    now rewrite (lookup_permutation rd rd' k Hn Hperm). }
  now rewrite E1, E2.
Qed.

Lemma parseJSONString_order_independent_witness :
  parseJSONString
    (plainRegExp ["iOS-17-5"; "iOS-16-4"])
    (tableParser [("a", samplePayload);
                  ("b", deviceList
                          [(key_iOS_17_5, JArray [sampleDevice "iPhone 15" "B1"]);
                           (key_iOS_16_4,
                            JArray [sampleDevice "iPhone 14" "A1";
                                    sampleDevice "iPad Air" "A2"])])])
    "a" ["iOS-17-5"; "iOS-16-4"]
  = parseJSONString
      (plainRegExp ["iOS-17-5"; "iOS-16-4"])
      (tableParser [("a", samplePayload);
                    ("b", deviceList
                            [(key_iOS_17_5, JArray [sampleDevice "iPhone 15" "B1"]);
                             (key_iOS_16_4,
                              JArray [sampleDevice "iPhone 14" "A1";
                                      sampleDevice "iPad Air" "A2"])])])
      "b" ["iOS-17-5"; "iOS-16-4"].
Proof.
  apply (parseJSONString_order_independent
           (plainRegExp ["iOS-17-5"; "iOS-16-4"]) _ "a" "b"
           ["iOS-17-5"; "iOS-16-4"]
           [(key_iOS_16_4,
             JArray [sampleDevice "iPhone 14" "A1"; sampleDevice "iPad Air" "A2"]);
            (key_iOS_17_5, JArray [sampleDevice "iPhone 15" "B1"])]
           [(key_iOS_17_5, JArray [sampleDevice "iPhone 15" "B1"]);
            (key_iOS_16_4,
             JArray [sampleDevice "iPhone 14" "A1"; sampleDevice "iPad Air" "A2"])]
           eq_refl eq_refl).
  - repeat constructor; simpl; intuition discriminate.
  - apply perm_swap.
Defined.

End ParserOrderFacts.

(** ** Payloads without a [devices] object *)

Module ParserEdgeFacts.
Import JSString JSON IOSSimulatorDevice ParserSpec NumeralFacts VersionFacts
       FromExtraFacts ParserFacts.

Lemma prefix_SimRuntime_digits (s : string) :
  allDigits s = true -> String.prefix "SimRuntime" s = false.
Proof.
  destruct s as [|c r]; [reflexivity|]. simpl allDigits. intro H.
  apply andb_true_iff in H. destruct H as [Hc _].
  rewrite LabelFacts.prefix_cons.
  destruct (ascii_dec "S" c) as [<-|_]; [discriminate|reflexivity].
Qed.

(** The pattern of an allow-list of plain names finds no match in a key
    made of digits. *)
Lemma regexMatches_digits (rts : list string) (s : string) :
  allDigits s = true -> regexMatches rts s = false.
Proof.
  induction s as [|c r IH]; [reflexivity|].
  intro H. simpl in H. apply andb_true_iff in H. destruct H as [Hc Hr].
  cbn [regexMatches]. rewrite (IH Hr), orb_false_r.
  unfold matchHere. rewrite (prefix_SimRuntime_digits r Hr).
  now rewrite andb_false_r.
Qed.

Lemma filter_indexKeys (runtimeMatchRegex : RegExp) (n : nat) :
  (forall k, allDigits k = true -> runtimeMatchRegex k = false) ->
  filter (isSupportedKey runtimeMatchRegex) (indexKeys n) = [].
Proof.
  intro Hm. unfold indexKeys. generalize 0%nat.
  induction n as [|n IH]; intro start; simpl; [reflexivity|].
  unfold isSupportedKey at 1.
  rewrite Hm, andb_false_r; [apply IH|].
  apply isNumeral_allDigits.
  apply (proj1 (numberToString_numeral (Z.of_nat start) (Nat2Z.is_nonneg start))).
Qed.

Lemma parseJSONString_index_keys
      (RegExp_new : string -> completion RegExp)
      (JSON_parse : string -> completion json) (jsonString : string)
      (supportedRuntimes : list string) (runtimeMatchRegex : RegExp)
      (payload : json) :
  RegExp_new (runtimePattern supportedRuntimes) = Return runtimeMatchRegex ->
  JSON_parse jsonString = Return payload ->
  payload <> JNull -> isObject (devicesOf payload) = false ->
  (hasIndexKeys (devicesOf payload) = true ->
   forall k, allDigits k = true -> runtimeMatchRegex k = false) ->
  parseJSONString RegExp_new JSON_parse jsonString supportedRuntimes
  = Return [].
Proof.
  intros Hr Hp Hn Ho Hm. unfold parseJSONString. rewrite Hr. cbn [bind].
  rewrite Hp. unfold devicesOf in Ho, Hm.
  destruct payload; try congruence; simpl in *; try reflexivity.
  destruct (lookup "devices" properties) as [[]|]; simpl in *;
    try reflexivity; try discriminate.
  - destruct b; reflexivity.
  - destruct (negb (QArith_base.Qnum q =? 0)); reflexivity.
  - destruct s as [|c r]; [reflexivity|]. cbn [String.eqb negb objectKeys].
    now rewrite (filter_indexKeys _ _ (Hm eq_refl)).
  - destruct elements as [|d r]; [reflexivity|].
    now rewrite (filter_indexKeys _ _ (Hm eq_refl)).
Qed.

(** X16.  Once the allow-list has compiled to a pattern, the parser throws a
    TypeError on the payload [null]; on every other payload whose [devices]
    is missing, [null], a boolean, a number, an empty string or an empty
    array it returns the empty list; it does so too when [devices] is
    another string or array, provided the pattern finds no match in the
    index keys "0", "1", ... (keys made of digits), which is the case for
    every allow-list of plain runtime names. *)
Theorem parseJSONString_without_devices_object
        (RegExp_new : string -> completion RegExp)
        (JSON_parse : string -> completion json) (jsonString : string)
        (supportedRuntimes : list string) (runtimeMatchRegex : RegExp)
        (payload : json) :
  RegExp_new (runtimePattern supportedRuntimes) = Return runtimeMatchRegex ->
  JSON_parse jsonString = Return payload ->
  (payload = JNull ->
   parseJSONString RegExp_new JSON_parse jsonString supportedRuntimes
   = Throw typeError) /\
  (payload <> JNull -> isObject (devicesOf payload) = false ->
   hasIndexKeys (devicesOf payload) = false ->
   parseJSONString RegExp_new JSON_parse jsonString supportedRuntimes
   = Return []) /\
  (payload <> JNull -> hasIndexKeys (devicesOf payload) = true ->
   (forall k, allDigits k = true -> runtimeMatchRegex k = false) ->
   parseJSONString RegExp_new JSON_parse jsonString supportedRuntimes
   = Return []) /\
  (payload <> JNull -> isObject (devicesOf payload) = false ->
   readsLiterally RegExp_new supportedRuntimes ->
   parseJSONString RegExp_new JSON_parse jsonString supportedRuntimes
   = Return []).
Proof.
  intros Hr Hp. split; [|split; [|split]].
  - intros ->. unfold parseJSONString. rewrite Hr. cbn [bind]. now rewrite Hp.
  - intros Hn Ho Hi.
    apply (parseJSONString_index_keys _ _ _ _ _ _ Hr Hp Hn Ho).
    rewrite Hi. discriminate.
  - intros Hn Hi Hm.
    apply (parseJSONString_index_keys _ _ _ _ _ _ Hr Hp Hn); [|intros _; exact Hm].
    destruct (devicesOf payload) as [[| | | |[]|]|]; try reflexivity;
      discriminate.
  - intros Hn Ho [_ Hl]. rewrite Hl in Hr. injection Hr as <-.
    apply (parseJSONString_index_keys _ _ _ _ _ _ Hl Hp Hn Ho).
    intros _ k. apply regexMatches_digits.
Qed.

Lemma parseJSONString_without_devices_object_witness :
  parseJSONString (plainRegExp ["iOS-17-5"])
                  (tableParser [("null", JNull);
                                ("list", JObject [("devices", JArray [JNull; JNull])])])
                  "null" ["iOS-17-5"] = Throw typeError /\
  parseJSONString (plainRegExp ["iOS-17-5"])
                  (tableParser [("null", JNull);
                                ("list", JObject [("devices", JArray [JNull; JNull])])])
                  "list" ["iOS-17-5"] = Return [].
Proof.
  split.
  - apply (proj1 (parseJSONString_without_devices_object
                    (plainRegExp ["iOS-17-5"])
                    (tableParser [("null", JNull);
                                  ("list", JObject [("devices", JArray [JNull; JNull])])])
                    "null" ["iOS-17-5"] (regexMatches ["iOS-17-5"]) JNull
                    eq_refl eq_refl)).
    reflexivity.
  - apply (proj1 (proj2 (proj2 (parseJSONString_without_devices_object
                    (plainRegExp ["iOS-17-5"])
                    (tableParser [("null", JNull);
                                  ("list", JObject [("devices", JArray [JNull; JNull])])])
                    "list" ["iOS-17-5"] (regexMatches ["iOS-17-5"])
                    (JObject [("devices", JArray [JNull; JNull])])
                    eq_refl eq_refl)))).
    + discriminate.
    + reflexivity.
    + intros k. apply regexMatches_digits.
Defined.

End ParserEdgeFacts.

(** ** More on the requirement engine *)

Module SetupExtraFacts.
Import Setup SetupMore Async SetupFacts.

Section Engine.
Variable stepDuration : Requirement -> number.
Variable getMessage : string -> string.

Lemma promiseAll_wrapped_pending (requirements : list Requirement) :
  forallb settles requirements = false ->
  promiseAll (map (wrapperOf stepDuration) requirements) = Pending.
Proof.
  induction requirements as [|r l IH]; simpl; [discriminate|].
  intro H. unfold wrapperOf at 1. unfold settles at 1 in H.
  destruct (checkFunction r tt) as [[]|] eqn:E; simpl in H;
    try (rewrite (IH H); reflexivity);
    (destruct (forallb settles l) eqn:El;
     [now rewrite (promiseAll_wrapped stepDuration l El)
     |now rewrite (IH eq_refl)]).
Qed.

(** The loop throws what the first throwing call throws. *)
Lemma wrapAll_throws (requirements : list Requirement) (e : string) :
  wrapAll stepDuration requirements = Throw e <->
  exists before r after,
    requirements = (before ++ r :: after)%list /\
    forallb (fun r => negb (throws r)) before = true /\
    checkFunction r tt = Throw e.
Proof.
  induction requirements as [|r l IH]; simpl.
  - split; [discriminate|]. intros [[|? ?] [? [? [H _]]]]; discriminate.
  - unfold WrappedPromise.
    destruct (checkFunction r tt) as [p|e'] eqn:E.
    + assert (Hw : match
                     match p with
                     | Fulfilled v =>
                         Return (Fulfilled (mkWrappedPromiseResult v "fulfilled"
                                              (stepDuration r) r))
                     | Rejected e0 =>
                         Return (Fulfilled (mkWrappedPromiseResult (Some e0)
                                              "rejected" (stepDuration r) r))
                     | Pending => Return Pending
                     end
                   with
                   | Throw e0 => Throw e0
                   | Return wrapper =>
                       match wrapAll stepDuration l with
                       | Throw e0 => Throw e0
                       | Return allPromises => Return (wrapper :: allPromises)
                       end
                   end = Throw e <-> wrapAll stepDuration l = Throw e).
      { destruct p; destruct (wrapAll stepDuration l);
          split; intro H; congruence. }
      rewrite Hw, IH. split.
      * intros [before [r' [after [-> [Hb Hr]]]]].
        exists (r :: before), r', after. split; [reflexivity|].
        split; [|exact Hr]. simpl. unfold throws at 1. now rewrite E.
      * intros [[|r0 before] [r' [after [Hl [Hb Hr]]]]];
          simpl in Hl; injection Hl as <- ->.
        -- congruence.
        -- exists before, r', after. split; [reflexivity|].
           simpl in Hb. apply andb_true_iff in Hb. now split.
    + split.
      * intro H. injection H as ->. exists [], r, l. now repeat split.
      * intros [[|r0 before] [r' [after [Hl [Hb Hr]]]]];
          simpl in Hl; injection Hl as <- ->.
        -- congruence.
        -- simpl in Hb. unfold throws at 1 in Hb. rewrite E in Hb.
           discriminate.
Qed.

Lemma wrapAll_total (requirements : list Requirement) :
  (exists e, wrapAll stepDuration requirements = Throw e) \/
  forallb (fun r => negb (throws r)) requirements = true.
Proof.
  induction requirements as [|r l IH]; simpl; [now right|].
  unfold WrappedPromise, throws.
  destruct (checkFunction r tt) as [[]|e]; simpl;
    try (left; eexists; reflexivity);
    (destruct IH as [[e' ->]|H]; [left; eexists; reflexivity|now right]).
Qed.

(** X17.  [executeSetup] is rejected exactly when the call of some check
    throws before it returns a promise, and then with what the first such
    call throws; a check whose promise is rejected never rejects it.  It
    stays pending exactly when no call throws and some check never settles;
    in every other case it resolves with a report. *)
Theorem executeSetup_rejects_only_on_throw (requirements : list Requirement) :
  (forall e,
      executeSetup stepDuration getMessage requirements = Rejected e <->
      exists before r after,
        requirements = (before ++ r :: after)%list /\
        forallb (fun r => negb (throws r)) before = true /\
        checkFunction r tt = Throw e) /\
  (executeSetup stepDuration getMessage requirements = Pending <->
   forallb (fun r => negb (throws r)) requirements = true /\
   exists r, In r requirements /\ settles r = false) /\
  ((exists report,
       executeSetup stepDuration getMessage requirements = Fulfilled report) <->
   forallb settles requirements = true).
Proof.
  destruct (wrapAll_total requirements) as [[e0 He0]|Hn].
  - (* some call throws *)
    assert (Hx : executeSetup stepDuration getMessage requirements
                 = Rejected e0) by (unfold executeSetup; now rewrite He0).
    assert (Ht : forallb (fun r => negb (throws r)) requirements = false).
    { apply (proj1 (wrapAll_throws requirements e0)) in He0.
      destruct He0 as [before [r [after [-> [_ Hr]]]]].
      rewrite forallb_app. simpl. unfold throws at 2. rewrite Hr. simpl.
      apply andb_false_r. }
    rewrite Hx. split; [|split].
    + intro e. rewrite <- (wrapAll_throws requirements e), He0.
      split; intro H; congruence.
    + split; [discriminate|]. intros [H _]. congruence.
    + split; [intros [report H]; discriminate|].
      intro Hs. rewrite (settles_not_throws requirements Hs) in Ht.
      discriminate.
  - (* no call throws *)
    assert (Hw := wrapAll_returns stepDuration requirements Hn).
    split; [|split].
    + intro e. rewrite <- (wrapAll_throws requirements e), Hw.
      unfold executeSetup. rewrite Hw.
      destruct (forallb settles requirements) eqn:E.
      * rewrite (promiseAll_wrapped stepDuration requirements E).
        split; discriminate.
      * rewrite (promiseAll_wrapped_pending requirements E).
        split; discriminate.
    + unfold executeSetup. rewrite Hw.
      destruct (forallb settles requirements) eqn:E.
      * rewrite (promiseAll_wrapped stepDuration requirements E).
        split; [discriminate|].
        intros [_ [r [Hin Hr]]]. rewrite forallb_forall in E.
        rewrite (E r Hin) in Hr. discriminate.
      * rewrite (promiseAll_wrapped_pending requirements E).
        split; [|reflexivity]. intros _. split; [exact Hn|].
        destruct (existsb (fun r => negb (settles r)) requirements) eqn:Ex.
        -- apply existsb_exists in Ex. destruct Ex as [r [Hin Hr]].
           exists r. split; [exact Hin|]. now apply negb_true_iff in Hr.
        -- assert (Ha : forallb settles requirements = true).
           { apply forallb_forall. intros r Hin.
             destruct (settles r) eqn:Er; [reflexivity|].
             assert (Hc : existsb (fun r => negb (settles r)) requirements
                          = true).
             { apply existsb_exists. exists r. now rewrite Er. }
             congruence. }
           congruence.
    + split.
      * intros [report H]. unfold executeSetup in H. rewrite Hw in H.
        destruct (forallb settles requirements) eqn:E; [reflexivity|].
        rewrite (promiseAll_wrapped_pending requirements E) in H.
        discriminate.
      * intro Hs. eexists.
        apply (executeSetup_settled stepDuration getMessage requirements Hs).
Qed.

Lemma fold_record_cases (requirements : list Requirement)
      (acc : SetupTestResult) :
  forallb settles requirements = true ->
  fold_left (record getMessage) (map (wrapped stepDuration) requirements) acc
  = mkSetupTestResult
      (hasMetAllRequirements acc && forallb fulfils requirements)
      (tests acc ++ map (caseOf stepDuration getMessage) requirements).
Proof.
  revert acc. induction requirements as [|r l IH]; intros acc H; simpl.
  - rewrite andb_true_r, app_nil_r. now destruct acc.
  - simpl in H. apply andb_true_iff in H. destruct H as [Hr Hl].
    rewrite (IH _ Hl). unfold record, wrapped, caseOf, fulfils, settles in *.
    destruct (checkFunction r tt) as [[]|]; try discriminate; simpl;
      rewrite <- app_assoc; reflexivity || (now rewrite andb_false_r).
Qed.

Lemma executeSetup_cases (requirements : list Requirement) :
  forallb settles requirements = true ->
  executeSetup stepDuration getMessage requirements
  = Fulfilled (mkSetupTestResult
                 (forallb fulfils requirements)
                 (map (caseOf stepDuration getMessage) requirements)).
Proof.
  intro H. rewrite (executeSetup_settled stepDuration getMessage requirements H).
  now rewrite (fold_record_cases requirements _ H).
Qed.

(** X18.  When every check settles, the report lists for each requirement,
    in order, its title, its supplemental message, the value or the rejection
    reason of its check, and the label "passed" or "failed" that agrees with
    [hasPassed]. *)
Theorem executeSetup_report (requirements : list Requirement) :
  forallb settles requirements = true ->
  executeSetup stepDuration getMessage requirements
  = Fulfilled (mkSetupTestResult
                 (forallb fulfils requirements)
                 (map (caseOf stepDuration getMessage) requirements)).
Proof.
  exact (executeSetup_cases requirements).
Qed.

(** The outcome of a run, by cases on the calls and on the checks. *)
Lemma executeSetup_outcome (requirements : list Requirement) :
  (exists e, executeSetup stepDuration getMessage requirements = Rejected e /\
             wrapAll stepDuration requirements = Throw e) \/
  (forallb (fun r => negb (throws r)) requirements = true /\
   forallb settles requirements = false /\
   executeSetup stepDuration getMessage requirements = Pending) \/
  (forallb (fun r => negb (throws r)) requirements = true /\
   forallb settles requirements = true /\
   executeSetup stepDuration getMessage requirements
   = Fulfilled (mkSetupTestResult
                  (forallb fulfils requirements)
                  (map (caseOf stepDuration getMessage) requirements))).
Proof.
  destruct (wrapAll_total requirements) as [[e He]|Hn].
  - left. exists e. split; [|exact He]. unfold executeSetup. now rewrite He.
  - right. destruct (forallb settles requirements) eqn:E.
    + right. repeat split; try assumption. now apply executeSetup_cases.
    + left. repeat split; try assumption. unfold executeSetup.
      rewrite (wrapAll_returns stepDuration requirements Hn).
      now rewrite (promiseAll_wrapped_pending requirements E).
Qed.

Lemma wrapAll_app_throw_left (l l' : list Requirement) (e : string) :
  wrapAll stepDuration l = Throw e ->
  wrapAll stepDuration (l ++ l') = Throw e.
Proof.
  revert e. induction l as [|r l IH]; intros e; simpl; [discriminate|].
  destruct (WrappedPromise stepDuration r); [|trivial].
  destruct (wrapAll stepDuration l) as [ps|e'] eqn:E; [discriminate|].
  intro H. now rewrite (IH e' eq_refl).
Qed.

Lemma wrapAll_app_throw_right (l l' : list Requirement) (e : string) :
  forallb (fun r => negb (throws r)) l = true ->
  wrapAll stepDuration l' = Throw e ->
  wrapAll stepDuration (l ++ l') = Throw e.
Proof.
  induction l as [|r l IH]; simpl; [trivial|].
  intros H He. apply andb_true_iff in H. destruct H as [Hr Hl].
  rewrite (IH Hl He). unfold WrappedPromise, throws in *.
  destruct (checkFunction r tt) as [[]|]; try reflexivity. discriminate.
Qed.

(** X19.  Running the requirements of a setup extended by
    [addRequirements] gives the report of the old requirements followed by
    the report of the added ones, and all are met exactly when both parts
    are; it is rejected as soon as one part is (the old one first), and
    otherwise pending as soon as one part is; adding nothing changes
    nothing. *)
Theorem executeSetup_addRequirements (requirements added : list Requirement) :
  executeSetup stepDuration getMessage
               (addRequirements requirements (Some added))
  = combine (executeSetup stepDuration getMessage requirements)
            (executeSetup stepDuration getMessage added) /\
  addRequirements requirements None = requirements.
Proof.
  split; [|reflexivity]. unfold addRequirements.
  destruct (executeSetup_outcome requirements)
    as [[e [Ha Hwa]]|[[Hna [Hsa Ha]]|[Hna [Hsa Ha]]]];
    destruct (executeSetup_outcome added)
      as [[e' [Hb Hwb]]|[[Hnb [Hsb Hb]]|[Hnb [Hsb Hb]]]];
    rewrite Ha, Hb; cbn [combine];
    try (unfold executeSetup;
         now rewrite (wrapAll_app_throw_left requirements added e Hwa));
    try (unfold executeSetup;
         now rewrite (wrapAll_app_throw_right requirements added e' Hna Hwb)).
  - (* both pending *)
    unfold executeSetup.
    rewrite (wrapAll_returns stepDuration (requirements ++ added))
      by (now rewrite forallb_app, Hna, Hnb).
    now rewrite promiseAll_wrapped_pending by (now rewrite forallb_app, Hsa).
  - unfold executeSetup.
    rewrite (wrapAll_returns stepDuration (requirements ++ added))
      by (now rewrite forallb_app, Hna, Hnb).
    now rewrite promiseAll_wrapped_pending by (now rewrite forallb_app, Hsa).
  - unfold executeSetup.
    rewrite (wrapAll_returns stepDuration (requirements ++ added))
      by (now rewrite forallb_app, Hna, Hnb).
    now rewrite promiseAll_wrapped_pending
      by (now rewrite forallb_app, Hsa, Hsb).
  - rewrite executeSetup_cases by (now rewrite forallb_app, Hsa, Hsb).
    simpl. now rewrite forallb_app, map_app.
Qed.

End Engine.

Lemma executeSetup_rejects_only_on_throw_witness :
  executeSetup (fun _ => QArith_base.Qmake 0 1) (fun key => key)
    [failing "macOS"; throwing "Xcode"; stalling "Simulator"]
  = Rejected "not a function" /\
  executeSetup (fun _ => QArith_base.Qmake 0 1) (fun key => key)
    [failing "macOS"; stalling "Simulator"]
  = Pending.
Proof.
  split.
  - apply (proj1 (executeSetup_rejects_only_on_throw
                    (fun _ => QArith_base.Qmake 0 1) (fun key => key)
                    [failing "macOS"; throwing "Xcode"; stalling "Simulator"])
                 "not a function").
    exists [failing "macOS"], (throwing "Xcode"), [stalling "Simulator"].
    split; [reflexivity|split; reflexivity].
  - apply (proj1 (proj2 (executeSetup_rejects_only_on_throw
                    (fun _ => QArith_base.Qmake 0 1) (fun key => key)
                    [failing "macOS"; stalling "Simulator"]))).
    split; [reflexivity|].
    exists (stalling "Simulator").
    split; [right; left; reflexivity|reflexivity].
Defined.

Lemma executeSetup_report_witness :
  executeSetup (fun _ => QArith_base.Qmake 0 1) (fun key => key)
               [passing "macOS"; failing "Xcode"]
  = Fulfilled
      (mkSetupTestResult false
         [mkSetupTestCase "macOS" "passed" (Some "ok") true None
                          (QArith_base.Qmake 0 1);
          mkSetupTestCase "Xcode" "failed" (Some "missing") false None
                          (QArith_base.Qmake 0 1)]).
Proof.
  apply (executeSetup_report (fun _ => QArith_base.Qmake 0 1) (fun key => key)
           [passing "macOS"; failing "Xcode"] eq_refl).
Defined.

End SetupExtraFacts.

(** ** More on the Android launcher *)

Module AndroidLauncherExtraFacts.
Import Async Preview AndroidLauncher LauncherSpec.

(** X21.  The browser or the native app is launched only on an emulator
    that polling has reported as booted: a launch call in the log of a run
    carries a port for which [pollDeviceStatus] resolved, and the emulator
    existed or its creation had succeeded. *)
Theorem launchPreview_launches_after_boot
        (utils : AndroidUtils) (preview : PreviewUtils)
        (emulatorName compName projectDir : string)
        (appBundlePath : option string) (targetApp : string)
        (appConfig : option AppPreviewConfig) (serverPort : string)
        (c : call) (p : Z) :
  In c (calls (fst (run utils preview emulatorName compName projectDir
                        appBundlePath targetApp appConfig serverPort))) ->
  (exists url, c = LaunchURLIntent url p) \/
  (exists a b d e f g h i, c = LaunchNativeApp a b d e f g p h i) ->
  pollDeviceStatus utils p = Fulfilled tt /\
  (hasEmulator utils emulatorName = Fulfilled true \/
   hasEmulator utils emulatorName = Fulfilled false /\
   exists image api device abi,
     createNewVirtualDevice utils emulatorName image api device abi
     = Fulfilled tt).
Proof.
  unfold_run.
  repeat (split_run; cbn [fst snd variable calls List.app]);
    intros Hin Hc; member_cases Hin; subst c;
    (destruct Hc as [[url Hc]|[a [b [d [e [f [g [h [i Hc]]]]]]]]]);
    try discriminate Hc; inversion Hc; subst;
    repeat match goal with u : unit |- _ => destruct u end;
    repeat match goal with
           | b : bool, H : negb ?b = _ |- _ => destruct b; simpl in H
           end;
    try discriminate;
    (split; [assumption|]); eauto 10.
Qed.

Lemma launchPreview_launches_after_boot_witness :
  pollDeviceStatus Samples.androidUtils 5574 = Fulfilled tt.
Proof.
  apply (launchPreview_launches_after_boot
           Samples.androidUtils Samples.preview "Pixel_API_30" "helloWorld"
           "/project" None "browser" None "3333"
           (LaunchURLIntent "http://10.0.2.2:3333/lwc/preview/c/helloWorld" 5574)
           5574).
  - vm_compute. tauto.
  - left. eexists. reflexivity.
Defined.

(** X22.  A virtual device is created only when [hasEmulator] answered
    that none exists, and then under the launcher's name, with the preferred
    image (or "default" when none is given), the preferred API and ABI, and
    the first supported device; when the emulator exists nothing is
    created. *)
Theorem launchPreview_creates_when_missing
        (utils : AndroidUtils) (preview : PreviewUtils)
        (emulatorName compName projectDir : string)
        (appBundlePath : option string) (targetApp : string)
        (appConfig : option AppPreviewConfig) (serverPort : string)
        (name image api : string) (device : option string) (abi' : string) :
  In (CreateNewVirtualDevice name image api device abi')
     (calls (fst (run utils preview emulatorName compName projectDir
                      appBundlePath targetApp appConfig serverPort))) ->
  hasEmulator utils emulatorName = Fulfilled false /\
  name = emulatorName /\
  exists pack devices,
    findRequiredEmulatorImages utils = Fulfilled pack /\
    getSupportedDevices utils = Fulfilled devices /\
    image = imageOf pack /\ api = platformAPI pack /\ abi' = abi pack /\
    device = hd_error devices.
Proof.
  unfold_run.
  repeat (split_run; cbn [fst snd variable calls List.app]);
    intros Hin; member_cases Hin; try discriminate Hin;
    injection Hin as <- <- <- <- <-;
    repeat match goal with
           | b : bool, H : negb ?b = _ |- _ => destruct b; simpl in H
           end;
    try discriminate;
    (split; [reflexivity|]); (split; [reflexivity|]);
    do 2 eexists; repeat split.
Qed.

Lemma launchPreview_creates_when_missing_witness :
  hasEmulator freshAndroidUtils "Pixel_API_30" = Fulfilled false /\
  In (CreateNewVirtualDevice "Pixel_API_30" "default" "30" (Some "pixel") "x86_64")
     (calls (fst (run freshAndroidUtils Samples.preview "Pixel_API_30"
                      "helloWorld" "/project" None "browser" None "3333"))).
Proof.
  assert (Hin : In (CreateNewVirtualDevice "Pixel_API_30" "default" "30"
                      (Some "pixel") "x86_64")
                   (calls (fst (run freshAndroidUtils Samples.preview
                                    "Pixel_API_30" "helloWorld" "/project"
                                    None "browser" None "3333")))).
  { vm_compute. tauto. }
  split; [|exact Hin].
  exact (proj1 (launchPreview_creates_when_missing
                  freshAndroidUtils Samples.preview "Pixel_API_30"
                  "helloWorld" "/project" None "browser" None "3333"
                  _ _ _ _ _ Hin)).
Defined.

(** X23.  A run that resolves ends with [stopCliAction()]; a run that is
    rejected after the search for the emulator began ends with
    [stopCliAction] and the launch error message; a run rejected before that
    (by one of the three discovery calls) never touches the CLI action. *)
Theorem launchPreview_stops_cli_action
        (utils : AndroidUtils) (preview : PreviewUtils)
        (emulatorName compName projectDir : string)
        (appBundlePath : option string) (targetApp : string)
        (appConfig : option AppPreviewConfig) (serverPort : string) :
  let r := run utils preview emulatorName compName projectDir appBundlePath
               targetApp appConfig serverPort in
  (snd r = Fulfilled tt ->
   last (calls (fst r)) GetSupportedDevices = StopCliAction None) /\
  (forall e, snd r = Rejected e ->
             In (HasEmulator emulatorName) (calls (fst r)) ->
             last (calls (fst r)) GetSupportedDevices
             = StopCliAction (Some androidError)) /\
  (forall e, snd r = Rejected e ->
             ~ In (HasEmulator emulatorName) (calls (fst r)) ->
             forall c, In c (calls (fst r)) ->
                       c = FindRequiredEmulatorImages \/ c = GetSupportedDevices
                       \/ c = GetNextAndroidAdbPort).
Proof.
  unfold_run.
  repeat (split_run; cbn [fst snd variable calls List.app]);
    (split; [|split]);
    try (intro H; discriminate H);
    try (intros e H; discriminate H);
    try (intros _; reflexivity);
    try (intros e _ _; reflexivity);
    try (intros e _ Hn; exfalso; apply Hn; cbn [In]; tauto);
    try (intros e _ Hin; exfalso; cbn [In] in Hin; intuition discriminate);
    try (intros e _ _ c Hin; cbn [In] in Hin; intuition).
Qed.

Lemma launchPreview_stops_cli_action_witness :
  snd (run stuckAndroidUtils Samples.preview "Pixel_API_30" "helloWorld"
           "/project" None "browser" None "3333")
  = Rejected "Timeout waiting for emulator to boot." /\
  last (calls (fst (run stuckAndroidUtils Samples.preview "Pixel_API_30"
                        "helloWorld" "/project" None "browser" None "3333")))
       GetSupportedDevices
  = StopCliAction (Some androidError).
Proof.
  split; [reflexivity|].
  apply (proj1 (proj2 (launchPreview_stops_cli_action
                         stuckAndroidUtils Samples.preview "Pixel_API_30"
                         "helloWorld" "/project" None "browser" None "3333"))
               "Timeout waiting for emulator to boot." eq_refl).
  vm_compute. tauto.
Defined.

(** Cut a log that is written out in two, at the first place where the
    two sides agree. *)
Ltac cut_log log n :=
  first [ (exists (firstn n log); eexists; cbn [firstn List.app]; reflexivity)
        | lazymatch n with
          | 16%nat => fail
          | _ => cut_log log (S n)
          end ].

(** X24.  A run launches either the browser or the native app, never both:
    a URL intent is sent only for a browser target, and the native app is
    launched only for another target, with the component name, the project
    directory, the bundle path and the target as given, the configured launch
    arguments and activity (none and the empty string when not configured),
    and the server address and port exactly when the server is used; the
    call that comes right before the launch in the log is
    [stopCliAction] with the text "Launching App" and the target. *)
Theorem launchPreview_native_launch
        (utils : AndroidUtils) (preview : PreviewUtils)
        (emulatorName compName projectDir : string)
        (appBundlePath : option string) (targetApp : string)
        (appConfig : option AppPreviewConfig) (serverPort : string) :
  let log := calls (fst (run utils preview emulatorName compName projectDir
                             appBundlePath targetApp appConfig serverPort)) in
  let useServer := useLwcServerForPreviewing preview targetApp appConfig in
  (forall url p, In (LaunchURLIntent url p) log ->
                 isTargetingBrowser preview targetApp = true) /\
  (forall a b d e f g p h i,
      In (LaunchNativeApp a b d e f g p h i) log ->
      isTargetingBrowser preview targetApp = false /\
      a = compName /\ b = projectDir /\ d = appBundlePath /\ e = targetApp /\
      f = argumentsOf appConfig /\ g = activityOf appConfig /\
      h = (if useServer then Some "http://10.0.2.2" else None) /\
      i = (if useServer then Some serverPort else None) /\
      exists before after,
        log = (before
                 ++ StopCliAction (Some ("Launching App " ++ targetApp)%string)
                 :: LaunchNativeApp a b d e f g p h i :: after)%list).
Proof.
  unfold_run. unfold argumentsOf, activityOf.
  repeat (split_run; cbn [fst snd variable calls List.app]);
    (split;
     [intros url p Hin|intros a b d e f g p h i Hin]);
    member_cases Hin; try discriminate Hin; try reflexivity;
    inversion Hin; subst;
    repeat match goal with
           | |- _ /\ _ => split
           end; try reflexivity; try assumption;
    try match goal with
        | |- exists before after, ?log = _ => cut_log log 0%nat
        end;
    repeat match goal with
           | H : ?x = _ |- context [?x] => rewrite H
           end; try reflexivity.
Qed.

(** X25.  For a browser target that is not previewed through the server the
    launchers do not fail: both compose the URL from the text "undefined"
    twice, "undefined:undefined/lwc/preview/<route>" (on iOS
    "undefined:undefined" when the LWR server is targeted). *)
Theorem browser_url_without_server
        (androidUtils : AndroidUtils) (iosUtils : IOSLauncher.IOSUtils)
        (preview : PreviewUtils) (getMessage : string -> list string -> string)
        (compName projectDir : string) (appBundlePath : option string)
        (targetApp : string) (appConfig : option AppPreviewConfig)
        (serverPort : string) (targetingLwrServer : bool) :
  isTargetingBrowser preview targetApp = true ->
  useLwcServerForPreviewing preview targetApp appConfig = false ->
  let route := prefixRouteIfNeeded preview compName in
  let iosURL := if targetingLwrServer then "undefined:undefined"
                else "undefined:undefined/lwc/preview/" ++ route in
  (forall st,
      launchStep androidUtils preview compName projectDir appBundlePath
                 targetApp appConfig serverPort st
      = (mkState (variable st)
           (calls st ++ [LaunchURLIntent
                           ("undefined:undefined/lwc/preview/" ++ route)
                           (variable st)]),
         launchURLIntent androidUtils
           ("undefined:undefined/lwc/preview/" ++ route) (variable st))) /\
  (forall st,
      IOSLauncher.launchStep iosUtils preview getMessage compName projectDir
        appBundlePath targetApp appConfig serverPort targetingLwrServer st
      = (mkState (variable st)
           (calls st
              ++ [IOSLauncher.UpdateCliAction
                    (getMessage "launchBrowserStatus" [iosURL]);
                  IOSLauncher.LaunchURLInBootedSimulator (variable st) iosURL]),
         IOSLauncher.launchURLInBootedSimulator iosUtils (variable st) iosURL)).
Proof.
  intros Hb Hs route iosURL. split.
  - intros [v l]. unfold launchStep. rewrite Hb, Hs. reflexivity.
  - intros [v l]. unfold IOSLauncher.launchStep. rewrite Hb, Hs.
    subst iosURL. destruct targetingLwrServer;
      unfold bind, IOSLauncher.updateCliAction, perform, read;
      cbn [fst snd variable calls interpolate]; now rewrite <- app_assoc.
Qed.

Lemma launchPreview_native_launch_witness :
  isTargetingBrowser Samples.preview "com.example.app" = false /\
  exists before after,
    calls (fst (run Samples.androidUtils Samples.preview "Pixel_API_30"
                    "helloWorld" "/project" None "com.example.app" None
                    "3333"))
    = (before
         ++ StopCliAction (Some "Launching App com.example.app")
         :: LaunchNativeApp "helloWorld" "/project" None "com.example.app"
              [] "" 5574 None None :: after)%list.
Proof.
  assert (Hin : In (LaunchNativeApp "helloWorld" "/project" None
                      "com.example.app" [] "" 5574 None None)
                   (calls (fst (run Samples.androidUtils Samples.preview
                                    "Pixel_API_30" "helloWorld" "/project"
                                    None "com.example.app" None "3333")))).
  { vm_compute. tauto. }
  pose proof (proj2 (launchPreview_native_launch
                       Samples.androidUtils Samples.preview "Pixel_API_30"
                       "helloWorld" "/project" None "com.example.app" None
                       "3333") _ _ _ _ _ _ _ _ _ Hin) as H.
  split; [exact (proj1 H)|].
  exact (proj2 (proj2 (proj2 (proj2 (proj2 (proj2 (proj2 (proj2 (proj2 H))))))))).
Defined.

Lemma browser_url_without_server_witness :
  In (LaunchURLIntent "undefined:undefined/lwc/preview/c/helloWorld" 5574)
     (calls (fst (launchStep Samples.androidUtils previewWithoutServer
                    "helloWorld" "/project" None "browser" None "3333"
                    (mkState 5574 [])))).
Proof.
  rewrite (proj1 (browser_url_without_server
                    Samples.androidUtils Samples.iosUtils previewWithoutServer
                    Samples.getMessage "helloWorld" "/project" None "browser"
                    None "3333" false eq_refl eq_refl)).
  left. reflexivity.
Defined.

End AndroidLauncherExtraFacts.

(** ** More on the iOS launcher *)

Module IOSLauncherExtraFacts.
Import Async Preview IOSLauncher LauncherSpec.

Ltac unfold_ios_run :=
  unfold run, launchPreview, launchStep, catchRethrow, startCliAction,
    updateCliAction, stopCliAction, bind, perform, read, assign, ret;
  cbn [fst snd variable calls List.app].

(** X26.  Every call of a run that is made against a simulator (booting it,
    opening the URL, launching the app) carries the [udid] of the simulator
    that was found, or, when none was found (or its [udid] is empty), the
    [udid] with which [createNewDevice] resolved; a device is created only
    in the second case, from the first supported device type and the first
    supported runtime. *)
Theorem ios_launchPreview_udid
        (utils : IOSUtils) (preview : PreviewUtils)
        (getMessage : string -> list string -> string)
        (simulatorName compName projectDir : string)
        (appBundlePath : option string) (targetApp : string)
        (appConfig : option AppPreviewConfig) (serverPort : string)
        (targetingLwrServer : bool) :
  let log := calls (fst (run utils preview getMessage simulatorName compName
                             projectDir appBundlePath targetApp appConfig
                             serverPort targetingLwrServer)) in
  (forall c u,
      In c log -> udidOf c = Some u ->
      exists found,
        getSimulator utils simulatorName = Fulfilled found /\
        (foundUDID found = Some u \/
         foundUDID found = None /\
         exists devices runtimes,
           getSupportedDevices utils = Fulfilled devices /\
           getSupportedRuntimes utils = Fulfilled runtimes /\
           createNewDevice utils simulatorName (hd_error devices)
                           (hd_error runtimes) = Fulfilled u)) /\
  (forall name device runtime,
      In (CreateNewDevice name device runtime) log ->
      name = simulatorName /\
      exists found devices runtimes,
        getSimulator utils simulatorName = Fulfilled found /\
        foundUDID found = None /\
        getSupportedDevices utils = Fulfilled devices /\
        getSupportedRuntimes utils = Fulfilled runtimes /\
        device = hd_error devices /\ runtime = hd_error runtimes).
Proof.
  unfold_ios_run. unfold foundUDID, truthyString, interpolate.
  repeat (split_run; cbn [fst snd variable calls List.app]);
    (split; [intros c u Hin Hu|intros name device runtime Hin]);
    member_cases Hin; try discriminate Hin;
    try (subst c; try discriminate Hu; injection Hu as <-);
    try (injection Hin as <- <- <-);
    repeat match goal with
           | o : option string |- _ => destruct o as [[|? ?]|]
           end;
    simpl in *; try discriminate;
    try (eexists; split; [reflexivity|]; eauto 10);
    try (split; [reflexivity|]; do 3 eexists; repeat split).
Qed.

Lemma ios_launchPreview_udid_witness :
  exists found,
    getSimulator freshIOSUtils "iPhone 15" = Fulfilled found /\
    (foundUDID found = Some "UDID-2" \/
     foundUDID found = None /\
     exists devices runtimes,
       getSupportedDevices freshIOSUtils = Fulfilled devices /\
       getSupportedRuntimes freshIOSUtils = Fulfilled runtimes /\
       createNewDevice freshIOSUtils "iPhone 15" (hd_error devices)
                       (hd_error runtimes) = Fulfilled "UDID-2").
Proof.
  apply (proj1 (ios_launchPreview_udid freshIOSUtils Samples.preview
                  Samples.getMessage "iPhone 15" "helloWorld" "/project"
                  None "browser" None "3333" false)
               (BootDevice "UDID-2" true) "UDID-2").
  - vm_compute. tauto.
  - reflexivity.
Defined.

(** X27.  The native app is launched on iOS only for a target that is not
    the browser, with the bundle path and the target as given, and with the
    configured launch arguments first, then the component name and the
    project directory, then the server address and the server port when the
    server is used (the port only when it is not the empty string). *)
Theorem ios_native_launch_arguments
        (utils : IOSUtils) (preview : PreviewUtils)
        (getMessage : string -> list string -> string)
        (simulatorName compName projectDir : string)
        (appBundlePath : option string) (targetApp : string)
        (appConfig : option AppPreviewConfig) (serverPort : string)
        (targetingLwrServer : bool)
        (udid : string) (bundle : option string) (target : string)
        (arguments : list LaunchArgument) :
  In (LaunchAppInBootedSimulator udid bundle target arguments)
     (calls (fst (run utils preview getMessage simulatorName compName
                      projectDir appBundlePath targetApp appConfig serverPort
                      targetingLwrServer))) ->
  isTargetingBrowser preview targetApp = false /\
  bundle = appBundlePath /\ target = targetApp /\
  arguments
  = iosArguments preview targetApp appConfig compName projectDir serverPort.
Proof.
  unfold_ios_run.
  repeat (split_run; cbn [fst snd variable calls List.app]);
    intro Hin; member_cases Hin; try discriminate Hin;
    injection Hin as <- <- <- <-;
    (split; [first [assumption|reflexivity]|]);
    (split; [reflexivity|]); (split; [reflexivity|]);
    unfold iosArguments, serverArguments, argumentsOf;
    repeat match goal with
           | H : truthyString _ = _ |- _ => unfold truthyString in H
           end;
    destruct (useLwcServerForPreviewing preview targetApp appConfig);
    cbn [interpolate] in *; try discriminate;
    destruct (String.eqb serverPort ""); cbn [negb] in *;
    try discriminate; reflexivity.
Qed.

Lemma ios_native_launch_arguments_witness :
  isTargetingBrowser Samples.preview "com.example.app" = false /\
  None = @None string /\ "com.example.app" = "com.example.app" /\
  [mkLaunchArgument "componentname" "helloWorld";
   mkLaunchArgument "projectdir" "/project"]
  = iosArguments Samples.preview "com.example.app" None "helloWorld"
                 "/project" "3333".
Proof.
  apply (ios_native_launch_arguments Samples.iosUtils Samples.preview
           Samples.getMessage "iPhone 15" "helloWorld" "/project" None
           "com.example.app" None "3333" false "UDID-1").
  vm_compute. tauto.
Defined.

(** X28.  A run that resolves ends with [stopCliAction()], and a run
    rejected once booting has begun ends with [stopCliAction] and the generic
    error message.  When creating the missing simulator fails, the run is
    rejected with that failure and the CLI action it had started is never
    stopped. *)
Theorem ios_launchPreview_stops_cli_action
        (utils : IOSUtils) (preview : PreviewUtils)
        (getMessage : string -> list string -> string)
        (simulatorName compName projectDir : string)
        (appBundlePath : option string) (targetApp : string)
        (appConfig : option AppPreviewConfig) (serverPort : string)
        (targetingLwrServer : bool) :
  let r := run utils preview getMessage simulatorName compName projectDir
               appBundlePath targetApp appConfig serverPort
               targetingLwrServer in
  (snd r = Fulfilled tt ->
   last (calls (fst r)) GetSupportedDevices = StopCliAction None) /\
  (forall e udid wait,
      snd r = Rejected e -> In (BootDevice udid wait) (calls (fst r)) ->
      last (calls (fst r)) GetSupportedDevices
      = StopCliAction (Some (getMessage "genericErrorStatus" []))) /\
  (forall e name device runtime,
      In (CreateNewDevice name device runtime) (calls (fst r)) ->
      createNewDevice utils name device runtime = Rejected e ->
      snd r = Rejected e /\
      existsb isStop (calls (fst r)) = false /\
      In (StartCliAction (getMessage "startPreviewAction" [])
            (getMessage "searchForDeviceStatus" [simulatorName]))
         (calls (fst r))).
Proof.
  unfold_ios_run.
  repeat (split_run; cbn [fst snd variable calls List.app]);
    (split; [|split]);
    try (intro H; discriminate H);
    try (intros _; reflexivity);
    try (intros e udid wait H; discriminate H);
    try (intros e udid wait _ _; reflexivity);
    try (intros e udid wait _ Hin; exfalso; cbn [In] in Hin;
         intuition discriminate);
    try (intros e name device runtime Hin Hc; exfalso; cbn [In] in Hin;
         intuition discriminate);
    try (intros e name device runtime Hin Hc; member_cases Hin;
         try discriminate Hin; injection Hin as <- <- <-;
         match goal with
         | H : createNewDevice _ _ _ _ = _ |- _ =>
             rewrite H in Hc; try discriminate Hc; injection Hc as <-
         end;
         (split; [reflexivity|split; [reflexivity|cbn [In]; tauto]])).
Qed.

Lemma ios_launchPreview_stops_cli_action_witness :
  snd (run brokenIOSUtils Samples.preview Samples.getMessage "iPhone 15"
           "helloWorld" "/project" None "browser" None "3333" false)
  = Rejected "Unable to create device" /\
  existsb isStop
    (calls (fst (run brokenIOSUtils Samples.preview Samples.getMessage
                     "iPhone 15" "helloWorld" "/project" None "browser" None
                     "3333" false)))
  = false /\
  In (StartCliAction "startPreviewAction" "searchForDeviceStatus")
     (calls (fst (run brokenIOSUtils Samples.preview Samples.getMessage
                      "iPhone 15" "helloWorld" "/project" None "browser" None
                      "3333" false))).
Proof.
  apply (proj2 (proj2 (ios_launchPreview_stops_cli_action
                         brokenIOSUtils Samples.preview Samples.getMessage
                         "iPhone 15" "helloWorld" "/project" None "browser"
                         None "3333" false))
               "Unable to create device" "iPhone 15" (Some "iPhone-15")
               (Some "iOS-17-5")).
  - vm_compute. tauto.
  - reflexivity.
Defined.

End IOSLauncherExtraFacts.

(** ** The server plugin requirement *)

Module PluginCheckFacts.
Import Setup SetupMore Async.

(** X20.  The check of the server plugin requirement fulfils with the
    fulfilled message when the plugin is detected, without running any
    command.  The install command is run exactly when detection is rejected:
    if the command returns, the check fulfils with the fulfilled message
    after logging the installation; if the command throws, the check is
    rejected with the unfulfilled message after logging the failure.  The
    check is rejected in no other case, and it stays pending while detection
    is pending. *)
Theorem pluginCheck_outcome (utils : CommonUtils)
        (fulfilledMessage unfulfilledMessage : string) :
  let r := runPluginCheck utils fulfilledMessage unfulfilledMessage in
  (forall m, snd r = Fulfilled m -> m = fulfilledMessage) /\
  (forall e, snd r = Rejected e ->
             e = unfulfilledMessage /\
             (exists reason, isLwcServerPluginInstalled utils = Rejected reason) /\
             exists err,
               executeCommandSync utils installCommand installStdio = Throw err /\
               last (calls (fst r)) IsLwcServerPluginInstalled
               = LoggerError ("sfdx server plugin installion failed. " ++ err)) /\
  (existsb isInstallCall (calls (fst r)) = true <->
   exists reason, isLwcServerPluginInstalled utils = Rejected reason) /\
  (forall c, In c (calls (fst r)) -> isInstallCall c = true ->
             c = ExecuteCommandSync installCommand installStdio) /\
  (isLwcServerPluginInstalled utils = Fulfilled tt ->
   snd r = Fulfilled fulfilledMessage) /\
  (forall reason out,
      isLwcServerPluginInstalled utils = Rejected reason ->
      executeCommandSync utils installCommand installStdio = Return out ->
      snd r = Fulfilled fulfilledMessage /\
      last (calls (fst r)) IsLwcServerPluginInstalled
      = LoggerInfo "sfdx server plugin installed.") /\
  (forall reason err,
      isLwcServerPluginInstalled utils = Rejected reason ->
      executeCommandSync utils installCommand installStdio = Throw err ->
      snd r = Rejected unfulfilledMessage) /\
  (isLwcServerPluginInstalled utils = Pending -> snd r = Pending).
Proof.
  unfold runPluginCheck, pluginCheck, install, info, perform, installStdio.
  cbn [fst snd variable calls List.app].
  destruct (isLwcServerPluginInstalled utils) as [[]|reason|] eqn:E;
    cbn [fst snd variable calls List.app].
  - split; [intros m H; now injection H as <-|].
    split; [intros e H; discriminate H|].
    split; [split; [intro H; discriminate H|intros [r H]; discriminate H]|].
    split.
    { intros c Hin Hc. cbn [In] in Hin.
      destruct Hin as [<-|[<-|[]]]; discriminate Hc. }
    split; [reflexivity|].
    split; [intros ? ? H; discriminate H|].
    split; [intros ? ? H; discriminate H|intro H; discriminate H].
  - destruct (executeCommandSync utils installCommand
                                 ["inherit"; "pipe"; "inherit"]) as [out|err] eqn:Ex;
      cbn [fst snd variable calls List.app].
    + split; [intros m H; now injection H as <-|].
      split; [intros e H; discriminate H|].
      split; [split; [intros _; now exists reason|reflexivity]|].
      split.
      { intros c Hin Hc. cbn [In] in Hin.
        destruct Hin as [<-|[<-|[<-|[<-|[<-|[]]]]]];
          try discriminate Hc; reflexivity. }
      split; [intro H; discriminate H|].
      split; [intros ? ? _ _; split; reflexivity|].
      split; [intros ? ? _ H; discriminate H|intro H; discriminate H].
    + split; [intros m H; discriminate H|].
      split.
      { intros e H. injection H as <-. split; [reflexivity|].
        split; [now exists reason|]. exists err. split; reflexivity. }
      split; [split; [intros _; now exists reason|reflexivity]|].
      split.
      { intros c Hin Hc. cbn [In] in Hin.
        destruct Hin as [<-|[<-|[<-|[<-|[<-|[]]]]]];
          try discriminate Hc; reflexivity. }
      split; [intro H; discriminate H|].
      split; [intros ? ? _ H; discriminate H|].
      split; [intros ? ? _ _; reflexivity|intro H; discriminate H].
  - split; [intros m H; discriminate H|].
    split; [intros e H; discriminate H|].
    split; [split; [intro H; discriminate H|intros [r H]; discriminate H]|].
    split.
    { intros c Hin Hc. cbn [In] in Hin.
      destruct Hin as [<-|[]]; discriminate Hc. }
    split; [intro H; discriminate H|].
    split; [intros ? ? H; discriminate H|].
    split; [intros ? ? H; discriminate H|reflexivity].
Qed.

Lemma pluginCheck_outcome_witness :
  ("install the plugin" = "install the plugin" /\
   (exists reason,
       isLwcServerPluginInstalled hostWithoutPlugin = Rejected reason) /\
   exists err,
     executeCommandSync hostWithoutPlugin installCommand installStdio
     = Throw err /\
     last (calls (fst (runPluginCheck hostWithoutPlugin "plugin found"
                                      "install the plugin")))
          IsLwcServerPluginInstalled
     = LoggerError ("sfdx server plugin installion failed. " ++ err)) /\
  snd (runPluginCheck hostInstallingPlugin "plugin found" "install the plugin")
  = Fulfilled "plugin found" /\
  last (calls (fst (runPluginCheck hostInstallingPlugin "plugin found"
                                   "install the plugin")))
       IsLwcServerPluginInstalled
  = LoggerInfo "sfdx server plugin installed.".
Proof.
  split.
  - exact (proj1 (proj2 (pluginCheck_outcome hostWithoutPlugin "plugin found"
                           "install the plugin"))
                 "install the plugin" eq_refl).
  - exact (proj1 (proj2 (proj2 (proj2 (proj2 (proj2
             (pluginCheck_outcome hostInstallingPlugin "plugin found"
                "install the plugin"))))))
                 "not installed" "installed" eq_refl eq_refl).
Defined.

End PluginCheckFacts.
